(** * baseband.vlbi_base: payload slicing and the sample stream

    A shallow embedding of [baseband/vlbi_base/payload.py] and
    [baseband/vlbi_base/base.py].  Python integers are [Z]; a numpy array is
    a shape together with its row-major buffer; a float64 is a binary64
    number of the standard library's [SpecFloat], and a quantity such a
    number with its unit; a Python exception is a value of [exn], and code
    that raises returns [Raise e]. *)

From Stdlib Require Import String.
From Stdlib Require Import ZArith List Lia Bool QArith Qround SpecFloat.
Import ListNotations.
Open Scope Z_scope.

(** ** Python exceptions *)

Inductive exn_kind : Type :=
| TypeError | IndexError | ValueError | KeyError | EOFError
| ZeroDivisionError | AssertionError | OSError | OverflowError
| UnitConversionError.

Record exn : Type := mk_exn { exn_kind_of : exn_kind; exn_args : list string }.

Inductive result (A : Type) : Type :=
| Ok (a : A)
| Raise (e : exn).
Arguments Ok {A} a.
Arguments Raise {A} e.

Definition raise {A : Type} (k : exn_kind) (msg : string) : result A :=
  Raise (mk_exn k [msg]).

(** [a % b], [a // b] and [divmod(a, b)] on Python integers: floor division,
    the remainder has the sign of the divisor. *)
Definition py_mod (a b : Z) : result Z :=
  if b =? 0 then raise ZeroDivisionError "integer division or modulo by zero"
  else Ok (a mod b).

Definition py_floordiv (a b : Z) : result Z :=
  if b =? 0 then raise ZeroDivisionError "integer division or modulo by zero"
  else Ok (a / b).

Definition py_divmod (a b : Z) : result (Z * Z) :=
  if b =? 0 then raise ZeroDivisionError "integer division or modulo by zero"
  else Ok (a / b, a mod b).

Definition rbind {A B : Type} (r : result A) (f : A -> result B) : result B :=
  match r with
  | Ok a => f a
  | Raise e => Raise e
  end.

Declare Scope result_scope.
Delimit Scope result_scope with result.
Notation "'let*' x ':=' r 'in' k" := (rbind r (fun x => k))
  (at level 10, x name, r at level 100, k at level 200) : result_scope.
Notation "'let*' ' p ':=' r 'in' k" :=
  (rbind r (fun x => match x with p => k end))
  (at level 10, p pattern, r at level 100, k at level 200) : result_scope.
Open Scope result_scope.

Fixpoint mapM {A B : Type} (f : A -> result B) (l : list A) : result (list B) :=
  match l with
  | [] => Ok []
  | x :: l' =>
      let* y := f x in
      let* ys := mapM f l' in
      Ok (y :: ys)
  end.

(** ** Python slices *)

Record slice : Type :=
  mk_slice { sl_start : option Z; sl_stop : option Z; sl_step : option Z }.

(** [slice(None)] *)
Definition slice_all : slice := mk_slice None None None.

Definition option_Z_eqb (a b : option Z) : bool :=
  match a, b with
  | None, None => true
  | Some x, Some y => x =? y
  | _, _ => false
  end.

(** [s1 == s2] on slices compares the three fields. *)
Definition slice_eqb (s1 s2 : slice) : bool :=
  option_Z_eqb (sl_start s1) (sl_start s2) &&
  option_Z_eqb (sl_stop s1) (sl_stop s2) &&
  option_Z_eqb (sl_step s1) (sl_step s2).

(** [slice.indices(length)]: the resolution of start, stop and step that
    CPython performs for a sequence of the given length. *)
Definition slice_indices (s : slice) (len : Z) : result (Z * Z * Z) :=
  let step := match sl_step s with None => 1 | Some k => k end in
  if len <? 0 then raise ValueError "length should not be negative"
  else if step =? 0 then raise ValueError "slice step cannot be zero"
  else
    let lower := if step <? 0 then -1 else 0 in
    let upper := if step <? 0 then len - 1 else len in
    let clip (i : Z) :=
      if i <? 0 then Z.max (i + len) lower else Z.min i upper in
    let start := match sl_start s with
                 | None => if step <? 0 then upper else lower
                 | Some i => clip i
                 end in
    let stop := match sl_stop s with
                | None => if step <? 0 then lower else upper
                | Some i => clip i
                end in
    Ok (start, stop, step).

(** Number of positions a resolved slice selects. *)
Definition slice_length (start stop step : Z) : Z :=
  if step <? 0 then
    if stop <? start then (start - stop - 1) / (- step) + 1 else 0
  else
    if start <? stop then (stop - start - 1) / step + 1 else 0.

(** The positions [start, start + step, ...] a resolved slice selects. *)
Definition slice_positions (start stop step : Z) : list Z :=
  map (fun k => start + Z.of_nat k * step)
      (seq 0 (Z.to_nat (slice_length start stop step))).

Section Sequences.
Context {A : Type}.

(** The elements of [l] at the given in-range positions. *)
Definition select (l : list A) (ks : list Z) : list A :=
  flat_map (fun k => match nth_error l (Z.to_nat k) with
                     | Some x => [x]
                     | None => []
                     end) ks.

(** The [count] elements of [l] from position [start] on; fewer when [l]
    ends before. *)
Definition window (start count : Z) (l : list A) : list A :=
  firstn (Z.to_nat count) (skipn (Z.to_nat start) l).

(** [l[s]] for a one-dimensional array or list. *)
Definition slice_list (s : slice) (l : list A) : result (list A) :=
  let* '(start, stop, step) := slice_indices s (Z.of_nat (length l)) in
  Ok (select l (slice_positions start stop step)).
End Sequences.

(** ** numpy arrays and basic indexing *)

(** [reduce(operator.mul, shape, 1)] *)
Definition prod_shape (shape : list Z) : Z := fold_left Z.mul shape 1.

Record ndarray (A : Type) : Type :=
  mk_ndarray { nd_shape : list Z; nd_flat : list A }.
Arguments mk_ndarray {A} nd_shape nd_flat.
Arguments nd_shape {A} n.
Arguments nd_flat {A} n.

(** One entry of an index expression: an integer, a slice, or an object that
    is neither (it has no [__index__]). *)
Inductive index : Type :=
| IdxInt (i : Z)
| IdxSlice (s : slice)
| IdxOther.

Section Indexing.
Context {A : Type}.

(** The [k]-th block of [m] consecutive elements. *)
Definition block (m : Z) (flat : list A) (k : Z) : list A :=
  window (k * m) m flat.

(** [a[idx]] with [idx] a tuple of integers and slices: an integer selects
    one block along the leading axis and drops the axis, a slice selects
    the blocks at its positions. *)
Fixpoint nd_index (idx : list index) (shape : list Z) (flat : list A)
  : result (ndarray A) :=
  match idx with
  | [] => Ok (mk_ndarray shape flat)
  | i :: idx' =>
      match shape with
      | [] => raise IndexError "too many indices for array"
      | d :: shape' =>
          let m := prod_shape shape' in
          match i with
          | IdxInt k =>
              let k' := if k <? 0 then k + d else k in
              if (0 <=? k') && (k' <? d)
              then nd_index idx' shape' (block m flat k')
              else raise IndexError "index is out of bounds for axis"
          | IdxSlice s =>
              let* '(start, stop, step) := slice_indices s d in
              let ks := slice_positions start stop step in
              let* sub := nd_index idx' shape' (block m flat 0) in
              let* parts :=
                mapM (fun k => nd_index idx' shape' (block m flat k)) ks in
              Ok (mk_ndarray (Z.of_nat (length ks) :: nd_shape sub)
                             (concat (map nd_flat parts)))
          | IdxOther =>
              raise IndexError "only integers and slices are valid indices"
          end
      end
  end.

Definition nd_getitem (idx : list index) (a : ndarray A)
  : result (ndarray A) :=
  nd_index idx (nd_shape a) (nd_flat a).

(** [flat.reshape(shape)] of a one-dimensional array; one entry of [shape]
    may be [-1], the size numpy infers. *)
Definition np_reshape (shape : list Z) (flat : list A)
  : result (ndarray A) :=
  let n := Z.of_nat (length flat) in
  if existsb (fun d => d <? -1) shape
  then raise ValueError "negative dimensions not allowed"
  else
    match count_occ Z.eq_dec shape (-1) with
    | O =>
        if prod_shape shape =? n then Ok (mk_ndarray shape flat)
        else raise ValueError "cannot reshape array"
    | S O =>
        let m := - prod_shape shape in
        if (m =? 0) || negb (n mod m =? 0)
        then raise ValueError "cannot reshape array"
        else Ok (mk_ndarray
                   (map (fun d => if d =? -1 then n / m else d) shape) flat)
    | _ => raise ValueError "can only specify one unknown dimension"
    end.
End Indexing.

(** ** VLBIPayloadBase *)

Section VLBIPayloadBase.
(** The type of a decoded real component (a float32). *)
Context {comp : Type}.

(** An element of the decoded array: a float, or a complex number, which is
    a view on two consecutive floats. *)
Inductive elem : Type :=
| EReal (x : comp)
| EComplex (re im : comp).

(** The array of encoded words: the item size of its dtype in bytes and
    its values. *)
Record word_array : Type :=
  mk_words { itemsize : Z; word_values : list Z }.

(** The class attributes a payload class defines. *)
Record payload_class : Type :=
  mk_payload_class {
      _size : option Z;
      _dtype_word : Z;
      _decoders : Z -> option (list Z -> list comp) }.

Record Payload : Type :=
  mk_payload {
      words : word_array;
      sample_shape : list Z;
      bps : Z;
      complex_data : bool;
      _bpfs : Z;
      _coder : Z }.

(** Size in bytes of payload. *)
Definition size (self : Payload) : Z :=
  Z.of_nat (length (word_values (words self))) * itemsize (words self).

Definition init (cls : payload_class) (words : word_array) (bps : Z)
           (sample_shape : list Z) (complex_data : bool) : result Payload :=
  let self :=
    mk_payload words sample_shape bps complex_data
               (bps * (if complex_data then 2 else 1) *
                prod_shape sample_shape)
               bps in
  if match _size cls with
     | Some sz => negb (sz =? size self)
     | None => false
     end
  then raise ValueError "Encoded data should have length {0}"
  else if negb (itemsize words =? _dtype_word cls)
  then raise ValueError "Encoded data should have dtype {0}"
  else Ok self.

(** Number of samples in the payload. *)
Definition nsample (self : Payload) : result Z :=
  py_floordiv (size self * 8) (_bpfs self).

(** Shape of the decoded data array (nsample, sample_shape). *)
Definition shape (self : Payload) : result (list Z) :=
  let* n := nsample self in
  Ok (n :: sample_shape self).

(** What a payload is indexed with: an integer or a slice, or a tuple of
    them for multi-channel data ([()] is [ItemTuple []]). *)
Inductive item : Type :=
| ItemOne (i : index)
| ItemTuple (l : list index).

Definition msg_unsupported_layout : string :=
  "Do not know how to extract data when full samples have {0} bits and words have {1} bits".

(** The first part of [_item_to_slices] on an item that is not a tuple:
    whether it is a slice, and the [start], [stop], [step] and [n] it
    resolves to. *)
Definition resolve_index (self : Payload) (i : index)
  : result (bool * Z * Z * option Z * Z) :=
  match i with
  | IdxSlice s =>
      let* ns := nsample self in
      let* '(start, stop, step) := slice_indices s ns in
      let n := stop - start in
      Ok (true, start, stop, if step =? 1 then None else Some step, n)
  | IdxInt k =>
      let* k := if k <? 0
                then let* ns := nsample self in Ok (k + ns)
                else Ok k in
      let* ns := nsample self in
      if negb ((0 <=? k) && (k <? ns))
      then raise IndexError "{0} index out of range."
      else Ok (false, k, k + 1, Some 1, 1)
  | IdxOther =>
      raise TypeError "{0} object can only be indexed or sliced."
  end.

(** [_item_to_slices] on an item that is not a tuple. *)
Definition index_to_slices (self : Payload) (i : index)
  : result (slice * index) :=
  let* '(is_slice, start, stop, step, n) := resolve_index self i in
  let* ns := nsample self in
  if n =? ns then
    Ok (slice_all,
        if is_slice : bool then IdxSlice (mk_slice None None step)
        else IdxInt 0)
  else
    let bpw := 8 * itemsize (words self) in
    let bpfs := _bpfs self in
    let* r := py_mod bpfs bpw in
    if r =? 0 then
      (* Each full sample requires one or more encoded words. *)
      let* wpfs := py_floordiv bpfs bpw in
      Ok (mk_slice (Some (start * wpfs)) (Some (stop * wpfs)) None,
          if is_slice then IdxSlice (mk_slice None None step)
          else IdxInt 0)
    else
      let* r := py_mod bpw bpfs in
      if r =? 0 then
        (* Each word contains multiple samples. *)
        let* fspw := py_floordiv bpw bpfs in
        let* '(w_start, o_start) := py_divmod start fspw in
        let* '(w_stop, o_stop) := py_divmod stop fspw in
        Ok (mk_slice (Some w_start)
                     (Some (if o_stop =? 0 then w_stop else w_stop + 1))
                     None,
            if is_slice
            then IdxSlice
                   (mk_slice (if o_start =? 0 then None else Some o_start)
                             (if o_stop =? 0 then None
                              else Some (o_start + n))
                             step)
            else IdxInt o_start)
      else raise TypeError msg_unsupported_layout.

(** Get word and data slices required to obtain given item. *)
Definition _item_to_slices (self : Payload) (it : item)
  : result (slice * list index) :=
  match it with
  | ItemTuple [] => raise IndexError "tuple index out of range"
  | ItemTuple (i0 :: rest) =>
      let* '(word_slice, data_slice) := index_to_slices self i0 in
      Ok (word_slice, data_slice :: rest)
  | ItemOne i =>
      let* '(word_slice, data_slice) := index_to_slices self i in
      Ok (word_slice, [data_slice])
  end.

(** [data.view(dtype)]: the floats themselves, or, for complex data, the
    complex numbers made of consecutive pairs of floats. *)
Fixpoint view_complex (data : list comp) : result (list elem) :=
  match data with
  | [] => Ok []
  | [_] => raise ValueError "the size of the array must be even"
  | re :: im :: data' =>
      let* es := view_complex data' in
      Ok (EComplex re im :: es)
  end.

Definition view (complex_data : bool) (data : list comp)
  : result (list elem) :=
  if complex_data then view_complex data else Ok (map EReal data).

(** [item is () or item == slice(None)] *)
Definition is_whole (it : item) : bool :=
  match it with
  | ItemTuple [] => true
  | ItemOne (IdxSlice s) => slice_eqb s slice_all
  | _ => false
  end.

Definition getitem (cls : payload_class) (self : Payload) (it : item)
  : result (ndarray elem) :=
  let* decoder :=
    match _decoders cls (_coder self) with
    | Some d => Ok d
    | None => raise KeyError "bps"
    end in
  if is_whole it then
    let* data := view (complex_data self)
                      (decoder (word_values (words self))) in
    let* shp := shape self in
    np_reshape shp data
  else
    let* '(words_slice, data_slice) := _item_to_slices self it in
    let* w := slice_list words_slice (word_values (words self)) in
    let* data := view (complex_data self) (decoder w) in
    let* rows := np_reshape (-1 :: sample_shape self) data in
    nd_getitem data_slice rows.
End VLBIPayloadBase.
Arguments elem comp : clear implicits.
Arguments payload_class comp : clear implicits.

(** ** Effects of the stream layer

    A method runs in a world made of the object it mutates and of what it
    emits (warnings, calls of the format's [write]).  An exception leaves
    the world as the code left it when it raised.  [None] is a loop that
    exhausted its iteration budget. *)

Inductive event : Type :=
| EvWarn (msg : string)
| EvWrite (data : ndarray Q) (invalid_data : bool)
| EvClose.

Record world (S : Type) : Type := mk_world { obj : S; events : list event }.
Arguments mk_world {S} obj events.
Arguments obj {S} w.
Arguments events {S} w.

Definition M (S A : Type) : Type := world S -> option (result A * world S).

Definition ret {S A : Type} (a : A) : M S A := fun w => Some (Ok a, w).

Definition throw {S A : Type} (k : exn_kind) (msg : string) : M S A :=
  fun w => Some (raise k msg, w).

Definition bind {S A B : Type} (m : M S A) (f : A -> M S B) : M S B :=
  fun w =>
    match m w with
    | None => None
    | Some (Ok a, w') => f a w'
    | Some (Raise e, w') => Some (Raise e, w')
    end.

Definition lift {S A : Type} (r : result A) : M S A := fun w => Some (r, w).

Definition get {S : Type} : M S S := fun w => Some (Ok (obj w), w).

Definition put {S : Type} (s : S) : M S unit :=
  fun w => Some (Ok tt, mk_world s (events w)).

Definition emit {S : Type} (e : event) : M S unit :=
  fun w => Some (Ok tt, mk_world (obj w) (events w ++ [e])).

(** [warnings.warn(msg)] *)
Definition warn {S : Type} (msg : string) : M S unit := emit (EvWarn msg).

(** [exc.args += (msg,); raise] in an [except Exception as exc] clause. *)
Definition reraise_with {S A : Type} (m : M S A) (msg : string) : M S A :=
  fun w =>
    match m w with
    | Some (Raise e, w') =>
        Some (Raise (mk_exn (exn_kind_of e) (exn_args e ++ [msg])), w')
    | r => r
    end.

Declare Scope M_scope.
Delimit Scope M_scope with M.
Notation "x <- m ;; k" := (bind m (fun x => k))
  (at level 61, m at next level, right associativity) : M_scope.
Notation "m ;;; k" := (bind m (fun _ => k))
  (at level 61, right associativity) : M_scope.

(** ** Floating point

    A numpy [float64], and so the value of a quantity, is an IEEE 754
    binary64 number: a [spec_float] of the standard library, with its
    operations at precision 53 and maximal exponent 1024 (rounding to the
    nearest, a tie to the even mantissa). *)

Definition float64 : Type := spec_float.

Definition f64_mul : float64 -> float64 -> float64 := SFmul 53 1024.
Definition f64_div : float64 -> float64 -> float64 := SFdiv 53 1024.
Definition f64_add : float64 -> float64 -> float64 := SFadd 53 1024.
Definition f64_sub : float64 -> float64 -> float64 := SFsub 53 1024.
Definition f64_eqb : float64 -> float64 -> bool := SFeqb.

(** The float64 nearest to [m * 2 ^ e]. *)
Definition f64_lit (m e : Z) : float64 := binary_normalize 53 1024 m e false.

Definition f64_one : float64 := f64_lit 1 0.

(** [float(n)] for a Python integer [n]. *)
Definition f64_of_int (n : Z) : result float64 :=
  match f64_lit n 0 with
  | S754_infinity _ =>
      raise OverflowError "int too large to convert to float"
  | x => Ok x
  end.

(** [m / d] to the nearest integer, a tie to the even one, for [m] that is
    not negative and a positive [d]. *)
Definition half_even_div (m d : Z) : Z :=
  let q := m / d in
  match 2 * (m mod d) ?= d with
  | Lt => q
  | Gt => q + 1
  | Eq => if Z.even q then q else q + 1
  end.

(** [np.round(x)]: the float64 of the nearest integer, a tie to the even
    one; the sign is kept.  A float64 with an exponent that is not negative
    is an integer. *)
Definition f64_rint (x : float64) : float64 :=
  match x with
  | S754_finite s m e =>
      if e <? 0
      then binary_normalize 53 1024
             (cond_Zopp s (half_even_div (Zpos m) (2 ^ (- e)))) 0 s
      else x
  | _ => x
  end.

(** [int(x)] for a Python float: truncation toward zero. *)
Definition f64_int (x : float64) : result Z :=
  match x with
  | S754_zero _ => Ok 0
  | S754_finite s m e =>
      Ok (cond_Zopp s (if e <? 0 then Zpos m / 2 ^ (- e)
                       else Zpos m * 2 ^ e))
  | S754_infinity _ =>
      raise OverflowError "cannot convert float infinity to integer"
  | S754_nan => raise ValueError "cannot convert float NaN to integer"
  end.

(** ** Units and quantities *)

(** The units of astropy.units that the stream code meets, which are
    powers of the second: a unit is its scale to the unscaled unit of its
    dimension and the power of the second it has ([s] is [1.0, 1], [MHz] is
    [1e6, -1]). *)
Record Unit : Type := mk_unit { unit_scale : float64; unit_power : Z }.

Definition u_one : Unit := mk_unit f64_one 0.
Definition u_s : Unit := mk_unit f64_one 1.
Definition u_Hz : Unit := mk_unit f64_one (-1).
Definition u_MHz : Unit := mk_unit (f64_lit 1000000 0) (-1).

(** The scale of a composed unit: one within four units in the last place
    of 1.0 is taken to be 1.0. *)
Definition sanitize_scale (scale : float64) : float64 :=
  if SFleb (f64_lit (2 ^ 53 - 4) (-53)) scale
     && SFleb scale (f64_lit (2 ^ 52 + 4) (-52))
  then f64_one else scale.

(** The unit of a product and of an inverse. *)
Definition unit_mul (a b : Unit) : Unit :=
  mk_unit (sanitize_scale (f64_mul (unit_scale a) (unit_scale b)))
          (unit_power a + unit_power b).

Definition unit_inv (a : Unit) : Unit :=
  mk_unit (sanitize_scale (f64_div f64_one (unit_scale a)))
          (- unit_power a).

(** The factor that takes values in the unit [a] to values in the unit [b]:
    the ratio of the scales, when the dimensions agree. *)
Definition conversion (a b : Unit) : result float64 :=
  if unit_power a =? unit_power b
  then Ok (f64_div (unit_scale a) (unit_scale b))
  else raise UnitConversionError "units are not convertible".

(** A value times a conversion factor; a factor of 1.0 leaves every float64
    as it is. *)
Definition f64_scale (factor x : float64) : float64 :=
  if f64_eqb factor f64_one then x else f64_mul factor x.

(** A scalar quantity: a float64 value and its unit. *)
Record Quantity : Type := mk_quantity { q_value : float64; q_unit : Unit }.

(** [q.to(unit)] *)
Definition quantity_to (q : Quantity) (unit : Unit) : result Quantity :=
  let* factor := conversion (q_unit q) unit in
  Ok (mk_quantity (f64_scale factor (q_value q)) unit).

(** [a * b] for two quantities. *)
Definition quantity_mul (a b : Quantity) : Quantity :=
  mk_quantity (f64_mul (q_value a) (q_value b))
              (unit_mul (q_unit a) (q_unit b)).

(** [n * unit] for a Python integer [n]. *)
Definition int_mul_unit (n : Z) (unit : Unit) : result Quantity :=
  let* x := f64_of_int n in
  Ok (mk_quantity x unit).

(** [n * q] for a Python integer [n]. *)
Definition int_mul_quantity (n : Z) (q : Quantity) : result Quantity :=
  let* x := f64_of_int n in
  Ok (mk_quantity (f64_mul x (q_value q)) (q_unit q)).

(** [n / q] for a Python integer [n]. *)
Definition int_truediv_quantity (n : Z) (q : Quantity) : result Quantity :=
  let* x := f64_of_int n in
  Ok (mk_quantity (f64_div x (q_value q)) (unit_inv (q_unit q))).

(** [q.round()] *)
Definition quantity_round (q : Quantity) : Quantity :=
  mk_quantity (f64_rint (q_value q)) (q_unit q).

(** [int(q)]: of the dimensionless value. *)
Definition quantity_int (q : Quantity) : result Z :=
  match conversion (q_unit q) u_one with
  | Ok factor => f64_int (f64_scale factor (q_value q))
  | Raise _ =>
      raise TypeError
            "only dimensionless scalar quantities can be converted to Python scalars"
  end.

(** [int(product.to(u.one).round())], for the product
    [x * self.sample_rate]. *)
Definition to_samples (product : Quantity) : result Z :=
  let* one := quantity_to product u_one in
  quantity_int (quantity_round one).

(** ** Times *)

(** Modelled from the spec: the timestamp collaborator and its durations
    (astropy's [Time] and [TimeDelta]).  A time is held as two float64 (the
    parts of a Julian date); its arithmetic belongs to the collaborator and
    is a parameter of the stream code, see [collaborators]. *)
Record Time : Type := mk_time { jd1 : float64; jd2 : float64 }.

Record TimeDelta : Type := mk_timedelta { dt_jd1 : float64; dt_jd2 : float64 }.

(** ** Headers and binary files *)

(** Modelled from the spec: the header collaborator, whose classes live in
    the format modules.  A header gives its frame number, its integer
    second, the sizes in bytes of its payload and of itself, and its
    time. *)
Record Header : Type :=
  mk_header {
      frame_nr : Z;
      seconds : Z;
      payloadsize : Z;
      header_nbytes : Z;
      header_time : Time }.

Definition framesize (h : Header) : Z := header_nbytes h + payloadsize h.

(** Size in bytes of a sequence of frames. *)
Definition total_size (frames : list Header) : Z :=
  fold_right (fun h acc => framesize h + acc) 0 frames.

(** Modelled from the spec: the persisted layout.  A file is a concatenation
    of frames, each a header followed by [payloadsize] bytes of payload; the
    handle has a position in bytes. *)
Record filehandle : Type :=
  mk_fh { fh_frames : list Header; fh_pos : Z; fh_closed : bool }.

(** Modelled from the spec: what parses at a byte position.  A header parses
    where a frame starts; past the last frame the read comes back short;
    inside a frame the bytes do not verify as a header. *)
Fixpoint header_at (frames : list Header) (pos : Z) : result Header :=
  match frames with
  | [] => raise EOFError "could not read full header"
  | h :: rest =>
      if pos =? 0 then Ok h
      else if pos <? framesize h
           then raise AssertionError "header does not verify"
           else header_at rest (pos - framesize h)
  end.

(** [fh.tell()] *)
Definition fh_tell : M filehandle Z :=
  fun w => Some (Ok (fh_pos (obj w)), w).

(** [fh.seek(offset, whence)]: from the start of the file for [whence] 0,
    from the current position for 1, from the end of the file for 2.  A
    position before the start of the file is an error, and the handle stays
    where it was. *)
Definition fh_seek (offset : Z) (whence : Z) : M filehandle Z :=
  fun w =>
    let fh := obj w in
    let target :=
      if whence =? 1 then fh_pos fh + offset
      else if whence =? 2 then total_size (fh_frames fh) + offset
      else offset in
    if target <? 0 then Some (raise OSError "Invalid argument", w)
    else Some (Ok target,
               mk_world (mk_fh (fh_frames fh) target (fh_closed fh))
                        (events w)).

(** [header_template.fromfile(fh)]: on success the position is just after
    the header. *)
Definition Header_fromfile : M filehandle Header :=
  fun w =>
    let fh := obj w in
    match header_at (fh_frames fh) (fh_pos fh) with
    | Ok h =>
        Some (Ok h,
              mk_world (mk_fh (fh_frames fh) (fh_pos fh + header_nbytes h)
                              (fh_closed fh))
                       (events w))
    | Raise e => Some (Raise e, w)
    end.

(** [fh.close()] *)
Definition fh_close (fh : filehandle) : filehandle :=
  mk_fh (fh_frames fh) (fh_pos fh) true.

(** ** What the stream code is given

    The arithmetic of times, which is the units library's, and the
    [find_header] of the format's file reader, which the stream reaches
    through its raw file: [find_header template_header maximum forward]
    searches the raw file from its position and gives a header or [None].
    The stream code is modelled for any of them. *)
Record collaborators : Type :=
  mk_collaborators {
      (* [time + quantity] *)
      time_add : Time -> Quantity -> result Time;
      (* [time - time] *)
      time_sub : Time -> Time -> result TimeDelta;
      (* [timedelta * quantity] *)
      timedelta_mul : TimeDelta -> Quantity -> result Quantity;
      (* [time * quantity] *)
      time_mul : Time -> Quantity -> result Quantity;
      find_header : Header -> Z -> bool -> M filehandle (option Header) }.

(** ** VLBIStreamBase *)

Record Stream : Type :=
  mk_stream {
      fh_raw : filehandle;
      _header0 : Header;
      _sample_shape : list Z;
      _bps : Z;
      _complex_data : bool;
      thread_ids : option (list Z);
      samples_per_frame : Z;
      sample_rate : Quantity;
      offset : Z;
      _squeeze : bool;
      _squeezed_shape : option (list Z);
      (* What the lazy properties [_last_header] and [stop_time] have
         stored, [None] until they have returned once. *)
      cached_last_header : option Header;
      cached_stop_time : option Time }.

Definition set_offset (s : Stream) (n : Z) : Stream :=
  mk_stream (fh_raw s) (_header0 s) (_sample_shape s) (_bps s)
            (_complex_data s) (thread_ids s) (samples_per_frame s)
            (sample_rate s) n (_squeeze s) (_squeezed_shape s)
            (cached_last_header s) (cached_stop_time s).

Definition set_squeezed_shape (s : Stream) (shp : list Z) : Stream :=
  mk_stream (fh_raw s) (_header0 s) (_sample_shape s) (_bps s)
            (_complex_data s) (thread_ids s) (samples_per_frame s)
            (sample_rate s) (offset s) (_squeeze s) (Some shp)
            (cached_last_header s) (cached_stop_time s).

Definition set_fh_raw (s : Stream) (fh : filehandle) : Stream :=
  mk_stream fh (_header0 s) (_sample_shape s) (_bps s)
            (_complex_data s) (thread_ids s) (samples_per_frame s)
            (sample_rate s) (offset s) (_squeeze s) (_squeezed_shape s)
            (cached_last_header s) (cached_stop_time s).

Definition set_cached_last_header (s : Stream) (h : Header) : Stream :=
  mk_stream (fh_raw s) (_header0 s) (_sample_shape s) (_bps s)
            (_complex_data s) (thread_ids s) (samples_per_frame s)
            (sample_rate s) (offset s) (_squeeze s) (_squeezed_shape s)
            (Some h) (cached_stop_time s).

Definition set_cached_stop_time (s : Stream) (t : Time) : Stream :=
  mk_stream (fh_raw s) (_header0 s) (_sample_shape s) (_bps s)
            (_complex_data s) (thread_ids s) (samples_per_frame s)
            (sample_rate s) (offset s) (_squeeze s) (_squeezed_shape s)
            (cached_last_header s) (Some t).

Definition msg_rate_units : string :=
  "sample rate must have units of 1 / time.".

(** The setter of [sample_rate]: the rate has to convert to Hz. *)
Definition set_sample_rate (sample_rate : Quantity) : result Quantity :=
  match quantity_to sample_rate u_Hz with
  | Ok _ => Ok sample_rate
  | Raise exc =>
      Raise (mk_exn (exn_kind_of exc) (exn_args exc ++ [msg_rate_units]))
  end.

(** [VLBIStreamBase.__init__] *)
Definition VLBIStreamBase_init (fh_raw : filehandle) (header0 : Header)
           (sample_shape : list Z) (bps : Z) (complex_data : bool)
           (thread_ids : option (list Z)) (samples_per_frame : Z)
           (sample_rate : Quantity) (squeeze : bool) : result Stream :=
  let* sample_rate := set_sample_rate sample_rate in
  Ok (mk_stream fh_raw header0 sample_shape bps complex_data thread_ids
                samples_per_frame sample_rate 0 squeeze None None None).

(** Shape of a data sample (possibly squeezed).  The squeezed shape is
    computed when none is stored or the stored one is empty. *)
Definition sample_shape_of (s : Stream) : list Z * Stream :=
  if _squeeze s then
    match _squeezed_shape s with
    | Some (d :: shp) => (d :: shp, s)
    | _ =>
        let sqz_dims := filter (fun dim => dim >? 1) (_sample_shape s) in
        (sqz_dims, set_squeezed_shape s sqz_dims)
    end
  else (_sample_shape s, s).

(** [l.insert(i, x)] for a non-negative [i]: past the end it appends. *)
Definition list_insert {A : Type} (l : list A) (i : Z) (x : A) : list A :=
  firstn (Z.to_nat i) l ++ x :: skipn (Z.to_nat i) l.

(** [enumerate(l)] *)
Definition enumerate {A : Type} (l : list A) : list (Z * A) :=
  combine (map Z.of_nat (seq 0 (length l))) l.

(** The shape [_unsqueeze] reshapes to. *)
Definition unsqueezed_shape (sample_shape data_shape : list Z) : list Z :=
  fold_left (fun new_shape '(i, dim) =>
               if dim =? 1 then list_insert new_shape (i + 1) 1
               else new_shape)
            (enumerate sample_shape) data_shape.

Definition _unsqueeze {A : Type} (s : Stream) (data : ndarray A)
  : result (ndarray A) :=
  np_reshape (unsqueezed_shape (_sample_shape s) (nd_shape data))
             (nd_flat data).

(** [_get_time]: the time of a header. *)
Definition _get_time (header : Header) : Time := header_time header.

(** Start time of the file.  (A lazy property; what it stores is the time
    of [_header0], which nothing assigns again.) *)
Definition start_time (s : Stream) : Time := _get_time (_header0 s).

(** What [tell] is asked for: nothing (a sample count), the string ['time'],
    or a unit. *)
Inductive tell_unit : Type :=
| UnitNone
| UnitTime
| UnitOf (unit : Unit).

Inductive tell_result : Type :=
| TellSamples (n : Z)
| TellQuantity (q : Quantity)
| TellTime (t : Time).

(** [(self.offset / self.sample_rate).to(unit)] *)
Definition offset_in (s : Stream) (unit : Unit) : result Quantity :=
  let* q := int_truediv_quantity (offset s) (sample_rate s) in
  quantity_to q unit.

(** Current offset in file. *)
Definition tell (c : collaborators) (s : Stream) (unit : tell_unit)
  : result tell_result :=
  match unit with
  | UnitNone => Ok (TellSamples (offset s))
  | UnitTime =>
      let* q := offset_in s u_s in
      let* t := time_add c (start_time s) q in
      Ok (TellTime t)
  | UnitOf unit =>
      let* q := offset_in s unit in
      Ok (TellQuantity q)
  end.

(** ** VLBIStreamReaderBase *)

Definition msg_not_detected : string :=
  "the sample rate could not be auto-detected. This can happen if the file is too short to determine the sample rate, or because it is corrupted.  Try passing in an explicit `sample_rate`.".

Open Scope M_scope.

Definition msg_time_jump : string :=
  "header time changed by more than 1 second?".

(** First loop of [_get_frame_rate]:
    [while header['frame_nr'] == frame_nr0]. *)
Fixpoint skip_frame_nr0 (fuel : nat) (frame_nr0 : Z) (header : Header)
  : M filehandle Header :=
  if frame_nr header =? frame_nr0 then
    match fuel with
    | O => fun _ => None
    | S fuel' =>
        fh_seek (payloadsize header) 1 ;;;
        header <- Header_fromfile ;;
        skip_frame_nr0 fuel' frame_nr0 header
    end
  else ret header.

(** Second loop of [_get_frame_rate]: [while header['frame_nr'] > 0]. *)
Fixpoint scan_max_frame (fuel : nat) (max_frame : Z) (header : Header)
  : M filehandle (Z * Header) :=
  if frame_nr header >? 0 then
    match fuel with
    | O => fun _ => None
    | S fuel' =>
        let max_frame := Z.max (frame_nr header) max_frame in
        fh_seek (payloadsize header) 1 ;;;
        header <- Header_fromfile ;;
        scan_max_frame fuel' max_frame header
    end
  else ret (max_frame, header).

(** Returns the number of frames per second (in Hz).  Each iteration of a
    loop reads one header, so a loop is given one iteration more than the
    file has frames. *)
Definition _get_frame_rate : M filehandle Z :=
  fuel <- (fun w => Some (Ok (S (length (fh_frames (obj w)))), w)) ;;
  oldpos <- fh_tell ;;
  header <- Header_fromfile ;;
  let frame_nr0 := frame_nr header in
  let sec0 := seconds header in
  header <- skip_frame_nr0 fuel frame_nr0 header ;;
  let max_frame := frame_nr0 in
  r <- scan_max_frame fuel max_frame header ;;
  let '(max_frame, header) := r in
  (if negb (seconds header =? sec0 + 1)
   then warn msg_time_jump
   else ret tt) ;;;
  fh_seek oldpos 0 ;;;
  ret (max_frame + 1).

(** [VLBIStreamReaderBase.__init__]; [sample_rate] is [None] or a rate. *)
Definition VLBIStreamReaderBase_init (header0 : Header)
           (sample_shape : list Z) (bps : Z) (complex_data : bool)
           (thread_ids : option (list Z)) (samples_per_frame : Z)
           (sample_rate : option Quantity) (squeeze : bool)
  : M filehandle Stream :=
  sample_rate <-
    match sample_rate with
    | None =>
        reraise_with
          (frame_rate <- _get_frame_rate ;;
           lift (let* frame_rate := int_mul_unit frame_rate u_Hz in
                 let* rate := int_mul_quantity samples_per_frame
                                               frame_rate in
                 quantity_to rate u_MHz))
          msg_not_detected
    | Some r => ret r
    end ;;
  fh_raw <- get ;;
  lift (VLBIStreamBase_init fh_raw header0 sample_shape bps complex_data
                            thread_ids samples_per_frame sample_rate
                            squeeze).

(** A method of the raw file, run from the stream. *)
Definition on_fh_raw {A : Type} (m : M filehandle A) : M Stream A :=
  fun w =>
    match m (mk_world (fh_raw (obj w)) (events w)) with
    | None => None
    | Some (r, w') =>
        Some (r, mk_world (set_fh_raw (obj w) (obj w')) (events w'))
    end.

Definition msg_no_frame : string :=
  "corrupt VLBI frame? No frame in last {0} bytes.".

(** Last header of the file.  A lazy property: what it returns is stored,
    and returned from then on. *)
Definition _last_header (c : collaborators) : M Stream Header :=
  s <- get ;;
  match cached_last_header s with
  | Some h => ret h
  | None =>
      last_header <-
        on_fh_raw
          (raw_offset <- fh_tell ;;
           fh_seek (- framesize (_header0 s)) 2 ;;;
           last_header <- find_header c (_header0 s)
                                      (10 * framesize (_header0 s)) false ;;
           fh_seek raw_offset 0 ;;;
           match last_header with
           | None => throw ValueError msg_no_frame
           | Some h => ret h
           end) ;;
      s <- get ;;
      put (set_cached_last_header s last_header) ;;;
      ret last_header
  end.

(** Time at the end of the file, just after the last sample.  A lazy
    property as well. *)
Definition stop_time (c : collaborators) : M Stream Time :=
  s <- get ;;
  match cached_stop_time s with
  | Some t => ret t
  | None =>
      last_header <- _last_header c ;;
      s <- get ;;
      t <- lift (let* q := int_truediv_quantity (samples_per_frame s)
                                               (sample_rate s) in
                 let* q := quantity_to q u_s in
                 time_add c (_get_time last_header) q) ;;
      put (set_cached_stop_time s t) ;;;
      ret t
  end.

(** Number of samples in the file. *)
Definition stream_size (c : collaborators) : M Stream Z :=
  stop_time <- stop_time c ;;
  s <- get ;;
  lift (let* dt := time_sub c stop_time (start_time s) in
        let* product := timedelta_mul c dt (sample_rate s) in
        to_samples product).

(** What [seek] is given as offset: an integer number of samples, an offset
    in time units, or an absolute time. *)
Inductive seek_offset : Type :=
| OffsetSamples (n : Z)
| OffsetDuration (d : Quantity)
| OffsetTime (t : Time).

Inductive whence_arg : Type :=
| WhenceInt (w : Z)
| WhenceStr (w : string).

Definition whence_is (whence : whence_arg) (n : Z) (name : string) : bool :=
  match whence with
  | WhenceInt w => w =? n
  | WhenceStr w => String.eqb w name
  end.

Definition msg_whence : string :=
  "invalid 'whence'; should be 0 or 'start', 1 or'current', or 2 or 'end'.".

(** The number of samples and the [whence] that [seek] goes by.  An integer
    is taken as it is.  Otherwise [offset - self.start_time] is tried: it
    gives a time difference for a time, and [whence] is then 0; for a
    quantity it raises, and offset and [whence] stay.  The offset times the
    sample rate is then made a number of samples. *)
Definition seek_target (c : collaborators) (s : Stream)
           (offset' : seek_offset) (whence : whence_arg)
  : result (Z * whence_arg) :=
  match offset' with
  | OffsetSamples n => Ok (n, whence)
  | OffsetDuration d =>
      let* n := to_samples (quantity_mul d (sample_rate s)) in
      Ok (n, whence)
  | OffsetTime t =>
      match time_sub c t (start_time s) with
      | Ok dt =>
          let* product := timedelta_mul c dt (sample_rate s) in
          let* n := to_samples product in
          Ok (n, WhenceInt 0)
      | Raise _ =>
          let* product := time_mul c t (sample_rate s) in
          let* n := to_samples product in
          Ok (n, whence)
      end
  end.

(** Change stream position. *)
Definition seek (c : collaborators) (offset' : seek_offset)
           (whence : whence_arg) : M Stream Z :=
  s <- get ;;
  target <- lift (seek_target c s offset' whence) ;;
  let '(n, whence) := target in
  (if whence_is whence 0 "start" then
     put (set_offset s n)
   else if whence_is whence 1 "current" then
     put (set_offset s (offset s + n))
   else if whence_is whence 2 "end" then
     size <- stream_size c ;;
     s <- get ;;
     put (set_offset s (size + n))
   else
     throw ValueError msg_whence) ;;;
  s <- get ;;
  ret (offset s).

(** ** VLBIStreamWriterBase *)

(** [np.zeros(shape)] *)
Definition np_zeros (shape : list Z) : result (ndarray Q) :=
  if existsb (fun d => d <? 0) shape
  then raise ValueError "negative dimensions are not allowed"
  else Ok (mk_ndarray shape (repeat 0%Q (Z.to_nat (prod_shape shape)))).

Definition msg_partial_buffer : string :=
  "closing with partial buffer remaining.  Writing padded frame, marked as invalid.".

Section VLBIStreamWriterBase.
(** The [write] method of the format's stream writer. *)
Variable write : ndarray Q -> bool -> M Stream unit.

(** [self.write(data, invalid_data=...)] *)
Definition call_write (data : ndarray Q) (invalid_data : bool)
  : M Stream unit :=
  emit (EvWrite data invalid_data) ;;;
  write data invalid_data.

(** [VLBIFileBase.close] *)
Definition VLBIFileBase_close : M Stream unit :=
  s <- get ;;
  put (set_fh_raw s (fh_close (fh_raw s))) ;;;
  emit EvClose.

Definition close : M Stream unit :=
  s <- get ;;
  extra <- lift (py_mod (offset s) (samples_per_frame s)) ;;
  (if negb (extra =? 0) then
     warn msg_partial_buffer ;;;
     shp <- (fun w => let '(shp, s') := sample_shape_of (obj w) in
                      Some (Ok shp, mk_world s' (events w))) ;;
     s <- get ;;
     zeros <- lift (np_zeros ((samples_per_frame s - extra) :: shp)) ;;
     call_write zeros true ;;;
     s <- get ;;
     r <- lift (py_mod (offset s) (samples_per_frame s)) ;;
     if r =? 0 then ret tt else throw AssertionError ""
   else ret tt) ;;;
  VLBIFileBase_close.
End VLBIStreamWriterBase.

(** ** Predicates the statements use *)

(** A slice whose step is 1 (or absent). *)
Definition unit_step (s : slice) : Prop :=
  sl_step s = None \/ sl_step s = Some 1.

(** A decoder that works word by word: each word of [bpw] bits decodes, on
    its own, to the components of [bps] bits it holds. *)
Definition word_wise {comp : Type} (decoder : list Z -> list comp)
           (bps bpw : Z) : Prop :=
  (forall ws1 ws2, decoder (ws1 ++ ws2) = decoder ws1 ++ decoder ws2) /\
  (forall w, Z.of_nat (length (decoder [w])) * bps = bpw).

(** The layouts [_item_to_slices] can address: a full sample takes whole
    words, or a word holds whole full samples. *)
Definition supported_layout (p : Payload) : bool :=
  let bpw := 8 * itemsize (words p) in
  (_bpfs p mod bpw =? 0) || (bpw mod _bpfs p =? 0).

(** The number of components of [bps] bits a word of [bpw] bits holds. *)
Definition per_word (bps bpw : Z) : Z := bpw / bps.

(** The number of floats an element of the decoded array is a view on. *)
Definition floats_per_elem (complex_data : bool) : Z :=
  if complex_data then 2 else 1.

(** How a start or stop of a slice without step resolves on a sequence of
    length [len]. *)
Definition clip_index (len i : Z) : Z :=
  if i <? 0 then Z.max (i + len) 0 else Z.min i len.

(** A slice that resolves to all the samples of the payload. *)
Definition covers_payload (p : Payload) (sl : slice) : Prop :=
  exists ns, nsample p = Ok ns /\ slice_indices sl ns = Ok (0, ns, 1).

(** The squeezed shape a stream stores, if any, is the squeezed form of its
    sample shape. *)
Definition squeezed_shape_ok (s : Stream) : Prop :=
  match _squeezed_shape s with
  | None => True
  | Some shp => shp = filter (fun dim => dim >? 1) (_sample_shape s)
  end.

(** The rational number a float64 stands for; an infinity or a NaN stands
    for none, and is given 0. *)
Definition f64_to_Q (x : float64) : Q :=
  match x with
  | S754_finite s m e =>
      if e <? 0 then cond_Zopp s (Zpos m) # Z.to_pos (2 ^ (- e))
      else inject_Z (cond_Zopp s (Zpos m) * 2 ^ e)
  | _ => 0%Q
  end.

Definition f64_is_finite (x : float64) : bool :=
  match x with
  | S754_zero _ | S754_finite _ _ _ => true
  | _ => false
  end.

(** A mantissa of at most 53 bits, as every float64 has. *)
Definition mantissa_fits (x : float64) : Prop :=
  match x with
  | S754_finite _ m _ => Zpos m < 2 ^ 53
  | _ => True
  end.

(** The integer nearest to a rational number, a tie going to the even
    one. *)
Definition round_half_even (x : Q) : Z :=
  let f := Qfloor x in
  match Qcompare (x - inject_Z f)%Q (1 # 2)%Q with
  | Lt => f
  | Gt => f + 1
  | Eq => if Z.even f then f else f + 1
  end.

(** Two streams that differ at most by their raw file and by what their
    lazy properties have stored. *)
Definition same_but_file_and_cache (s s' : Stream) : Prop :=
  s' = mk_stream (fh_raw s') (_header0 s) (_sample_shape s) (_bps s)
                 (_complex_data s) (thread_ids s) (samples_per_frame s)
                 (sample_rate s) (offset s) (_squeeze s) (_squeezed_shape s)
                 (cached_last_header s') (cached_stop_time s').

(** ** The frames a detector reads *)

(** Headers have a positive size and payloads a size that is not
    negative. *)
Definition wf_frames (frames : list Header) : Prop :=
  Forall (fun h => 0 < header_nbytes h /\ 0 <= payloadsize h) frames.

Section While.
Context {A : Type}.
Variable keep : A -> bool.

Fixpoint take_while (l : list A) : list A :=
  match l with
  | [] => []
  | x :: l' => if keep x then x :: take_while l' else []
  end.

Fixpoint drop_while (l : list A) : list A :=
  match l with
  | [] => []
  | x :: l' => if keep x then drop_while l' else l
  end.
End While.

(** The world of a handle on [frames] that has just read the header [h] of
    the frame after the frames [pre]. *)
Definition fh_after (frames : list Header) (closed : bool)
           (evs : list event) (pre : list Header) (h : Header)
  : world filehandle :=
  mk_world (mk_fh frames (total_size pre + header_nbytes h) closed) evs.

(** The world of a handle on [frames] at the position [pos]. *)
Definition fh_at (frames : list Header) (closed : bool)
           (evs : list event) (pos : Z) : world filehandle :=
  mk_world (mk_fh frames pos closed) evs.

Definition eof_error : exn :=
  mk_exn EOFError ["could not read full header"%string].

(** What a scan of the frames [fs] from the position of the detector comes
    to: the file ends before a frame number that is not positive follows
    the frames numbered as the first, or the scan gives a rate and stops at
    a header. *)
Inductive scan_outcome : Type :=
| ScanEOF
| ScanRate (rate : Z) (stopped_at : Header).

Definition scan_frames (fs : list Header) : scan_outcome :=
  match fs with
  | [] => ScanEOF
  | h0 :: _ =>
      let fs1 := drop_while (fun h => frame_nr h =? frame_nr h0) fs in
      match drop_while (fun h => frame_nr h >? 0) fs1 with
      | [] => ScanEOF
      | h2 :: _ =>
          ScanRate
            (fold_left (fun m h => Z.max (frame_nr h) m)
                       (take_while (fun h => frame_nr h >? 0) fs1)
                       (frame_nr h0) + 1)
            h2
      end
  end.

(** The frame numbers of a sequence of headers. *)
Definition frame_numbers (fs : list Header) : list Z := map frame_nr fs.

(** The frames following the position of the detector end before the frame
    number is back to zero: after the frames numbered as the first, every
    frame number is positive. *)
Definition ends_before_wrap (fs : list Header) : Prop :=
  match fs with
  | [] => True
  | h0 :: _ =>
      Forall (fun h => 0 < frame_nr h)
             (drop_while (fun h => frame_nr h =? frame_nr h0) fs)
  end.

(** ** A payload class to run the code on *)

Module Examples.
(** A decoder in the manner of the formats' own: every word gives its
    [32 / bps] fields of [bps] bits, lowest bits first (the formats then
    map each field through a table of levels). *)
Definition unpack (bps : Z) (ws : list Z) : list Z :=
  flat_map (fun w =>
              map (fun k => Z.land (Z.shiftr w (bps * Z.of_nat k))
                                   (2 ^ bps - 1))
                  (seq 0 (Z.to_nat (32 / bps)))) ws.

Definition example_class : payload_class Z :=
  mk_payload_class
    None 4
    (fun bps => if (bps =? 1) || (bps =? 2) || (bps =? 4) || (bps =? 8)
                then Some (unpack bps) else None).

Definition words5 : word_array :=
  mk_words 4 [305419896; 2271560481; 19088743; 4275878552; 11].

Definition words6 : word_array := mk_words 4 [1; 2; 3; 4; 5; 6].

(** 80 real samples of 2 bits: a word holds 16 full samples. *)
Definition payload_2bit : Payload := mk_payload words5 [] 2 false 2 2.

(** 8 samples of 5 channels of 4 bits: a full sample has 20 bits. *)
Definition payload_20bit : Payload := mk_payload words5 [5] 4 false 20 4.

(** 3 complex samples of 4 x 2 channels of 4 bits: a full sample takes
    two words. *)
Definition payload_64bit : Payload :=
  mk_payload words6 [4; 2] 4 true 64 4.

Definition slice_of (a b : Z) : item :=
  ItemOne (IdxSlice (mk_slice (Some a) (Some b) None)).

(** A [write] that only counts the samples it is given. *)
Definition counting_write (data : ndarray Q) (invalid_data : bool)
  : M Stream unit :=
  (s <- get ;;
   put (set_offset s (offset s + hd 0 (nd_shape data))))%M.

(** The time of second [seconds] and frame [frame_nr] of four in a
    second, as days and a fraction of a day. *)
Definition header_of (frame_nr seconds : Z) : Header :=
  mk_header frame_nr seconds 8000 32
            (mk_time (f64_div (f64_lit seconds 0) (f64_lit 86400 0))
                     (f64_div (f64_lit frame_nr 0) (f64_lit 345600 0))).

(** A file of two seconds at four frames per second, less its last
    frame. *)
Definition file7 : filehandle :=
  mk_fh [header_of 0 100; header_of 1 100; header_of 2 100;
         header_of 3 100; header_of 0 101; header_of 1 101;
         header_of 2 101] 0 false.

(** A file of exactly one second at four frames per second. *)
Definition file4 : filehandle :=
  mk_fh [header_of 0 100; header_of 1 100; header_of 2 100;
         header_of 3 100] 0 false.

(** A file of three frames, which ends within its first second. *)
Definition file3 : filehandle :=
  mk_fh [header_of 0 100; header_of 1 100; header_of 2 100] 0 false.

(** A rate of 32 Hz. *)
Definition rate32 : Quantity := mk_quantity (f64_lit 32 0) u_Hz.

(** 0.7 s, and a reader at 5 samples a second, 3 samples in. *)
Definition seconds07 : Quantity :=
  mk_quantity (f64_div (f64_lit 7 0) (f64_lit 10 0)) u_s.

Definition reader_5Hz : Stream :=
  mk_stream file7 (header_of 0 100) [1] 2 false None 8
            (mk_quantity (f64_lit 5 0) u_Hz) 3 true None None None.

(** A writer of frames of 8 samples of 2 x 1 channels, as its constructor
    leaves it but 5 samples in. *)
Definition writer5 : Stream :=
  mk_stream (mk_fh [] 0 false) (header_of 0 100) [2; 1] 2 false None 8
            rate32 5 true None None None.

(** A [write] that counts the samples it is given, when their shape is
    the sample shape of the stream, and raises otherwise. *)
Definition checking_write (data : ndarray Q) (invalid_data : bool)
  : M Stream unit :=
  (s <- get ;;
   if list_eq_dec Z.eq_dec (tl (nd_shape data))
                  (filter (fun dim => dim >? 1) (_sample_shape s))
   then put (set_offset s (offset s + hd 0 (nd_shape data)))
   else throw ValueError "cannot reshape array")%M.

(** An arithmetic of times to run the code on: a time is the sum of its
    two parts, in days, and the arithmetic is that of float64. *)
Definition u_day : Unit := mk_unit (f64_lit 86400 0) 1.

Definition example_time_add (t : Time) (q : Quantity) : result Time :=
  let* days := quantity_to q u_day in
  Ok (mk_time (jd1 t) (f64_add (jd2 t) (q_value days))).

Definition example_time_sub (t1 t2 : Time) : result TimeDelta :=
  Ok (mk_timedelta (f64_sub (jd1 t1) (jd1 t2))
                   (f64_sub (jd2 t1) (jd2 t2))).

Definition example_timedelta_mul (dt : TimeDelta) (q : Quantity)
  : result Quantity :=
  Ok (quantity_mul (mk_quantity (f64_add (dt_jd1 dt) (dt_jd2 dt)) u_day)
                   q).

Definition example_time_mul (t : Time) (q : Quantity) : result Quantity :=
  raise TypeError "unsupported operand type(s) for *: 'Time' and 'Quantity'".

(** A [find_header] that finds the header of the last frame of the file,
    if the file has a frame. *)
Definition example_find_header (template_header : Header) (maximum : Z)
           (forward : bool) : M filehandle (option Header) :=
  fun w =>
    match rev (fh_frames (obj w)) with
    | [] => Some (Ok None, w)
    | h :: _ => Some (Ok (Some h), w)
    end.

Definition example_collaborators : collaborators :=
  mk_collaborators example_time_add example_time_sub
                   example_timedelta_mul example_time_mul
                   example_find_header.
End Examples.

(** ** Reading and writing a payload *)

(** Modelled from the spec: the file I/O primitives.  A binary file is the
    list of its bytes and a position, which may lie past the end. *)
Record binfile : Type := mk_binfile { bf_bytes : list Z; bf_pos : Z }.

(** [fh.read(n)]: the bytes from the position on, at most [n] of them when
    [n] is not negative; the position moves past what was read. *)
Definition bf_read (n : Z) : M binfile (list Z) :=
  fun w =>
    let fh := obj w in
    let rest := skipn (Z.to_nat (bf_pos fh)) (bf_bytes fh) in
    let s := if n <? 0 then rest else firstn (Z.to_nat n) rest in
    Some (Ok s,
          mk_world (mk_binfile (bf_bytes fh)
                               (bf_pos fh + Z.of_nat (length s)))
                   (events w)).

(** [fh.write(s)]: the bytes go over those at the position and extend the
    file; a gap before the position is filled with zeros.  The result is
    the number of bytes written. *)
Definition bf_write (s : list Z) : M binfile Z :=
  fun w =>
    let fh := obj w in
    let old := bf_bytes fh in
    let p := Z.to_nat (bf_pos fh) in
    let before := firstn p old ++ repeat 0 (p - length old) in
    Some (Ok (Z.of_nat (length s)),
          mk_world (mk_binfile (before ++ s ++ skipn (p + length s) old)
                               (bf_pos fh + Z.of_nat (length s)))
                   (events w)).

(** [fh.seek(pos)] *)
Definition bf_seek (pos : Z) : M binfile Z :=
  fun w =>
    if pos <? 0 then Some (raise OSError "Invalid argument", w)
    else Some (Ok pos,
               mk_world (mk_binfile (bf_bytes (obj w)) pos) (events w)).

(** The [n] bytes of an unsigned word, least significant first, which is
    how the dtype of the words, ['<u4'] or one of another item size, lays
    it out. *)
Fixpoint le_bytes (n : nat) (w : Z) : list Z :=
  match n with
  | O => []
  | S n' => w mod 256 :: le_bytes n' (w / 256)
  end.

Fixpoint le_value (bs : list Z) : Z :=
  match bs with
  | [] => 0
  | b :: bs' => b + 256 * le_value bs'
  end.

(** [words.tostring()] *)
Definition tostring (ws : word_array) : list Z :=
  flat_map (le_bytes (Z.to_nat (itemsize ws))) (word_values ws).

(** The first [count] words of [k] bytes of a buffer. *)
Fixpoint buffer_words (count k : nat) (s : list Z) : list Z :=
  match count with
  | O => []
  | S count' => le_value (firstn k s) :: buffer_words count' k (skipn k s)
  end.

(** [np.frombuffer(s, dtype)] for the dtype of unsigned words of the given
    item size. *)
Definition np_frombuffer (s : list Z) (itemsize : Z) : result word_array :=
  let n := Z.of_nat (length s) in
  if itemsize <=? 0
  then raise ValueError "itemsize cannot be zero in type"
  else if negb (n mod itemsize =? 0)
  then raise ValueError "buffer size must be a multiple of element size"
  else Ok (mk_words itemsize
                    (buffer_words (Z.to_nat (n / itemsize))
                                  (Z.to_nat itemsize) s)).

(** Read payload from file handle and decode it into data.  [payloadsize]
    is the keyword argument, if given; the other arguments are those of the
    class initialiser. *)
Definition fromfile {comp : Type} (cls : payload_class comp)
           (payloadsize : option Z) (bps : Z) (sample_shape : list Z)
           (complex_data : bool) : M binfile Payload :=
  let payloadsize :=
    match payloadsize with
    | Some n => Some n
    | None => _size cls
    end in
  match payloadsize with
  | None =>
      throw ValueError
            "Payloadsize should be given as an argument if no default is defined on the class."
  | Some payloadsize =>
      s <- bf_read payloadsize ;;
      if Z.of_nat (length s) <? payloadsize
      then throw EOFError "Could not read full payload."
      else
        words <- lift (np_frombuffer s (_dtype_word cls)) ;;
        lift (init cls words bps sample_shape complex_data)
  end.

(** The size [fromfile] reads: the keyword argument or the default of the
    class. *)
Definition size_to_read {comp : Type} (cls : payload_class comp)
           (payloadsize : option Z) : option Z :=
  match payloadsize with
  | Some n => Some n
  | None => _size cls
  end.

(** Write VLBI payload to filehandle. *)
Definition tofile (self : Payload) : M binfile Z :=
  bf_write (tostring (words self)).

(** ** VLBIFileBase as a context manager *)

Section WithStatement.
Context {S A : Type}.

End WithStatement.

(** Time of the sample pointer's current offset in file. *)
Definition time (c : collaborators) (s : Stream) : result tell_result :=
  tell c s UnitTime.

(** ** make_opener *)

(** [c in mode] on strings *)
Definition contains (c mode : string) : bool :=
  match String.index 0 c mode with
  | Some _ => true
  | None => false
  end.

(** What [open] is given as [name]: a file name or a file handle. *)
Inductive file_arg : Type :=
| FileName (path : string)
| FileHandle (fh : filehandle).

Section Opener.
Variables Obj KW : Type.

(** Modelled from the spec: [io.open(name, mode)], which gives a handle or
    raises. *)
Variable io_open : string -> string -> result filehandle.

(** The classes of the format, by their names less the format's; a class
    is called with the handle, which is the state it runs on, and the
    keyword arguments. *)
Variable classes : string -> list (string * KW) -> M filehandle Obj.

(** [classes[cls_type](name, **kwargs)] in its [try] block: on an
    exception a handle that [open] itself opened is closed. *)
Definition construct (cls_type : string) (got_fh : bool) (fh : filehandle)
           (kwargs : list (string * KW)) (evs : list event)
  : option (result Obj * world file_arg) :=
  match classes cls_type kwargs (mk_world fh evs) with
  | None => None
  | Some (Ok o, w) => Some (Ok o, mk_world (FileHandle (obj w)) (events w))
  | Some (Raise exc, w) =>
      let fh' := if got_fh then obj w else fh_close (obj w) in
      Some (Raise exc, mk_world (FileHandle fh') (events w))
  end.

(** The function [make_opener] returns.  The world is what [name] is bound
    to, a name still or a handle and its state, and the events. *)
Definition open (name : file_arg) (mode : string)
           (kwargs : list (string * KW)) (evs : list event)
  : option (result Obj * world file_arg) :=
  let binary := contains "b" mode in
  if binary && negb (match kwargs with [] => true | _ => false end)
  then Some (raise TypeError "got unexpected arguments {}",
             mk_world name evs)
  else
    let cls_type := (if binary then "File" else "Stream")%string in
    let acquire (io_mode cls_type : string) :=
      (* got_fh = hasattr(name, 'write'), or 'read' *)
      match name with
      | FileHandle fh => construct cls_type true fh kwargs evs
      | FileName path =>
          match io_open path io_mode with
          | Ok fh => construct cls_type false fh kwargs evs
          | Raise exc => Some (Raise exc, mk_world name evs)
          end
      end in
    if contains "w" mode then acquire "w+b"%string (cls_type ++ "Writer")%string
    else if contains "r" mode then acquire "rb"%string (cls_type ++ "Reader")%string
    else Some (raise ValueError
                     "only support opening {0} file for reading or writing (mode='r' or 'w').",
               mk_world name evs).
End Opener.

(** A [write] that does not open or close the raw file. *)
Definition keeps_file_open_or_closed
           (write : ndarray Q -> bool -> M Stream unit) : Prop :=
  forall data invalid_data w r w',
    write data invalid_data w = Some (r, w') ->
    fh_closed (fh_raw (obj w')) = fh_closed (fh_raw (obj w)).

(** ** Files and classes to run the code on *)

Module IOExamples.
(** A class whose payloads have 8 bytes. *)
Definition fixed_class : payload_class Z :=
  mk_payload_class
    (Some 8) 4
    (fun bps => if bps =? 2 then Some (Examples.unpack 2) else None).

Definition words2 : word_array := mk_words 4 [305419896; 2271560481].

Definition payload_fixed : Payload := mk_payload words2 [] 2 false 2 2.

(** A file of ten bytes, two of them read. *)
Definition file10 : binfile := mk_binfile [1; 2; 3; 4; 5; 6; 7; 8; 9; 10] 2.

(** A file system in which every name opens the file of three frames. *)
Definition one_file (path mode : string) : result filehandle :=
  Ok Examples.file3.

(** Classes that all build a stream reader that detects its sample
    rate. *)
Definition reader_classes (cls_type : string) (kwargs : list (string * Z))
  : M filehandle Stream :=
  VLBIStreamReaderBase_init (Examples.header_of 0 100) [1] 2 false None
                            20000 None true.

(** A reader of the file of seven frames of 8 samples, at 32 samples per
    second. *)
Definition reader7 : Stream :=
  mk_stream Examples.file7 (Examples.header_of 0 100) [1] 2 false None 8
            Examples.rate32 0 true None None None.


(** A [write] that fails. *)
Definition failing_write (data : ndarray Q) (invalid_data : bool)
  : M Stream unit :=
  throw OSError "No space left on device".
End IOExamples.

(** * Properties *)

(** * Lists, slices and windows *)

Section WindowFacts.
Context {A : Type}.
Implicit Types l : list A.

Lemma window_nil start count : window start count (@nil A) = [].
Proof. unfold window. now rewrite skipn_nil, firstn_nil. Qed.

Lemma window_length start count l :
  0 <= start -> 0 <= count -> start + count <= Z.of_nat (length l) ->
  Z.of_nat (length (window start count l)) = count.
Proof.
  intros. unfold window. rewrite length_firstn, length_skipn. lia.
Qed.

Lemma window_all l : window 0 (Z.of_nat (length l)) l = l.
Proof.
  unfold window. simpl. rewrite Nat2Z.id. apply firstn_all.
Qed.

Lemma window_empty start count l : count <= 0 -> window start count l = [].
Proof.
  intros. unfold window. replace (Z.to_nat count) with O by lia. reflexivity.
Qed.

Lemma window_past start count l :
  Z.of_nat (length l) <= start -> window start count l = [].
Proof.
  intros. unfold window. rewrite skipn_all2 by lia. apply firstn_nil.
Qed.

(** A window of a window is a window. *)
Lemma window_window s1 n1 s2 n2 l :
  0 <= s1 -> 0 <= s2 ->
  window s2 n2 (window s1 n1 l) = window (s1 + s2) (Z.min n2 (n1 - s2)) l.
Proof.
  intros. unfold window.
  rewrite skipn_firstn_comm, firstn_firstn, skipn_skipn.
  f_equal; [lia|]. f_equal. lia.
Qed.

(** Consecutive windows concatenate. *)
Lemma window_app s n1 n2 l :
  0 <= s -> 0 <= n1 -> 0 <= n2 ->
  window s n1 l ++ window (s + n1) n2 l = window s (n1 + n2) l.
Proof.
  intros. unfold window.
  replace (Z.to_nat (s + n1)) with (Z.to_nat n1 + Z.to_nat s)%nat by lia.
  rewrite <- skipn_skipn.
  replace (Z.to_nat (n1 + n2)) with (Z.to_nat n1 + Z.to_nat n2)%nat by lia.
  generalize (skipn (Z.to_nat s) l) as t. generalize (Z.to_nat n1) as k.
  induction k as [|k IH]; intros t; simpl; [reflexivity|].
  destruct t as [|x t]; simpl.
  - now rewrite firstn_nil.
  - now rewrite IH.
Qed.

(** The elements at consecutive positions are a window. *)
Lemma select_consecutive l (count : nat) start :
  0 <= start ->
  select l (map (fun k => start + Z.of_nat k * 1) (seq 0 count))
  = window start (Z.of_nat count) l.
Proof.
  revert start. induction count as [|count IH]; intros start Hs.
  - reflexivity.
  - rewrite <- cons_seq, <- seq_shift. cbn [map]. rewrite map_map.
    unfold select at 1. cbn [flat_map].
    fold (select l (map (fun k => start + Z.of_nat (S k) * 1) (seq 0 count))).
    rewrite (map_ext _ (fun k => (start + 1) + Z.of_nat k * 1)) by (intros; lia).
    rewrite IH by lia.
    replace (start + Z.of_nat 0 * 1) with start by lia.
    replace (Z.of_nat (S count)) with (1 + Z.of_nat count) by lia.
    rewrite <- (window_app start 1 (Z.of_nat count)) by lia.
    f_equal. unfold window. change (Z.to_nat 1) with 1%nat.
    generalize (Z.to_nat start) as k. clear. intros k. revert l.
    induction k as [|k IH]; intros [|x l]; simpl; auto.
Qed.
End WindowFacts.

Lemma slice_indices_unit_step s len :
  unit_step s -> 0 <= len ->
  exists start stop,
    slice_indices s len = Ok (start, stop, 1) /\
    0 <= start <= len /\ 0 <= stop <= len.
Proof.
  intros Hs Hlen. unfold slice_indices.
  assert (Hstep : match sl_step s with None => 1 | Some k => k end = 1)
    by (destruct Hs as [-> | ->]; reflexivity).
  rewrite Hstep. cbn [Z.eqb Z.ltb Z.compare].
  destruct (len <? 0) eqn:E; [lia|].
  eexists _, _; split; [reflexivity|].
  destruct (sl_start s) as [a|], (sl_stop s) as [b|];
    repeat match goal with
           | |- context [?x <? 0] => destruct (Z.ltb_spec x 0)
           end; lia.
Qed.

Lemma slice_positions_unit start stop :
  slice_positions start stop 1
  = map (fun k => start + Z.of_nat k * 1)
        (seq 0 (Z.to_nat (Z.max 0 (stop - start)))).
Proof.
  unfold slice_positions, slice_length. cbn [Z.ltb Z.compare].
  destruct (Z.ltb_spec start stop).
  - rewrite Z.div_1_r.
    now replace (stop - start - 1 + 1) with (Z.max 0 (stop - start)) by lia.
  - now replace (Z.max 0 (stop - start)) with 0 by lia.
Qed.

Lemma slice_positions_unit_length start stop :
  Z.of_nat (length (slice_positions start stop 1)) = Z.max 0 (stop - start).
Proof.
  rewrite slice_positions_unit, length_map, length_seq. lia.
Qed.

Lemma select_unit_step {A : Type} (l : list A) start stop :
  0 <= start ->
  select l (slice_positions start stop 1) = window start (stop - start) l.
Proof.
  intros. rewrite slice_positions_unit, select_consecutive by assumption.
  unfold window. f_equal. lia.
Qed.

Lemma slice_list_unit_step {A : Type} (s : slice) (l : list A) start stop :
  slice_indices s (Z.of_nat (length l)) = Ok (start, stop, 1) ->
  0 <= start ->
  slice_list s l = Ok (window start (stop - start) l).
Proof.
  intros H Hs. unfold slice_list. rewrite H. cbn.
  now rewrite select_unit_step.
Qed.

Lemma mapM_Ok {A B : Type} (g : A -> B) (l : list A) :
  mapM (fun x => Ok (g x)) l = Ok (map g l).
Proof.
  induction l as [|x l IH]; cbn; [reflexivity|]. now rewrite IH.
Qed.

Lemma prod_shape_cons d shape : prod_shape (d :: shape) = d * prod_shape shape.
Proof.
  unfold prod_shape. cbn [fold_left].
  replace (1 * d) with (d * 1) by lia.
  generalize 1 as acc. revert d.
  induction shape as [|x shape IH]; intros d acc; cbn [fold_left]; [reflexivity|].
  rewrite !IH. lia.
Qed.

Lemma prod_shape_pos shape :
  Forall (fun d => 0 < d) shape -> 0 < prod_shape shape.
Proof.
  induction 1 as [|d shape Hd _ IH]; [reflexivity|].
  rewrite prod_shape_cons. lia.
Qed.

(** Consecutive blocks concatenate to a window. *)
Lemma concat_blocks {A : Type} (flat : list A) m (count : nat) start :
  0 <= start -> 0 <= m ->
  concat (map (fun k => block m flat (start + Z.of_nat k * 1)) (seq 0 count))
  = window (start * m) (Z.of_nat count * m) flat.
Proof.
  intros Hs Hm. revert start Hs.
  induction count as [|count IH]; intros start Hs.
  - reflexivity.
  - rewrite <- cons_seq, <- seq_shift. cbn [map concat]. rewrite map_map.
    rewrite (map_ext _ (fun k => block m flat ((start + 1) + Z.of_nat k * 1)))
      by (intros; f_equal; lia).
    rewrite IH by lia. unfold block.
    replace (start + Z.of_nat 0 * 1) with start by lia.
    replace ((start + 1) * m) with (start * m + m) by lia.
    rewrite window_app by nia. f_equal. lia.
Qed.

(** Indexing the leading axis with a slice of step 1. *)
Lemma nd_index_unit_slice {A : Type} (s : slice) d shape (flat : list A)
      start stop :
  slice_indices s d = Ok (start, stop, 1) ->
  0 <= start -> 0 <= prod_shape shape ->
  nd_index [IdxSlice s] (d :: shape) flat
  = Ok (mk_ndarray (Z.max 0 (stop - start) :: shape)
                   (window (start * prod_shape shape)
                           (Z.max 0 (stop - start) * prod_shape shape) flat)).
Proof.
  intros H Hs Hm. cbn [nd_index]. rewrite H. cbn [rbind].
  rewrite (mapM_Ok (fun k => mk_ndarray shape (block (prod_shape shape) flat k))).
  cbn [rbind nd_shape]. rewrite map_map. cbn [nd_flat].
  rewrite slice_positions_unit_length.
  rewrite slice_positions_unit, map_map.
  rewrite (concat_blocks flat (prod_shape shape)) by assumption.
  do 3 f_equal. lia.
Qed.

Lemma window_app_middle {A : Type} (x y z : list A) :
  window (Z.of_nat (length x)) (Z.of_nat (length y)) (x ++ y ++ z) = y.
Proof.
  unfold window. rewrite !Nat2Z.id.
  rewrite skipn_app, skipn_all, Nat.sub_diag. cbn [skipn app].
  rewrite firstn_app, firstn_all, Nat.sub_diag. cbn [firstn]. apply app_nil_r.
Qed.

Lemma window_split {A : Type} (l : list A) s n :
  0 <= s -> 0 <= n -> s + n <= Z.of_nat (length l) ->
  l = firstn (Z.to_nat s) l ++ window s n l ++ skipn (Z.to_nat (s + n)) l.
Proof.
  intros. unfold window.
  replace (Z.to_nat (s + n)) with (Z.to_nat n + Z.to_nat s)%nat by lia.
  rewrite <- skipn_skipn. now rewrite !firstn_skipn.
Qed.

(** * Decoders that work word by word *)

Section WordWise.
Context {comp : Type}.
Variable decoder : list Z -> list comp.
Variables bps bpw : Z.
Hypothesis Hdec : word_wise decoder bps bpw.
Hypothesis Hbps : 0 < bps.

Local Abbreviation cpw := (per_word bps bpw).

Lemma per_word_bits : cpw * bps = bpw.
Proof.
  unfold per_word. destruct Hdec as [_ Hlen].
  specialize (Hlen 0). rewrite <- Hlen. rewrite Z.div_mul by lia. reflexivity.
Qed.

Lemma per_word_nonneg : 0 <= cpw.
Proof.
  unfold per_word. destruct Hdec as [_ Hlen].
  specialize (Hlen 0). rewrite <- Hlen. rewrite Z.div_mul by lia. lia.
Qed.

Lemma decoder_word_length w : Z.of_nat (length (decoder [w])) = cpw.
Proof.
  destruct Hdec as [_ Hlen]. specialize (Hlen w).
  pose proof per_word_bits. nia.
Qed.

Lemma decoder_nil : decoder [] = [].
Proof.
  destruct Hdec as [Happ _]. specialize (Happ [] []).
  apply (f_equal (@length comp)) in Happ. rewrite length_app in Happ.
  cbn [app] in Happ. destruct (decoder []); [reflexivity | cbn in Happ; lia].
Qed.

Lemma decoder_length ws :
  Z.of_nat (length (decoder ws)) = Z.of_nat (length ws) * cpw.
Proof.
  induction ws as [|w ws IH].
  - now rewrite decoder_nil.
  - destruct Hdec as [Happ _]. change (w :: ws) with ([w] ++ ws).
    rewrite Happ, length_app, Nat2Z.inj_add, IH, decoder_word_length.
    cbn [length app]. lia.
Qed.

(** Decoding a window of the words gives the window of the decoded
    components that these words hold. *)
Lemma decoder_window ws s n :
  0 <= s -> 0 <= n -> s + n <= Z.of_nat (length ws) ->
  decoder (window s n ws) = window (s * cpw) (n * cpw) (decoder ws).
Proof.
  intros Hs Hn Hle. destruct Hdec as [Happ _].
  rewrite (window_split ws s n) at 2 by assumption.
  rewrite !Happ.
  replace (s * cpw)
    with (Z.of_nat (length (decoder (firstn (Z.to_nat s) ws)))).
  2:{ rewrite decoder_length, length_firstn. f_equal. lia. }
  replace (n * cpw) with (Z.of_nat (length (decoder (window s n ws)))).
  2:{ rewrite decoder_length, window_length by assumption. reflexivity. }
  now rewrite window_app_middle.
Qed.
End WordWise.

(** * Views and reshapes *)

Section Views.
Context {comp : Type}.
Implicit Types (data : list comp) (es : list (elem comp)).

Lemma view_complex_length data es :
  view_complex data = Ok es ->
  Z.of_nat (length data) = 2 * Z.of_nat (length es).
Proof.
  revert data. induction es as [|e es IH]; intros data H.
  - destruct data as [|re [|im data]]; cbn in H; try discriminate; [reflexivity|].
    destruct (view_complex data); discriminate.
  - destruct data as [|re [|im data]]; cbn in H; try discriminate.
    destruct (view_complex data) as [es'|] eqn:E; cbn in H; [|discriminate].
    injection H as _ ->. specialize (IH _ E). cbn [length]. lia.
Qed.

Lemma view_complex_skipn (k : nat) data es :
  view_complex data = Ok es ->
  view_complex (skipn (2 * k) data) = Ok (skipn k es).
Proof.
  revert data es. induction k as [|k IH]; intros data es H; [exact H|].
  replace (2 * S k)%nat with (S (S (2 * k))) by lia.
  destruct data as [|re [|im data]]; cbn in H; try discriminate.
  - injection H as <-. reflexivity.
  - destruct (view_complex data) as [es'|] eqn:E; cbn in H; [|discriminate].
    injection H as <-. cbn [skipn]. now apply IH.
Qed.

Lemma view_complex_firstn (k : nat) data es :
  view_complex data = Ok es ->
  view_complex (firstn (2 * k) data) = Ok (firstn k es).
Proof.
  revert data es. induction k as [|k IH]; intros data es H; [reflexivity|].
  replace (2 * S k)%nat with (S (S (2 * k))) by lia.
  destruct data as [|re [|im data]]; cbn in H; try discriminate.
  - injection H as <-. reflexivity.
  - destruct (view_complex data) as [es'|] eqn:E; cbn in H; [|discriminate].
    injection H as <-. cbn [firstn view_complex]. now rewrite (IH _ _ E).
Qed.

Lemma view_length c data es :
  view c data = Ok es ->
  Z.of_nat (length data) = floats_per_elem c * Z.of_nat (length es).
Proof.
  destruct c; cbn [view floats_per_elem]; intros H.
  - now apply view_complex_length.
  - injection H as <-. rewrite length_map. lia.
Qed.

(** The view of a window that starts and ends between elements. *)
Lemma view_window c data es s n :
  view c data = Ok es -> 0 <= s -> 0 <= n ->
  view c (window (floats_per_elem c * s) (floats_per_elem c * n) data)
  = Ok (window s n es).
Proof.
  destruct c; cbn [view floats_per_elem]; intros H Hs Hn; unfold window.
  - replace (Z.to_nat (2 * n)) with (2 * Z.to_nat n)%nat by lia.
    replace (Z.to_nat (2 * s)) with (2 * Z.to_nat s)%nat by lia.
    now apply view_complex_firstn, view_complex_skipn.
  - injection H as <-. rewrite !Z.mul_1_l, <- firstn_map, <- skipn_map.
    reflexivity.
Qed.
End Views.

Section Reshape.
Context {A : Type}.

Lemma count_occ_nonneg shape :
  Forall (fun d => 0 <= d) shape -> count_occ Z.eq_dec shape (-1) = O.
Proof.
  induction 1 as [|d shape Hd _ IH]; [reflexivity|].
  cbn [count_occ]. destruct (Z.eq_dec d (-1)); [lia | exact IH].
Qed.

Lemma existsb_nonneg shape :
  Forall (fun d => 0 <= d) shape -> existsb (fun d => d <? -1) shape = false.
Proof.
  induction 1 as [|d shape Hd _ IH]; [reflexivity|].
  cbn [existsb]. rewrite IH. destruct (Z.ltb_spec d (-1)); [lia | reflexivity].
Qed.

(** Reshaping to a shape without unknown dimension. *)
Lemma np_reshape_known shape (flat : list A) :
  Forall (fun d => 0 <= d) shape ->
  np_reshape shape flat
  = if prod_shape shape =? Z.of_nat (length flat)
    then Ok (mk_ndarray shape flat)
    else raise ValueError "cannot reshape array".
Proof.
  intros H. unfold np_reshape.
  now rewrite existsb_nonneg, count_occ_nonneg.
Qed.

(** Reshaping to rows, [reshape(-1, *sample_shape)]. *)
Lemma np_reshape_rows shape (flat : list A) rows :
  Forall (fun d => 0 < d) shape -> 0 <= rows ->
  Z.of_nat (length flat) = rows * prod_shape shape ->
  np_reshape (-1 :: shape) flat = Ok (mk_ndarray (rows :: shape) flat).
Proof.
  intros Hpos Hrows Hlen.
  assert (Hnn : Forall (fun d => 0 <= d) shape)
    by (eapply Forall_impl; [|exact Hpos]; cbn; lia).
  pose proof (prod_shape_pos _ Hpos) as Hm.
  unfold np_reshape. cbn [existsb count_occ].
  rewrite existsb_nonneg by assumption.
  destruct (Z.eq_dec (-1) (-1)) as [_|]; [|contradiction].
  rewrite count_occ_nonneg by assumption. cbn [Z.ltb Z.compare orb].
  rewrite prod_shape_cons.
  replace (- (-1 * prod_shape shape)) with (prod_shape shape) by lia.
  rewrite Hlen, Z.mod_mul, Z.div_mul by lia.
  destruct (Z.eqb_spec (prod_shape shape) 0); [lia|].
  cbn [orb negb Z.eqb map]. change (-1 <? -1) with false.
  change (1 =? 1)%positive with true. cbn [orb]. do 3 f_equal.
  rewrite <- (map_id shape) at 2. apply map_ext_in.
  intros d Hd. rewrite Forall_forall in Hpos. specialize (Hpos _ Hd).
  destruct (Z.eqb_spec d (-1)); [lia | reflexivity].
Qed.
End Reshape.

Lemma slice_indices_all len :
  0 <= len -> slice_indices slice_all len = Ok (0, len, 1).
Proof.
  intros. unfold slice_indices, slice_all. cbn.
  destruct (Z.ltb_spec len 0); [lia | reflexivity].
Qed.

Lemma slice_indices_in_range x y len :
  0 <= x <= len -> 0 <= y <= len ->
  slice_indices (mk_slice (Some x) (Some y) None) len = Ok (x, y, 1).
Proof.
  intros. unfold slice_indices. cbn.
  destruct (Z.ltb_spec len 0); [lia|].
  destruct (Z.ltb_spec x 0); [lia|]. destruct (Z.ltb_spec y 0); [lia|].
  do 3 f_equal; [f_equal|]; lia.
Qed.

Lemma window_max0 {A : Type} (l : list A) s n :
  window s (Z.max 0 n) l = window s n l.
Proof. unfold window. f_equal. lia. Qed.

Lemma slice_indices_no_step a e len :
  0 <= len ->
  slice_indices (mk_slice a e None) len
  = Ok (match a with None => 0 | Some i => clip_index len i end,
        match e with None => len | Some i => clip_index len i end, 1).
Proof.
  intros. unfold slice_indices, clip_index. cbn.
  destruct (Z.ltb_spec len 0); [lia | reflexivity].
Qed.

Lemma slice_list_all {A : Type} (l : list A) : slice_list slice_all l = Ok l.
Proof.
  rewrite (slice_list_unit_step slice_all l 0 (Z.of_nat (length l)));
    [| apply slice_indices_all; lia | lia].
  now rewrite Z.sub_0_r, window_all.
Qed.

(** The data slice [_item_to_slices] returns when words hold several
    samples: within the rows decoded from the covering words, it addresses
    the rows asked for. *)
Lemma words_holding_samples fspw start stop :
  0 < fspw -> 0 <= start -> 0 <= stop ->
  let ws := start / fspw in
  let os := start mod fspw in
  let oe := stop mod fspw in
  let we := if oe =? 0 then stop / fspw else stop / fspw + 1 in
  let d := Z.max 0 (we - ws) * fspw in
  let s0 := match (if os =? 0 then None else Some os) with
            | Some i => clip_index d i
            | None => 0
            end in
  let e0 := match (if oe =? 0 then None else Some (os + (stop - start))) with
            | Some i => clip_index d i
            | None => d
            end in
  let n := Z.max 0 (stop - start) in
  Z.max 0 (e0 - s0) = n /\
  (n = 0 \/ ws * fspw + s0 = start /\ n <= d - s0) /\
  0 <= s0.
Proof.
  intros Hf Hs He.
  pose proof (Z.div_mod start fspw ltac:(lia)) as Ds.
  pose proof (Z.mod_pos_bound start fspw Hf) as Bs.
  pose proof (Z.div_mod stop fspw ltac:(lia)) as De.
  pose proof (Z.mod_pos_bound stop fspw Hf) as Be.
  generalize dependent (start / fspw). generalize dependent (start mod fspw).
  generalize dependent (stop / fspw). generalize dependent (stop mod fspw).
  intros oe He1 we0 De os Hos ws Ds. cbv zeta.
  set (we := if oe =? 0 then we0 else we0 + 1).
  assert (Hwe : (oe = 0 /\ we = we0) \/ (oe <> 0 /\ we = we0 + 1))
    by (unfold we; destruct (Z.eqb_spec oe 0); lia).
  clearbody we.
  set (A := fspw * ws) in *. set (B := fspw * we0) in *.
  assert (HAB : (ws < we0 /\ A + fspw <= B) \/ (ws = we0 /\ A = B)
                \/ (we0 < ws /\ B + fspw <= A))
    by (unfold A, B; destruct (Z.lt_trichotomy ws we0) as [?|[?|?]];
        [left | right; left | right; right]; split; nia).
  assert (Hd : (we <= ws /\ Z.max 0 (we - ws) * fspw = 0) \/
               (ws < we /\ Z.max 0 (we - ws) * fspw = fspw * we - A))
    by (unfold A; destruct (Z.le_gt_cases we ws);
        [left; split; [lia|]; replace (Z.max 0 (we - ws)) with 0 by lia; lia
        | right; split; [lia|];
          replace (Z.max 0 (we - ws)) with (we - ws) by lia; ring]).
  assert (HBw : (oe = 0 /\ fspw * we = B) \/ (oe <> 0 /\ fspw * we = B + fspw))
    by (unfold B; destruct Hwe as [[? ->]|[? ->]]; [left | right];
        split; try assumption; ring).
  generalize dependent (Z.max 0 (we - ws) * fspw). intros d Hd.
  generalize dependent (fspw * we). intros Fwe Hd HBw.
  replace (ws * fspw) with A by (unfold A; ring).
  clearbody A B.
  unfold clip_index.
  destruct (Z.eqb_spec os 0); destruct (Z.eqb_spec oe 0);
    repeat match goal with
           | |- context [?x <? 0] => destruct (Z.ltb_spec x 0)
           end; lia.
Qed.

Lemma covering_words_bounds fspw L x :
  0 < fspw -> 0 <= x <= L * fspw ->
  0 <= x / fspw <= L /\ (x mod fspw <> 0 -> x / fspw + 1 <= L).
Proof.
  intros Hf Hx. repeat split.
  - apply Z.div_pos; lia.
  - apply Z.div_le_upper_bound; lia.
  - intros Hmod. enough (x / fspw < L) by lia.
    apply Z.div_lt_upper_bound; [lia|].
    destruct (Z.eq_dec x (L * fspw)) as [->|]; [|lia].
    rewrite Z.mod_mul in Hmod by lia. contradiction.
Qed.

(** * Slice mapping of a payload *)

Lemma init_inv {comp : Type} (cls : payload_class comp) w b ss cplx p :
  init cls w b ss cplx = Ok p ->
  p = mk_payload w ss b cplx (b * floats_per_elem cplx * prod_shape ss) b.
Proof.
  unfold init. destruct (match _size cls with Some _ => _ | None => _ end);
    [discriminate|].
  destruct (negb _); [discriminate|]. now intros [= <-].
Qed.

Section SliceMapping.
Context {comp : Type}.
Variable cls : payload_class comp.
Variable w : word_array.
Variables (b : Z) (ss : list Z) (cplx : bool).
Variable decoder : list Z -> list comp.

Let p : Payload :=
  mk_payload w ss b cplx (b * floats_per_elem cplx * prod_shape ss) b.
Let bpw : Z := 8 * itemsize w.
Let m : Z := prod_shape ss.
Let cf : Z := floats_per_elem cplx.
Let c : Z := per_word b bpw.
Let L : Z := Z.of_nat (length (word_values w)).
Let ns : Z := L * itemsize w * 8 / (b * cf * m).

Hypothesis Hb : 0 < b.
Hypothesis Hss : Forall (fun d => 0 < d) ss.
Hypothesis Hisz : 0 < itemsize w.
Hypothesis Hdecoders : _decoders cls b = Some decoder.
Hypothesis Hww : word_wise decoder b bpw.

Local Lemma m_pos : 0 < m.
Proof. now apply prod_shape_pos. Qed.

Local Lemma cf_pos : 0 < cf.
Proof. unfold cf. now destruct cplx. Qed.

Local Lemma c_bits : c * b = bpw.
Proof. apply per_word_bits with (decoder := decoder); assumption. Qed.

Local Lemma nsample_p : nsample p = Ok ns.
Proof.
  pose proof m_pos. pose proof cf_pos.
  unfold nsample, py_floordiv, size, p. cbn [_bpfs words].
  fold cf m. destruct (Z.eqb_spec (b * cf * m) 0); [nia|]. reflexivity.
Qed.

Local Lemma ns_nonneg : 0 <= ns.
Proof.
  pose proof m_pos. pose proof cf_pos. unfold ns.
  apply Z.div_pos; unfold L; nia.
Qed.

Variable all : ndarray (elem comp).
Hypothesis Hall : getitem cls p (ItemTuple []) = Ok all.

(** What the success of the whole decoding says. *)
Local Lemma decode_all_inv :
  exists es,
    view cplx (decoder (word_values w)) = Ok es /\
    all = mk_ndarray (ns :: ss) es /\
    Z.of_nat (length es) = ns * m /\
    L * c = cf * (ns * m).
Proof.
  pose proof ns_nonneg as Hns.
  unfold getitem, p in Hall. cbn [_coder] in Hall. rewrite Hdecoders in Hall.
  cbn [rbind is_whole complex_data words] in Hall. fold p in Hall.
  destruct (view cplx (decoder (word_values w))) as [es|] eqn:Ev;
    cbn [rbind] in Hall; [|discriminate]. unfold shape in Hall. rewrite nsample_p in Hall.
  cbn [rbind] in Hall. change (sample_shape p) with ss in Hall.
  rewrite np_reshape_known in Hall.
  2:{ constructor; [exact Hns|].
      eapply Forall_impl; [|exact Hss]; cbn; lia. }
  change (sample_shape p) with ss in Hall.
  rewrite prod_shape_cons in Hall. fold m in Hall.
  destruct (Z.eqb_spec (ns * m) (Z.of_nat (length es))) as [Hlen|];
    [|discriminate].
  injection Hall as <-. exists es. repeat split; try easy.
  apply view_length in Ev.
  rewrite (decoder_length decoder b bpw Hww Hb) in Ev.
  fold L c in Ev. fold cf in Ev. lia.
Qed.

Variable es : list (elem comp).
Hypothesis Hview : view cplx (decoder (word_values w)) = Ok es.
Hypothesis Hlen : Z.of_nat (length es) = ns * m.
Hypothesis Hwords : L * c = cf * (ns * m).

(** Decoding a window of the words and reshaping it to rows gives a window
    of the rows of the whole payload. *)
Local Lemma decoded_rows s k s' k' :
  0 <= s -> 0 <= k -> s + k <= L ->
  0 <= s' -> 0 <= k' -> s' + k' <= ns ->
  s * c = cf * (s' * m) -> k * c = cf * (k' * m) ->
  (let* data := view cplx (decoder (window s k (word_values w))) in
   np_reshape (-1 :: ss) data)
  = Ok (mk_ndarray (k' :: ss) (window (s' * m) (k' * m) es)).
Proof.
  intros Hs Hk Hsk Hs' Hk' Hsk' Es Ek. pose proof m_pos.
  rewrite (decoder_window decoder b bpw Hww Hb) by (fold L; lia).
  fold c. rewrite Es, Ek. fold cf.
  rewrite (view_window cplx _ es) by (assumption || nia).
  cbn [rbind]. apply np_reshape_rows; [assumption | assumption |].
  apply window_length; nia.
Qed.

Local Lemma getitem_via_slices it wsl dsl s k s' k' :
  is_whole it = false ->
  _item_to_slices p it = Ok (wsl, dsl) ->
  slice_list wsl (word_values w) = Ok (window s k (word_values w)) ->
  0 <= s -> 0 <= k -> s + k <= L ->
  0 <= s' -> 0 <= k' -> s' + k' <= ns ->
  s * c = cf * (s' * m) -> k * c = cf * (k' * m) ->
  getitem cls p it
  = nd_getitem dsl (mk_ndarray (k' :: ss) (window (s' * m) (k' * m) es)).
Proof.
  intros Hw Hit Hsl Hs Hk Hsk Hs' Hk' Hsk' Es Ek.
  unfold getitem. change (_coder p) with b. rewrite Hdecoders.
  cbn [rbind]. rewrite Hw, Hit. cbn [rbind].
  change (words p) with w. rewrite Hsl. cbn [rbind].
  change (complex_data p) with cplx. change (sample_shape p) with ss.
  pose proof (decoded_rows s k s' k' Hs Hk Hsk Hs' Hk' Hsk' Es Ek) as Hrows.
  destruct (view cplx (decoder (window s k (word_values w)))) as [data|];
    cbn [rbind] in Hrows |- *; [|discriminate].
  rewrite Hrows. reflexivity.
Qed.

(** Words and rows: the payload has no partial sample. *)
Local Lemma words_rows : L * bpw = ns * (b * cf * m).
Proof. pose proof c_bits. nia. Qed.

Variable sl : slice.
Variables start stop : Z.
Hypothesis Hidx : slice_indices sl ns = Ok (start, stop, 1).
Hypothesis Hstart : 0 <= start <= ns.
Hypothesis Hstop : 0 <= stop <= ns.

Let bpfs : Z := b * cf * m.
Let fspw : Z := bpw / bpfs.

Local Lemma index_to_slices_unit :
  index_to_slices p (IdxSlice sl)
  = if stop - start =? ns then Ok (slice_all, IdxSlice slice_all)
    else if bpfs mod bpw =? 0 then
      Ok (mk_slice (Some (start * (bpfs / bpw)))
                   (Some (stop * (bpfs / bpw))) None,
          IdxSlice slice_all)
    else if bpw mod bpfs =? 0 then
      Ok (mk_slice (Some (start / fspw))
                   (Some (if stop mod fspw =? 0 then stop / fspw
                          else stop / fspw + 1))
                   None,
          IdxSlice
            (mk_slice (if start mod fspw =? 0 then None
                       else Some (start mod fspw))
                      (if stop mod fspw =? 0 then None
                       else Some (start mod fspw + (stop - start)))
                      None))
    else raise TypeError msg_unsupported_layout.
Proof.
  pose proof m_pos. pose proof cf_pos.
  assert (Hbpfs : 0 < bpfs) by (unfold bpfs; nia).
  assert (Hbpw : 0 < bpw) by (unfold bpw; lia).
  unfold index_to_slices, resolve_index. rewrite nsample_p. cbn [rbind].
  rewrite Hidx.
  cbn [rbind]. change (1 =? 1) with true. cbn match.
  destruct (stop - start =? ns); [reflexivity|].
  change (_bpfs p) with bpfs. change (8 * itemsize (words p)) with bpw.
  unfold py_mod, py_floordiv, py_divmod.
  destruct (Z.eqb_spec bpw 0); [lia|]. cbn [rbind].
  destruct (bpfs mod bpw =? 0); [reflexivity|].
  destruct (Z.eqb_spec bpfs 0); [lia|]. cbn [rbind].
  destruct (Z.eqb_spec (bpw mod bpfs) 0) as [Hmod|]; [|reflexivity].
  fold fspw.
  destruct (Z.eqb_spec fspw 0) as [Hz|]; [|reflexivity].
  exfalso. unfold fspw in Hz.
  apply Z.div_small_iff in Hz; [|lia].
  rewrite Z.mod_small in Hmod by lia. lia.
Qed.

Local Lemma whole_rows :
  mk_ndarray (ns :: ss) es
  = mk_ndarray (Z.max 0 (ns - 0) :: ss)
               (window (0 * m) (Z.max 0 (ns - 0) * m) es).
Proof.
  pose proof ns_nonneg.
  replace (Z.max 0 (ns - 0)) with ns by lia.
  rewrite <- Hlen. cbn [Z.mul]. now rewrite window_all.
Qed.

Let n' : Z := Z.max 0 (stop - start).

(** The slice of the whole payload, when the slice addresses all of it. *)
Local Lemma getitem_slice_whole_path :
  is_whole (ItemOne (IdxSlice sl)) = true ->
  getitem cls p (ItemOne (IdxSlice sl))
  = Ok (mk_ndarray (n' :: ss) (window (start * m) (n' * m) es)).
Proof.
  intros Hw. pose proof ns_nonneg.
  assert (start = 0 /\ stop = ns) as [-> ->].
  { cbn [is_whole] in Hw. unfold slice_eqb in Hw.
    apply andb_prop in Hw as [Hw H3]. apply andb_prop in Hw as [H1 H2].
    destruct sl as [[a|] [e|] [st|]]; try discriminate.
    rewrite slice_indices_all in Hidx by assumption.
    injection Hidx as <- <-. split; reflexivity. }
  unfold getitem. change (_coder p) with b. rewrite Hdecoders.
  cbn [rbind]. rewrite Hw. change (complex_data p) with cplx.
  change (words p) with w. rewrite Hview. cbn [rbind].
  unfold shape. rewrite nsample_p. cbn [rbind].
  change (sample_shape p) with ss. rewrite np_reshape_known.
  2:{ constructor; [assumption|]. eapply Forall_impl; [|exact Hss]; cbn; lia. }
  rewrite prod_shape_cons. fold m. rewrite <- Hlen, Z.eqb_refl.
  f_equal. apply whole_rows.
Qed.

(** Rows selected in a window of the rows are rows of the payload. *)
Local Lemma rows_window_eq N S K s0 :
  N = n' -> n' = 0 \/ S + s0 = start /\ n' <= K - s0 ->
  0 <= S -> 0 <= s0 ->
  mk_ndarray (N :: ss) (window (s0 * m) (N * m) (window (S * m) (K * m) es))
  = mk_ndarray (n' :: ss) (window (start * m) (n' * m) es).
Proof.
  intros -> Hcase HS Hs0. pose proof m_pos. f_equal.
  rewrite window_window by nia.
  destruct Hcase as [Hz | [<- Hle]].
  - rewrite Hz. rewrite !window_empty; [reflexivity | lia | lia].
  - unfold window. f_equal; [f_equal; nia|]. f_equal. nia.
Qed.

Local Lemma slice_list_words x y k :
  0 <= x <= L -> 0 <= y <= L -> k = Z.max 0 (y - x) ->
  slice_list (mk_slice (Some x) (Some y) None) (word_values w)
  = Ok (window x k (word_values w)).
Proof.
  intros Hx Hy ->. rewrite window_max0.
  apply slice_list_unit_step; [|lia].
  now apply slice_indices_in_range.
Qed.

Local Lemma getitem_slice_partial_path :
  is_whole (ItemOne (IdxSlice sl)) = false ->
  supported_layout p = true \/ stop - start = ns ->
  getitem cls p (ItemOne (IdxSlice sl))
  = Ok (mk_ndarray (n' :: ss) (window (start * m) (n' * m) es)).
Proof.
  intros Hw Hsup. pose proof m_pos as Hm. pose proof cf_pos as Hcf.
  pose proof ns_nonneg as Hns. pose proof c_bits as Hc.
  pose proof words_rows as Hwr. fold bpfs in Hwr.
  assert (Hbpfs : 0 < bpfs) by (unfold bpfs; nia).
  assert (Hbpw : 0 < bpw) by (unfold bpw; lia).
  assert (HL : 0 <= L) by (unfold L; lia).
  assert (Hits : forall wsl dsl,
             index_to_slices p (IdxSlice sl) = Ok (wsl, dsl) ->
             _item_to_slices p (ItemOne (IdxSlice sl)) = Ok (wsl, [dsl])).
  { intros wsl dsl E. cbn [_item_to_slices]. now rewrite E. }
  pose proof index_to_slices_unit as Hi.
  destruct (Z.eqb_spec (stop - start) ns) as [Hn|Hn].
  - (* the slice covers the payload *)
    assert (start = 0 /\ stop = ns) as [E1 E2] by lia.
    rewrite (getitem_via_slices _ _ _ 0 L 0 ns Hw (Hits _ _ Hi));
      try lia.
    + unfold nd_getitem. cbn [nd_shape nd_flat].
      rewrite (nd_index_unit_slice slice_all ns ss _ 0 ns);
        [| now apply slice_indices_all | lia | lia].
      f_equal. apply rows_window_eq; unfold n'; lia.
    + unfold L. rewrite window_all. apply slice_list_all.
  - destruct Hsup as [Hsup | ?]; [|contradiction].
    unfold supported_layout in Hsup.
    change (_bpfs p) with bpfs in Hsup.
    change (8 * itemsize (words p)) with bpw in Hsup.
    destruct (Z.eqb_spec (bpfs mod bpw) 0) as [HA|HA].
    + (* a full sample takes whole words *)
      set (wpfs := bpfs / bpw) in *.
      assert (Ebpfs : bpfs = bpw * wpfs)
        by (unfold wpfs; apply Z.div_exact; lia).
      assert (Hwpfs : 0 < wpfs) by nia.
      assert (EL : L = ns * wpfs) by nia.
      assert (Ecm : wpfs * c = cf * m).
      { apply Z.mul_reg_r with (p := b); [lia|]. unfold bpfs in Ebpfs. nia. }
      rewrite (getitem_via_slices _ _ _ (start * wpfs) (n' * wpfs) start n'
                                  Hw (Hits _ _ Hi));
        try (unfold n'; nia).
      * unfold nd_getitem. cbn [nd_shape nd_flat].
        rewrite (nd_index_unit_slice slice_all n' ss _ 0 n');
          [| apply slice_indices_all; unfold n'; lia | lia | lia].
        f_equal. apply rows_window_eq; unfold n'; lia.
      * apply slice_list_words; unfold n'; nia.
    + (* a word holds whole full samples *)
      cbn [orb] in Hsup.
      destruct (Z.eqb_spec (bpw mod bpfs) 0) as [HB|]; [|discriminate].
      assert (Ebpw : bpw = bpfs * fspw)
        by (unfold fspw; apply Z.div_exact; lia).
      assert (Hfspw : 0 < fspw) by nia.
      assert (Ens : ns = L * fspw) by nia.
      assert (Ecm : c = fspw * (cf * m)).
      { apply Z.mul_reg_r with (p := b); [lia|]. unfold bpfs in Ebpw. nia. }
      pose proof (words_holding_samples fspw start stop Hfspw
                    ltac:(lia) ltac:(lia)) as Harith.
      cbv zeta in Harith.
      pose proof (covering_words_bounds fspw L start Hfspw ltac:(lia))
        as [Bs _].
      pose proof (covering_words_bounds fspw L stop Hfspw ltac:(lia))
        as [Be Be'].
      set (ws := start / fspw) in *. set (os := start mod fspw) in *.
      set (we0 := stop / fspw) in *. set (oe := stop mod fspw) in *.
      set (we := if oe =? 0 then we0 else we0 + 1) in *.
      set (k := Z.max 0 (we - ws)) in *.
      assert (Hwe : we0 <= we <= we0 + 1 /\ (oe = 0 -> we = we0)
                    /\ (oe <> 0 -> we = we0 + 1)).
      { unfold we. destruct (Z.eqb_spec oe 0); lia. }
      assert (Hws : 0 <= ws <= L) by lia.
      assert (Hwe' : 0 <= we <= L) by lia.
      assert (Hk : 0 <= k /\ ws + k <= L) by (unfold k; lia).
      destruct Harith as (HN & Hcase & Hs0).
      rewrite (getitem_via_slices _ _ _ ws k (ws * fspw) (k * fspw)
                                  Hw (Hits _ _ Hi));
        [| apply slice_list_words; [lia | lia | reflexivity]
         | lia | lia | lia
         | apply Z.mul_nonneg_nonneg; lia
         | apply Z.mul_nonneg_nonneg; lia
         | rewrite Ens, <- Z.mul_add_distr_r;
           apply Z.mul_le_mono_nonneg_r; lia
         | rewrite Ecm; ring | rewrite Ecm; ring].
      unfold nd_getitem. cbn [nd_shape nd_flat].
      erewrite nd_index_unit_slice;
        [| apply slice_indices_no_step, Z.mul_nonneg_nonneg; lia
         | exact Hs0 | lia].
      f_equal. apply (rows_window_eq _ (ws * fspw) (k * fspw));
        [exact HN | exact Hcase | apply Z.mul_nonneg_nonneg; lia
         | exact Hs0].
Qed.
End SliceMapping.

(** C1 (as amended).  Take a payload of positive [bps], positive sample
    dimensions and words of positive size, whose decoder works word by word,
    and whose decoding as a whole succeeds.  If the bits of a full sample
    are a multiple of the bits of a word or divide them, or if the slice
    resolves to the whole payload, then indexing the payload with a slice of
    step 1 returns exactly that slice of the whole decoded payload. *)
Theorem getitem_slice_of_decoded {comp : Type} (cls : payload_class comp)
        (w : word_array) (b : Z) (ss : list Z) (cplx : bool) (p : Payload)
        (decoder : list Z -> list comp) (all : ndarray (elem comp))
        (sl : slice) :
  init cls w b ss cplx = Ok p ->
  0 < b -> Forall (fun d => 0 < d) ss -> 0 < itemsize w ->
  _decoders cls b = Some decoder ->
  word_wise decoder b (8 * itemsize w) ->
  unit_step sl ->
  supported_layout p = true \/ covers_payload p sl ->
  getitem cls p (ItemTuple []) = Ok all ->
  exists part,
    getitem cls p (ItemOne (IdxSlice sl)) = Ok part /\
    nd_getitem [IdxSlice sl] all = Ok part.
Proof.
  intros Hinit Hb Hss Hisz Hdecoders Hww Hunit Hsup Hall.
  apply init_inv in Hinit. subst p.
  destruct (decode_all_inv cls w b ss cplx decoder Hb Hss Hisz Hdecoders Hww
                           all Hall) as (es & Hview & -> & Hlen & Hwords).
  pose proof (ns_nonneg w b ss cplx Hb Hss Hisz) as Hns.
  pose proof (nsample_p w b ss cplx Hb Hss) as Hnsample.
  destruct (slice_indices_unit_step sl _ Hunit Hns)
    as (start & stop & Hidx & Hstart & Hstop).
  eexists. split.
  - destruct (is_whole (ItemOne (IdxSlice sl))) eqn:Hw.
    + eapply getitem_slice_whole_path; eassumption.
    + eapply getitem_slice_partial_path; try eassumption.
      destruct Hsup as [Hsup | (ns' & Hns' & Hcov)]; [now left | right].
      rewrite Hnsample in Hns'. injection Hns' as <-.
      rewrite Hidx in Hcov. injection Hcov as -> ->. lia.
  - unfold nd_getitem. cbn [nd_shape nd_flat].
    apply nd_index_unit_slice; [exact Hidx | lia |].
    apply Z.lt_le_incl, prod_shape_pos, Hss.
Qed.

(** * The example decoder works word by word *)

Lemma unpack_word_wise bps :
  0 < bps -> (bps | 32) -> word_wise (Examples.unpack bps) bps 32.
Proof.
  intros Hb [q Hq]. split.
  - intros ws1 ws2. unfold Examples.unpack. apply flat_map_app.
  - intros w. unfold Examples.unpack. cbn [flat_map].
    rewrite app_nil_r, length_map, length_seq.
    rewrite Hq, Z.div_mul by lia. nia.
Qed.

Lemma getitem_slice_of_decoded_witness :
  exists part,
    getitem Examples.example_class Examples.payload_2bit
            (Examples.slice_of 3 21) = Ok part /\
    nd_getitem [IdxSlice (mk_slice (Some 3) (Some 21) None)]
               (mk_ndarray [80] (map EReal (Examples.unpack 2
                  (word_values Examples.words5)))) = Ok part.
Proof.
  apply (getitem_slice_of_decoded
           Examples.example_class Examples.words5 2 [] false
           Examples.payload_2bit (Examples.unpack 2)).
  - reflexivity.
  - lia.
  - constructor.
  - reflexivity.
  - reflexivity.
  - apply unpack_word_wise; [lia | now exists 16].
  - now left.
  - now left.
  - reflexivity.
Defined.

(** C1, as stated, fails: a payload whose full samples have 20 bits is
    built and decodes as a whole, and the slice [1:3] of the decoded array
    exists, but indexing the payload with [1:3] raises. *)
Lemma getitem_slice_unsupported_layout_raises :
  init Examples.example_class Examples.words5 4 [5] false
  = Ok Examples.payload_20bit /\
  exists all part,
    getitem Examples.example_class Examples.payload_20bit (ItemTuple [])
    = Ok all /\
    nd_getitem [IdxSlice (mk_slice (Some 1) (Some 3) None)] all = Ok part /\
    getitem Examples.example_class Examples.payload_20bit
            (Examples.slice_of 1 3)
    = raise TypeError msg_unsupported_layout.
Proof.
  split; [reflexivity|].
  eexists _, _. repeat split; vm_compute; reflexivity.
Qed.

(** * Layouts that cannot be addressed *)

(** C5, as stated, fails: the payload with 20 bits per full sample is built
    without error, and indexing it with the slice [0:8], which covers its 8
    samples, returns the decoded data. *)
Lemma unsupported_layout_whole_slice_returns :
  supported_layout Examples.payload_20bit = false /\
  init Examples.example_class Examples.words5 4 [5] false
  = Ok Examples.payload_20bit /\
  exists data,
    getitem Examples.example_class Examples.payload_20bit
            (Examples.slice_of 0 8) = Ok data.
Proof.
  split; [reflexivity|]. split; [reflexivity|].
  eexists. vm_compute. reflexivity.
Qed.

(** C5 (as amended).  When the bits of a full sample neither are a multiple
    of the bits of a word nor divide them, every indexed access -- by an
    integer, a slice, or a tuple starting with one -- that resolves to [n]
    samples, [n] not the number of samples of the payload, raises the
    TypeError of the unsupported layout. *)
Theorem unsupported_layout_partial_access_raises {comp : Type}
        (cls : payload_class comp) (p : Payload)
        (decoder : list Z -> list comp) (i : index)
        (is_slice : bool) (start stop : Z) (step : option Z) (n ns : Z) :
  supported_layout p = false ->
  itemsize (words p) <> 0 ->
  _decoders cls (_coder p) = Some decoder ->
  nsample p = Ok ns ->
  resolve_index p i = Ok (is_slice, start, stop, step, n) ->
  n <> ns ->
  getitem cls p (ItemOne i) = raise TypeError msg_unsupported_layout /\
  forall rest,
    getitem cls p (ItemTuple (i :: rest))
    = raise TypeError msg_unsupported_layout.
Proof.
  intros Hsup Hisz Hdec Hns Hres Hn.
  assert (Hbpfs : _bpfs p <> 0).
  { unfold nsample, py_floordiv in Hns.
    destruct (Z.eqb_spec (_bpfs p) 0); [discriminate | assumption]. }
  assert (Hits : index_to_slices p i = raise TypeError msg_unsupported_layout).
  { unfold index_to_slices. rewrite Hres. cbn [rbind]. rewrite Hns.
    cbn [rbind]. destruct (Z.eqb_spec n ns); [contradiction|].
    unfold supported_layout in Hsup. apply orb_false_elim in Hsup as [H1 H2].
    unfold py_mod.
    destruct (Z.eqb_spec (8 * itemsize (words p)) 0); [lia|].
    cbn [rbind]. rewrite H1.
    destruct (Z.eqb_spec (_bpfs p) 0); [contradiction|].
    cbn [rbind]. rewrite H2. reflexivity. }
  assert (Hwhole : is_whole (ItemOne i) = false).
  { destruct i as [k|sl|]; try reflexivity. cbn [is_whole].
    destruct (slice_eqb sl slice_all) eqn:E; [|reflexivity]. exfalso.
    unfold slice_eqb in E.
    apply andb_prop in E as [E E3]. apply andb_prop in E as [E1 E2].
    destruct sl as [[a|] [e|] [st|]]; try discriminate.
    cbn [resolve_index] in Hres. rewrite Hns in Hres. cbn [rbind] in Hres.
    unfold slice_indices in Hres. cbn in Hres.
    destruct (ns <? 0); cbn in Hres; [discriminate|].
    injection Hres as _ _ _ _ Hres. lia. }
  split; [|intros rest]; unfold getitem; rewrite Hdec; cbn [rbind].
  - rewrite Hwhole. cbn [_item_to_slices]. now rewrite Hits.
  - cbn [is_whole _item_to_slices]. now rewrite Hits.
Qed.

Lemma unsupported_layout_partial_access_raises_witness :
  getitem Examples.example_class Examples.payload_20bit
          (ItemOne (IdxInt 3))
  = raise TypeError msg_unsupported_layout /\
  forall rest,
    getitem Examples.example_class Examples.payload_20bit
            (ItemTuple (IdxInt 3 :: rest))
    = raise TypeError msg_unsupported_layout.
Proof.
  apply (unsupported_layout_partial_access_raises
           Examples.example_class Examples.payload_20bit
           (Examples.unpack 4) (IdxInt 3) false 3 4 (Some 1) 1 8);
    try reflexivity; discriminate.
Defined.

(** * Slices with a negative step *)

(** C9: the code does not reject a negative step.  On the payload of 3
    samples, [payload[0:2:-1]] is evaluated without error and returns the
    samples 1 and 0 (where the slice [0:2:-1] of an array is empty). *)
Theorem negative_step_returns_data :
  getitem Examples.example_class Examples.payload_64bit
          (ItemOne (IdxSlice (mk_slice (Some 0) (Some 2) (Some (-1)))))
  = Ok (mk_ndarray
          [2; 4; 2]
          [EComplex 3 0; EComplex 0 0; EComplex 0 0; EComplex 0 0;
           EComplex 4 0; EComplex 0 0; EComplex 0 0; EComplex 0 0;
           EComplex 1 0; EComplex 0 0; EComplex 0 0; EComplex 0 0;
           EComplex 2 0; EComplex 0 0; EComplex 0 0; EComplex 0 0]).
Proof. vm_compute. reflexivity. Qed.

(** * Rounding a float64 to an integer *)

Lemma round_half_even_frac (n : Z) (d : positive) :
  round_half_even (n # d) = half_even_div n (Zpos d).
Proof.
  unfold round_half_even, half_even_div.
  change (Qfloor (n # d)) with (n / Zpos d).
  unfold Qcompare, Qminus, Qplus, Qopp, inject_Z. cbn [Qnum Qden].
  replace ((n * 1 + - (n / Z.pos d) * Z.pos d) * 2)
    with (2 * (n mod Zpos d))
    by (rewrite (Z.mod_eq n (Zpos d)) by lia; ring).
  replace (1 * Zpos (d * 1)) with (Zpos d) by lia.
  reflexivity.
Qed.

Lemma half_even_div_opp (m d : Z) :
  0 < d -> half_even_div (- m) d = - half_even_div m d.
Proof.
  intros Hd. unfold half_even_div.
  pose proof (Z.mod_pos_bound m d Hd) as Hr.
  pose proof (Z.div_mod m d ltac:(lia)) as Hm.
  destruct (Z.eq_dec (m mod d) 0) as [H0|H0].
  - assert (Hq : - m / d = - (m / d)) by (apply Z.div_opp_l_z; lia).
    assert (Hr' : - m mod d = 0) by (apply Z.mod_opp_l_z; lia).
    rewrite Hq, Hr', H0. cbn [Z.mul].
    destruct (0 ?= d) eqn:E.
    + apply Z.compare_eq in E. lia.
    + reflexivity.
    + apply Z.compare_gt_iff in E. lia.
  - assert (Hq : - m / d = - (m / d) - 1) by (apply Z.div_opp_l_nz; lia).
    assert (Hr' : - m mod d = d - m mod d) by (apply Z.mod_opp_l_nz; lia).
    rewrite Hq, Hr'.
    destruct (Z.compare_spec (2 * (m mod d)) d) as [E|E|E];
      destruct (Z.compare_spec (2 * (d - m mod d)) d) as [E'|E'|E'];
      try lia.
    replace (- (m / d) - 1) with (- (m / d + 1)) by lia.
    rewrite Z.even_opp, Z.even_add. cbn [Z.even].
    destruct (Z.even (m / d)); cbn; lia.
Qed.

Lemma digits2_pos_bounds (p : positive) :
  2 ^ (Zpos (digits2_pos p) - 1) <= Zpos p < 2 ^ Zpos (digits2_pos p).
Proof.
  induction p as [p IH | p IH |]; cbn [digits2_pos].
  - rewrite Pos2Z.inj_succ, Z.pow_succ_r by lia.
    replace (Z.succ (Zpos (digits2_pos p)) - 1)
      with (Z.succ (Zpos (digits2_pos p) - 1)) by lia.
    rewrite Z.pow_succ_r by lia. lia.
  - rewrite Pos2Z.inj_succ, Z.pow_succ_r by lia.
    replace (Z.succ (Zpos (digits2_pos p)) - 1)
      with (Z.succ (Zpos (digits2_pos p) - 1)) by lia.
    rewrite Z.pow_succ_r by lia. lia.
  - cbn. lia.
Qed.

Lemma Zdigits2_bound (m : Z) : 0 <= m -> m < 2 ^ Zdigits2 m.
Proof.
  destruct m as [|p|p]; intros H; cbn [Zdigits2]; [cbn; lia | | lia].
  apply digits2_pos_bounds.
Qed.

Lemma shr_1_m (mrs : shr_record) :
  0 <= shr_m mrs -> shr_m (shr_1 mrs) = shr_m mrs / 2.
Proof.
  destruct mrs as [m r s]. cbn [shr_m]. intros H. unfold shr_1.
  destruct m as [|[p|p|]|p]; cbn [shr_m]; try reflexivity; try lia.
  - apply (Z.div_unique _ 2 _ 1); lia.
  - apply (Z.div_unique _ 2 _ 0); lia.
Qed.

Lemma shr_iter_m (p : positive) :
  forall mrs : shr_record,
    0 <= shr_m mrs ->
    shr_m (iter_pos shr_1 p mrs) = shr_m mrs / 2 ^ Zpos p.
Proof.
  assert (Hnn : forall mrs, 0 <= shr_m mrs -> 0 <= shr_m (shr_1 mrs)).
  { intros mrs H. rewrite shr_1_m by assumption.
    apply Z.div_pos; lia. }
  induction p as [p IH | p IH |]; intros mrs H; cbn [iter_pos].
  - rewrite IH, IH, shr_1_m; try assumption.
    + rewrite !Z.div_div by lia.
      replace (Zpos p~1) with (1 + Zpos p + Zpos p) by lia.
      rewrite !Z.pow_add_r by lia. f_equal. lia.
    + now apply Hnn.
    + rewrite IH by now apply Hnn. apply Z.div_pos; [now apply Hnn | lia].
  - rewrite IH, IH; try assumption.
    + rewrite !Z.div_div by lia.
      replace (Zpos p~0) with (Zpos p + Zpos p) by lia.
      rewrite !Z.pow_add_r by lia. reflexivity.
    + rewrite IH by assumption. apply Z.div_pos; [assumption | lia].
  - now rewrite shr_1_m.
Qed.

Lemma fexp_ge (e : Z) : e - 53 <= fexp 53 1024 e.
Proof. unfold fexp, emin. lia. Qed.

Lemma shr_record_of_loc_m (m : Z) (l : location) :
  shr_m (shr_record_of_loc m l) = m.
Proof. destruct l as [|[]]; reflexivity. Qed.

(** A shift to the exponent of the format leaves a mantissa of at most 53
    bits. *)
Lemma shr_fexp_m (m e : Z) (l : location) :
  0 <= m ->
  0 <= shr_m (fst (shr_fexp 53 1024 m e l)) < 2 ^ 53.
Proof.
  intros Hm. unfold shr_fexp, shr.
  pose proof (Zdigits2_bound m Hm) as Hd.
  pose proof (fexp_ge (Zdigits2 m + e)) as Hf.
  assert (Hd0 : 0 <= Zdigits2 m) by (destruct m; cbn; lia).
  destruct (fexp 53 1024 (Zdigits2 m + e) - e) as [|p|p] eqn:Hk;
    cbn [fst]; rewrite ?shr_iter_m, shr_record_of_loc_m
      by (rewrite shr_record_of_loc_m; exact Hm).
  - split; [exact Hm|].
    apply Z.lt_le_trans with (1 := Hd). apply Z.pow_le_mono_r; lia.
  - split; [apply Z.div_pos; lia|].
    apply Z.div_lt_upper_bound; [lia|].
    apply Z.lt_le_trans with (1 := Hd).
    rewrite <- Z.pow_add_r by lia. apply Z.pow_le_mono_r; lia.
  - split; [exact Hm|].
    apply Z.lt_le_trans with (1 := Hd). apply Z.pow_le_mono_r; lia.
Qed.

Lemma round_nearest_even_nonneg (m : Z) (l : location) :
  0 <= m -> 0 <= round_nearest_even m l.
Proof.
  intros H. destruct l as [|[]]; cbn [round_nearest_even]; try lia.
  destruct (Z.even m); lia.
Qed.

(** Rounding to the format gives a mantissa of at most 53 bits. *)
Lemma binary_round_aux_mantissa (sx : bool) (mx ex : Z) (lx : location)
      (s : bool) (m : positive) (e : Z) :
  0 <= mx ->
  binary_round_aux 53 1024 sx mx ex lx = S754_finite s m e ->
  Zpos m < 2 ^ 53.
Proof.
  intros Hmx. unfold binary_round_aux.
  pose proof (shr_fexp_m mx ex lx Hmx) as H1.
  destruct (shr_fexp 53 1024 mx ex lx) as [mrs' e'].
  cbn [fst] in H1.
  pose proof (shr_fexp_m (round_nearest_even (shr_m mrs')
                                             (loc_of_shr_record mrs'))
                         e' loc_Exact
                         (round_nearest_even_nonneg _ _ (proj1 H1))) as H2.
  destruct (shr_fexp 53 1024 _ e' loc_Exact) as [mrs'' e''].
  cbn [fst] in H2.
  destruct (shr_m mrs'') as [|p|p]; try discriminate.
  destruct (e'' <=? 1024 - 53); [|discriminate].
  intros [= _ <- _]. apply H2.
Qed.

Lemma f64_mul_mantissa (x y : float64) (s : bool) (m : positive) (e : Z) :
  f64_mul x y = S754_finite s m e -> Zpos m < 2 ^ 53.
Proof.
  unfold f64_mul, SFmul.
  destruct x as [sx|sx| |sx mx ex], y as [sy|sy| |sy my ey];
    try discriminate.
  apply binary_round_aux_mantissa. lia.
Qed.

Lemma digits2_pos_iter (m p : positive) :
  Zpos (digits2_pos (Pos.iter xO m p)) = Zpos (digits2_pos m) + Zpos p.
Proof.
  induction p as [|p IH] using Pos.peano_ind.
  - cbn [Pos.iter digits2_pos]. lia.
  - rewrite Pos.iter_succ. cbn [digits2_pos]. lia.
Qed.

Lemma Zpos_iter_xO (m p : positive) :
  Zpos (Pos.iter xO m p) = Zpos m * 2 ^ Zpos p.
Proof.
  induction p as [|p IH] using Pos.peano_ind.
  - cbn [Pos.iter]. lia.
  - rewrite Pos.iter_succ, Pos2Z.inj_xO, IH, Pos2Z.inj_succ,
      Z.pow_succ_r by lia. ring.
Qed.

(** A mantissa of 53 bits at an exponent of the format is kept as it is. *)
Lemma binary_round_aux_exact (s : bool) (mz : positive) (ez : Z) :
  Zpos (digits2_pos mz) = 53 -> -1074 <= ez <= 971 ->
  binary_round_aux 53 1024 s (Zpos mz) ez loc_Exact = S754_finite s mz ez.
Proof.
  intros Hd He.
  assert (Hk : fexp 53 1024 (53 + ez) - ez = 0)
    by (unfold fexp, emin; lia).
  unfold binary_round_aux, shr_fexp. cbn [Zdigits2].
  rewrite Hd, Hk. cbn [shr shr_record_of_loc shr_m loc_of_shr_record
                           round_nearest_even Zdigits2].
  rewrite Hd, Hk. cbn [shr shr_record_of_loc shr_m].
  replace (ez <=? 1024 - 53) with true; [reflexivity|].
  symmetry. apply Z.leb_le. lia.
Qed.

(** An integer of at most 53 bits is a float64. *)
Lemma binary_round_small (s : bool) (m : positive) :
  Zpos m < 2 ^ 53 ->
  exists (mz : positive) (ez : Z),
    binary_round 53 1024 s m 0 = S754_finite s mz ez /\
    ez <= 0 /\ Zpos mz = Zpos m * 2 ^ (- ez).
Proof.
  intros Hm.
  pose proof (digits2_pos_bounds m) as [Hlo _].
  assert (Hd : Zpos (digits2_pos m) <= 53).
  { destruct (Z.le_gt_cases (Zpos (digits2_pos m)) 53) as [H|H]; [exact H|].
    exfalso.
    assert (2 ^ 53 <= 2 ^ (Zpos (digits2_pos m) - 1))
      by (apply Z.pow_le_mono_r; lia).
    lia. }
  unfold binary_round.
  replace (fexp 53 1024 (Zpos (digits2_pos m) + 0))
    with (Zpos (digits2_pos m) - 53) by (unfold fexp, emin; lia).
  unfold shl_align.
  destruct (Zpos (digits2_pos m) - 53 - 0) as [|q|q] eqn:E; [| lia |].
  - exists m, 0. rewrite binary_round_aux_exact by lia.
    repeat split; [lia|]. cbn. lia.
  - exists (Pos.iter xO m q), (Zpos (digits2_pos m) - 53).
    rewrite binary_round_aux_exact.
    + repeat split; [lia|]. rewrite Zpos_iter_xO. f_equal. f_equal. lia.
    + rewrite digits2_pos_iter. lia.
    + lia.
Qed.

Lemma f64_int_normalize (s : bool) (n : Z) :
  0 <= n < 2 ^ 53 ->
  f64_int (binary_normalize 53 1024 (cond_Zopp s n) 0 s)
  = Ok (cond_Zopp s n).
Proof.
  intros Hn.
  assert (Hpos : forall (b : bool) (p : positive),
             Zpos p < 2 ^ 53 ->
             f64_int (binary_round 53 1024 b p 0)
             = Ok (cond_Zopp b (Zpos p))).
  { intros b p Hp.
    destruct (binary_round_small b p Hp) as (mz & ez & -> & Hez & Hmz).
    unfold f64_int. rewrite Hmz. do 2 f_equal.
    destruct (Z.ltb_spec ez 0).
    - apply Z.div_mul. apply Z.pow_nonzero; lia.
    - replace ez with 0 by lia. cbn. lia. }
  destruct n as [|p|p]; [| |lia].
  - destruct s; reflexivity.
  - destruct s; cbn [cond_Zopp Z.opp binary_normalize].
    + apply (Hpos true p). lia.
    + apply (Hpos false p). lia.
Qed.

Lemma half_even_div_bounds (m d : Z) :
  0 <= m -> 0 < d -> 0 <= half_even_div m d <= m / d + 1.
Proof.
  intros Hm Hd. unfold half_even_div.
  assert (0 <= m / d) by (apply Z.div_pos; lia).
  destruct (2 * (m mod d) ?= d); [destruct (Z.even (m / d))| |]; lia.
Qed.

Lemma round_half_even_inject (n : Z) : round_half_even (inject_Z n) = n.
Proof.
  unfold inject_Z. rewrite round_half_even_frac. unfold half_even_div.
  rewrite Z.div_1_r, Z.mod_1_r. reflexivity.
Qed.

Lemma cond_Zopp_mul (s : bool) (a b : Z) :
  cond_Zopp s a * b = cond_Zopp s (a * b).
Proof. destruct s; cbn [cond_Zopp]; lia. Qed.

(** [int(x.round())] of a finite float64 is its value, rounded to the
    nearest integer, a tie to the even one. *)
Lemma f64_int_rint (s : bool) (m : positive) (e : Z) :
  Zpos m < 2 ^ 53 ->
  f64_int (f64_rint (S754_finite s m e))
  = Ok (round_half_even (f64_to_Q (S754_finite s m e))).
Proof.
  intros Hm. unfold f64_rint, f64_to_Q.
  destruct (Z.ltb_spec e 0) as [He|He].
  - assert (Hd : 2 <= 2 ^ (- e)).
    { change 2 with (2 ^ 1) at 1. apply Z.pow_le_mono_r; lia. }
    pose proof (half_even_div_bounds (Zpos m) (2 ^ (- e))
                                     ltac:(lia) ltac:(lia)) as Hb.
    assert (Hq : Zpos m / 2 ^ (- e) <= Zpos m / 2).
    { apply Z.div_le_compat_l; lia. }
    assert (Hh : Zpos m / 2 < 2 ^ 52).
    { apply Z.div_lt_upper_bound; [lia|].
      change (2 * 2 ^ 52) with (2 ^ 53). exact Hm. }
    rewrite f64_int_normalize by lia.
    rewrite round_half_even_frac, Z2Pos.id by lia.
    f_equal. destruct s; cbn [cond_Zopp].
    + change (Z.neg m) with (- Zpos m).
      symmetry. apply half_even_div_opp. lia.
    + reflexivity.
  - cbn [f64_int]. replace (e <? 0) with false
      by (symmetry; apply Z.ltb_ge; exact He).
    now rewrite round_half_even_inject, cond_Zopp_mul.
Qed.

(** Every product of float64 has a mantissa of at most 53 bits. *)
Lemma f64_mul_mantissa_fits (x y : float64) : mantissa_fits (f64_mul x y).
Proof.
  unfold mantissa_fits. destruct (f64_mul x y) as [| | |s m e] eqn:E; auto.
  exact (f64_mul_mantissa x y s m e E).
Qed.

Lemma f64_scale_mantissa_fits (factor x : float64) :
  mantissa_fits x -> mantissa_fits (f64_scale factor x).
Proof.
  intros H. unfold f64_scale. destruct (f64_eqb factor f64_one);
    [exact H | apply f64_mul_mantissa_fits].
Qed.

(** [int(x.round())] of a finite float64. *)
Lemma f64_int_rint_finite (x : float64) :
  mantissa_fits x -> f64_is_finite x = true ->
  f64_int (f64_rint x) = Ok (round_half_even (f64_to_Q x)).
Proof.
  destruct x as [s|s| |s m e]; try discriminate; intros Hm _.
  - reflexivity.
  - now apply f64_int_rint.
Qed.

(** The number of samples of a product of quantities that is finite in the
    unit [u.one]. *)
Lemma to_samples_of_product (a b one : Quantity) :
  quantity_to (quantity_mul a b) u_one = Ok one ->
  f64_is_finite (q_value one) = true ->
  to_samples (quantity_mul a b)
  = Ok (round_half_even (f64_to_Q (q_value one))).
Proof.
  intros Hto Hfin. unfold to_samples. rewrite Hto. cbn [rbind].
  unfold quantity_to in Hto.
  destruct (conversion (q_unit (quantity_mul a b)) u_one) as [factor|];
    [|discriminate].
  cbn [rbind] in Hto. injection Hto as <-.
  cbn [q_value] in *.
  unfold quantity_int, quantity_round. cbn [q_unit q_value].
  change (conversion u_one u_one) with (Ok (f64_div f64_one f64_one)).
  unfold f64_scale at 1.
  replace (f64_eqb (f64_div f64_one f64_one) f64_one) with true
    by (vm_compute; reflexivity).
  apply f64_int_rint_finite; [|exact Hfin].
  apply f64_scale_mantissa_fits, f64_mul_mantissa_fits.
Qed.

(** * Seek and tell *)

(** C3.  For every stream and every integer [n], [seek(n)] from the start
    (whence [0] or ['start']) sets the offset to [n] and returns [n],
    whatever the size of the stream, and [tell()] then returns [n]. *)
Theorem seek_start_then_tell (c : collaborators) (s : Stream)
        (evs : list event) (n : Z) (whence : whence_arg) :
  whence = WhenceInt 0 \/ whence = WhenceStr "start" ->
  exists s',
    seek c (OffsetSamples n) whence (mk_world s evs)
    = Some (Ok n, mk_world s' evs) /\
    offset s' = n /\
    tell c s' UnitNone = Ok (TellSamples n).
Proof.
  intros [-> | ->]; exists (set_offset s n); repeat split.
Qed.

Lemma seek_start_then_tell_witness :
  exists s',
    seek Examples.example_collaborators (OffsetSamples 1000000) (WhenceInt 0)
         (mk_world Examples.writer5 [])
    = Some (Ok 1000000, mk_world s' []) /\
    offset s' = 1000000 /\
    tell Examples.example_collaborators s' UnitNone
    = Ok (TellSamples 1000000).
Proof.
  apply (seek_start_then_tell Examples.example_collaborators
                              Examples.writer5 [] 1000000 (WhenceInt 0)).
  left. reflexivity.
Defined.

(** What [seek] does once the number of samples and [whence] are had. *)
Lemma seek_run (c : collaborators) (s : Stream) (evs : list event)
      (offset' : seek_offset) (whence whence' : whence_arg) (n : Z) :
  seek_target c s offset' whence = Ok (n, whence') ->
  seek c offset' whence (mk_world s evs)
  = seek c (OffsetSamples n) whence' (mk_world s evs).
Proof.
  intros H. unfold seek, bind, get, lift. cbn [obj events seek_target].
  rewrite H. reflexivity.
Qed.

Lemma seek_from_end (c : collaborators) (s : Stream) (evs : list event)
      (n size : Z) (w' : world Stream) (whence : whence_arg) :
  whence = WhenceInt 2 \/ whence = WhenceStr "end" ->
  stream_size c (mk_world s evs) = Some (Ok size, w') ->
  seek c (OffsetSamples n) whence (mk_world s evs)
  = Some (Ok (size + n),
          mk_world (set_offset (obj w') (size + n)) (events w')).
Proof.
  intros Hw Hsize. unfold seek, bind, get, lift.
  cbn [obj events seek_target].
  destruct Hw as [-> | ->];
    match goal with
    | |- context [whence_is ?w 0 "start"] =>
        change (whence_is w 0 "start") with false;
        change (whence_is w 1 "current") with false;
        change (whence_is w 2 "end") with true
    end;
    cbv iota; unfold bind; rewrite Hsize; reflexivity.
Qed.

(** C10.  A seek by a duration [d] goes by the number of samples that
    [d * sample_rate], a product of float64 brought to the unit [u.one],
    rounds to: the nearest integer, a tie to the even one.  It goes by them
    from where the caller's [whence] says: the start, the current offset,
    or the end of the stream (when its size can be had).  A seek to an
    absolute time, its difference to the start time had, goes from the
    start whatever [whence] is. *)
Theorem seek_duration_applies_whence (c : collaborators) (s : Stream)
        (evs : list event) (d one : Quantity) :
  quantity_to (quantity_mul d (sample_rate s)) u_one = Ok one ->
  f64_is_finite (q_value one) = true ->
  let n := round_half_even (f64_to_Q (q_value one)) in
  (forall whence,
      whence = WhenceInt 0 \/ whence = WhenceStr "start" ->
      seek c (OffsetDuration d) whence (mk_world s evs)
      = Some (Ok n, mk_world (set_offset s n) evs)) /\
  (forall whence,
      whence = WhenceInt 1 \/ whence = WhenceStr "current" ->
      seek c (OffsetDuration d) whence (mk_world s evs)
      = Some (Ok (offset s + n),
              mk_world (set_offset s (offset s + n)) evs)) /\
  (forall whence size w',
      whence = WhenceInt 2 \/ whence = WhenceStr "end" ->
      stream_size c (mk_world s evs) = Some (Ok size, w') ->
      seek c (OffsetDuration d) whence (mk_world s evs)
      = Some (Ok (size + n),
              mk_world (set_offset (obj w') (size + n)) (events w'))) /\
  (forall whence t dt product n0,
      time_sub c t (start_time s) = Ok dt ->
      timedelta_mul c dt (sample_rate s) = Ok product ->
      to_samples product = Ok n0 ->
      seek c (OffsetTime t) whence (mk_world s evs)
      = Some (Ok n0, mk_world (set_offset s n0) evs)).
Proof.
  intros Hto Hfin n.
  assert (Htarget : forall whence,
             seek_target c s (OffsetDuration d) whence = Ok (n, whence)).
  { intros whence. cbn [seek_target].
    now rewrite (to_samples_of_product d (sample_rate s) one Hto Hfin). }
  repeat split.
  - intros whence Hw. rewrite (seek_run c s evs _ _ _ _ (Htarget whence)).
    destruct Hw as [-> | ->]; reflexivity.
  - intros whence Hw. rewrite (seek_run c s evs _ _ _ _ (Htarget whence)).
    destruct Hw as [-> | ->]; reflexivity.
  - intros whence size w' Hw Hsize.
    rewrite (seek_run c s evs _ _ _ _ (Htarget whence)).
    now apply seek_from_end.
  - intros whence t dt product n0 Hsub Hmul Hn0.
    rewrite (seek_run c s evs _ whence (WhenceInt 0) n0); [reflexivity|].
    cbn [seek_target]. rewrite Hsub, Hmul. cbn [rbind]. now rewrite Hn0.
Qed.

(** * Squeezing and unsqueezing *)

Lemma sample_shape_of_squeezed (s : Stream) :
  _squeeze s = true -> squeezed_shape_ok s ->
  fst (sample_shape_of s) = filter (fun dim => dim >? 1) (_sample_shape s).
Proof.
  intros Hsq Hok. unfold sample_shape_of. rewrite Hsq.
  unfold squeezed_shape_ok in Hok.
  destruct (_squeezed_shape s) as [[|d shp]|]; cbn [fst]; auto.
Qed.

Lemma list_insert_after {A : Type} (pre rest : list A) (x : A) :
  list_insert (pre ++ rest) (Z.of_nat (length pre)) x = pre ++ x :: rest.
Proof.
  unfold list_insert. rewrite Nat2Z.id.
  rewrite firstn_app, firstn_all, Nat.sub_diag, app_nil_r.
  rewrite skipn_app, skipn_all, Nat.sub_diag. reflexivity.
Qed.

(** The loop of [_unsqueeze], from dimension [i0] on: the unit dimensions
    come back where they were. *)
Lemma unsqueeze_loop (dims : list Z) :
  Forall (fun d => 1 <= d) dims ->
  forall (i0 : nat) (pre : list Z),
    length pre = S i0 ->
    fold_left (fun new_shape '(i, dim) =>
                 if dim =? 1 then list_insert new_shape (i + 1) 1
                 else new_shape)
              (combine (map Z.of_nat (seq i0 (length dims))) dims)
              (pre ++ filter (fun dim => dim >? 1) dims)
    = pre ++ dims.
Proof.
  induction 1 as [|d dims Hd _ IH]; intros i0 pre Hpre.
  - reflexivity.
  - cbn [length seq map combine fold_left filter].
    replace (pre ++ d :: dims) with ((pre ++ [d]) ++ dims)
      by (rewrite <- app_assoc; reflexivity).
    destruct (Z.eqb_spec d 1) as [->|Hne].
    + change (1 >? 1) with false. cbn iota.
      replace (Z.of_nat i0 + 1) with (Z.of_nat (length pre)) by lia.
      rewrite list_insert_after.
      replace (pre ++ 1 :: filter (fun dim => dim >? 1) dims)
        with ((pre ++ [1]) ++ filter (fun dim => dim >? 1) dims)
        by (rewrite <- app_assoc; reflexivity).
      apply IH. rewrite length_app. cbn. lia.
    + replace (d >? 1) with true by (symmetry; apply Z.gtb_lt; lia).
      replace (pre ++ d :: filter (fun dim => dim >? 1) dims)
        with ((pre ++ [d]) ++ filter (fun dim => dim >? 1) dims)
        by (rewrite <- app_assoc; reflexivity).
      apply IH. rewrite length_app. cbn. lia.
Qed.

Lemma unsqueezed_shape_squeezed (dims : list Z) (n : Z) :
  Forall (fun d => 1 <= d) dims ->
  unsqueezed_shape dims (n :: filter (fun dim => dim >? 1) dims) = n :: dims.
Proof.
  intros H. unfold unsqueezed_shape, enumerate.
  apply (unsqueeze_loop dims H 0 [n]). reflexivity.
Qed.

Lemma prod_shape_squeezed (dims : list Z) :
  Forall (fun d => 1 <= d) dims ->
  prod_shape (filter (fun dim => dim >? 1) dims) = prod_shape dims.
Proof.
  induction 1 as [|d dims Hd _ IH]; [reflexivity|].
  cbn [filter]. destruct (Z.gtb_spec d 1).
  - now rewrite !prod_shape_cons, IH.
  - rewrite prod_shape_cons, IH. replace d with 1 by lia. lia.
Qed.

(** C8.  For a stream that squeezes, whose sample shape has only positive
    dimensions, [_unsqueeze] takes any array of shape [(n,) + sample_shape],
    [sample_shape] the squeezed shape the stream reports, to the array of
    the same elements of shape [(n,) + _sample_shape]: every unit dimension
    is back at its position. *)
Theorem unsqueeze_restores_shape {A : Type} (s : Stream) (data : ndarray A)
        (n : Z) :
  Forall (fun d => 1 <= d) (_sample_shape s) ->
  _squeeze s = true -> squeezed_shape_ok s ->
  0 <= n ->
  nd_shape data = n :: fst (sample_shape_of s) ->
  Z.of_nat (length (nd_flat data)) = prod_shape (nd_shape data) ->
  _unsqueeze s data = Ok (mk_ndarray (n :: _sample_shape s) (nd_flat data)).
Proof.
  intros Hpos Hsq Hok Hn Hshape Hlen.
  rewrite sample_shape_of_squeezed in Hshape by assumption.
  unfold _unsqueeze. rewrite Hshape, unsqueezed_shape_squeezed by assumption.
  rewrite np_reshape_known.
  2:{ constructor; [assumption|].
      eapply Forall_impl; [|exact Hpos]; cbn; lia. }
  rewrite Hlen, Hshape, !prod_shape_cons, prod_shape_squeezed by assumption.
  now rewrite Z.eqb_refl.
Qed.

Lemma unsqueeze_restores_shape_witness :
  _unsqueeze Examples.writer5 (mk_ndarray [3; 2] [1; 2; 3; 4; 5; 6])
  = Ok (mk_ndarray [3; 2; 1] [1; 2; 3; 4; 5; 6]).
Proof.
  apply (unsqueeze_restores_shape
           Examples.writer5 (mk_ndarray [3; 2] [1; 2; 3; 4; 5; 6]) 3).
  - repeat constructor; lia.
  - reflexivity.
  - exact I.
  - lia.
  - reflexivity.
  - reflexivity.
Defined.

Lemma seek_duration_applies_whence_witness :
  seek Examples.example_collaborators (OffsetDuration Examples.seconds07)
       (WhenceStr "current") (mk_world Examples.reader_5Hz [])
  = Some (Ok (3 + 4), mk_world (set_offset Examples.reader_5Hz (3 + 4)) []).
Proof.
  apply (proj1 (proj2 (seek_duration_applies_whence
                         Examples.example_collaborators
                         Examples.reader_5Hz [] Examples.seconds07
                         (mk_quantity (f64_lit 7 (-1)) u_one)
                         ltac:(vm_compute; reflexivity)
                         ltac:(reflexivity)))).
  right. reflexivity.
Defined.

(** * Closing a writer *)

Lemma sample_shape_of_nonneg (s : Stream) :
  Forall (fun d => 1 <= d) (_sample_shape s) -> squeezed_shape_ok s ->
  Forall (fun d => 0 <= d) (fst (sample_shape_of s)).
Proof.
  intros Hpos Hok.
  assert (Hf : Forall (fun d => 0 <= d)
                      (filter (fun dim => dim >? 1) (_sample_shape s))).
  { apply Forall_forall. intros d Hd. apply filter_In in Hd as [Hd _].
    rewrite Forall_forall in Hpos. specialize (Hpos d Hd). lia. }
  unfold sample_shape_of. destruct (_squeeze s).
  - unfold squeezed_shape_ok in Hok.
    destruct (_squeezed_shape s) as [[|d shp]|]; cbn [fst]; try assumption.
    now rewrite Hok.
  - cbn [fst]. eapply Forall_impl; [|exact Hpos]. cbn. lia.
Qed.

Lemma sample_shape_of_keeps (s : Stream) :
  offset (snd (sample_shape_of s)) = offset s /\
  samples_per_frame (snd (sample_shape_of s)) = samples_per_frame s.
Proof.
  unfold sample_shape_of. destruct (_squeeze s); [|now split].
  destruct (_squeezed_shape s) as [[|d shp]|]; now split.
Qed.

Lemma np_zeros_nonneg (shape : list Z) :
  Forall (fun d => 0 <= d) shape ->
  np_zeros shape
  = Ok (mk_ndarray shape (repeat 0%Q (Z.to_nat (prod_shape shape)))).
Proof.
  intros H. unfold np_zeros.
  replace (existsb (fun d => d <? 0) shape) with false; [reflexivity|].
  symmetry. induction H as [|d shape Hd _ IH]; [reflexivity|].
  cbn [existsb]. rewrite IH. destruct (Z.ltb_spec d 0); [lia | reflexivity].
Qed.

(** C4.  Take a writer with a positive frame size and a sample shape of
    positive dimensions.  If the offset is a multiple of
    [samples_per_frame], [close] only closes the file.  If it is not,
    [close] warns and calls [write], marking the data invalid, with an
    array of zeros of exactly
    [samples_per_frame - offset % samples_per_frame] samples; when that
    call of [write] returns and has moved the offset on by the samples it
    was given, the offset is a multiple of [samples_per_frame] and [close]
    closes the file.  Nothing is asked of [write] on any other call. *)
Theorem close_pads_partial_frame
        (write : ndarray Q -> bool -> M Stream unit)
        (s : Stream) (evs : list event) :
  0 < samples_per_frame s ->
  Forall (fun d => 1 <= d) (_sample_shape s) ->
  squeezed_shape_ok s ->
  let spf := samples_per_frame s in
  let extra := offset s mod spf in
  let shape := (spf - extra) :: fst (sample_shape_of s) in
  let zeros :=
    mk_ndarray shape (repeat 0%Q (Z.to_nat (prod_shape shape))) in
  let called := evs ++ [EvWarn msg_partial_buffer; EvWrite zeros true] in
  (extra = 0 ->
   close write (mk_world s evs)
   = Some (Ok tt, mk_world (set_fh_raw s (fh_close (fh_raw s)))
                           (evs ++ [EvClose]))) /\
  (extra <> 0 ->
   forall (s2 : Stream) (emitted : list event),
     write zeros true (mk_world (snd (sample_shape_of s)) called)
     = Some (Ok tt, mk_world s2 (called ++ emitted)) ->
     offset s2 = offset s + hd 0 (nd_shape zeros) ->
     samples_per_frame s2 = spf ->
     close write (mk_world s evs)
     = Some (Ok tt,
             mk_world (set_fh_raw s2 (fh_close (fh_raw s2)))
                      (called ++ emitted ++ [EvClose])) /\
     offset s2 = offset s + (spf - extra) /\
     offset s2 mod spf = 0).
Proof.
  intros Hspf Hpos Hok spf extra shape zeros called.
  pose proof (Z.mod_pos_bound (offset s) spf Hspf) as Hextra.
  fold extra in Hextra.
  assert (Hmod : py_mod (offset s) (samples_per_frame s) = Ok extra).
  { unfold py_mod. fold spf. destruct (Z.eqb_spec spf 0); [lia | reflexivity]. }
  split; intros He.
  - unfold close, bind, get, lift. cbn [obj events]. rewrite Hmod.
    destruct (Z.eqb_spec extra 0); [|contradiction]. reflexivity.
  - intros s2 emitted Hw Hoff2 Hspf2.
    pose proof (sample_shape_of_keeps s) as [Hoff Hspf'].
    pose proof (sample_shape_of_nonneg s Hpos Hok) as Hshp.
    subst called zeros shape.
    destruct (sample_shape_of s) as [shp s1] eqn:Hsso.
    cbn [fst snd] in *.
    set (shape := (spf - extra) :: shp) in *.
    set (zeros := mk_ndarray shape (repeat 0%Q (Z.to_nat (prod_shape shape))))
      in *.
    assert (Hoff2' : offset s2 = offset s + (spf - extra))
      by (unfold zeros, shape in Hoff2; cbn in Hoff2; lia).
    assert (Haligned : offset s2 mod spf = 0).
    { rewrite Hoff2'. unfold extra.
      replace (offset s + (spf - offset s mod spf))
        with (spf * (offset s / spf) + offset s mod spf
              + (spf - offset s mod spf))
        by (rewrite <- Z.div_mod by lia; reflexivity).
      replace (spf * (offset s / spf) + offset s mod spf
               + (spf - offset s mod spf))
        with ((offset s / spf + 1) * spf) by ring.
      apply Z.mod_mul. lia. }
    repeat split; try assumption.
    unfold close, bind, get, lift, warn, emit, call_write. cbn [obj events].
    rewrite Hmod. destruct (Z.eqb_spec extra 0); [contradiction|].
    cbn [negb]. cbn [obj events]. rewrite Hsso. cbn [obj events].
    rewrite Hspf'. fold spf.
    rewrite np_zeros_nonneg by (constructor; [lia | assumption]).
    fold shape. fold zeros. unfold bind, emit. cbn [obj events].
    rewrite <- app_assoc. cbn [app].
    rewrite Hw. cbn [obj events]. unfold py_mod.
    rewrite Hspf2. fold spf.
    destruct (Z.eqb_spec spf 0); [lia|]. rewrite Haligned.
    cbn. unfold VLBIFileBase_close, bind, get, put, emit, ret. cbn.
    rewrite <- !app_assoc. reflexivity.
Qed.

Lemma close_pads_partial_frame_witness :
  close Examples.checking_write (mk_world Examples.writer5 [])
  = Some (Ok tt,
          mk_world (mk_stream (mk_fh [] 0 true) (Examples.header_of 0 100)
                              [2; 1] 2 false None 8 Examples.rate32 8 true
                              (Some [2]) None None)
                   [EvWarn msg_partial_buffer;
                    EvWrite (mk_ndarray [3; 2] (repeat 0%Q 6)) true;
                    EvClose]) /\
  8 = 5 + (8 - 5) /\ 8 mod 8 = 0.
Proof.
  apply (proj2 (close_pads_partial_frame
                  Examples.checking_write Examples.writer5 []
                  ltac:(reflexivity)
                  ltac:(repeat constructor; lia)
                  I)
               ltac:(discriminate)
               (mk_stream (mk_fh [] 0 false) (Examples.header_of 0 100)
                          [2; 1] 2 false None 8 Examples.rate32 8 true
                          (Some [2]) None None)
               []).
  - reflexivity.
  - reflexivity.
  - reflexivity.
Defined.

(** * Reading headers from a file *)

Lemma total_size_app (pre fs : list Header) :
  total_size (pre ++ fs) = total_size pre + total_size fs.
Proof.
  induction pre as [|h pre IH]; cbn [total_size fold_right app]; [reflexivity|].
  fold (total_size (pre ++ fs)). fold (total_size pre). lia.
Qed.

Lemma total_size_nonneg (fs : list Header) :
  wf_frames fs -> 0 <= total_size fs.
Proof.
  induction 1 as [|h fs [Hh Hp] _ IH]; cbn [total_size fold_right]; [lia|].
  fold (total_size fs). unfold framesize. lia.
Qed.

Lemma wf_frames_app (pre fs : list Header) :
  wf_frames (pre ++ fs) <-> wf_frames pre /\ wf_frames fs.
Proof. apply Forall_app. Qed.

(** At the boundary after the frames [pre], the header of the next frame
    parses, or the file has ended. *)
Lemma header_at_boundary (pre fs : list Header) :
  wf_frames pre ->
  header_at (pre ++ fs) (total_size pre)
  = match fs with
    | [] => Raise eof_error
    | h :: _ => Ok h
    end.
Proof.
  induction 1 as [|h pre [Hh Hp] Hpre IH].
  - destruct fs; reflexivity.
  - pose proof (total_size_nonneg pre Hpre) as Hnn.
    cbn [app header_at total_size fold_right]. fold (total_size pre).
    unfold framesize at 1 2.
    destruct (Z.eqb_spec (header_nbytes h + payloadsize h + total_size pre) 0);
      [lia|].
    destruct (Z.ltb_spec (header_nbytes h + payloadsize h + total_size pre)
                         (framesize h)); [unfold framesize in *; lia|].
    rewrite <- IH. f_equal. unfold framesize. lia.
Qed.

Lemma bind_assoc_at {S A B C : Type} (m : M S A) (f : A -> M S B)
      (g : B -> M S C) (w : world S) :
  bind m (fun x => bind (f x) g) w = bind (bind m f) g w.
Proof.
  unfold bind. destruct (m w) as [[[a|e] w']|]; reflexivity.
Qed.

Lemma take_drop_while {A : Type} (keep : A -> bool) (l : list A) :
  take_while keep l ++ drop_while keep l = l.
Proof.
  induction l as [|x l IH]; [reflexivity|].
  cbn [take_while drop_while]. destruct (keep x); [|reflexivity].
  cbn [app]. now rewrite IH.
Qed.

Lemma drop_while_length {A : Type} (keep : A -> bool) (l : list A) :
  (length (drop_while keep l) <= length l)%nat.
Proof.
  induction l as [|x l IH]; [reflexivity|].
  cbn [drop_while]. destruct (keep x); cbn [length]; lia.
Qed.

Section Detector.
Variable frames : list Header.
Variable closed : bool.
Variable evs : list event.
Hypothesis Hwf : wf_frames frames.

Local Abbreviation after := (fh_after frames closed evs).
Local Abbreviation at_pos := (fh_at frames closed evs).

(** Skipping the payload of the frame whose header was read, then reading
    the next header. *)
Lemma next_header (pre : list Header) (h : Header) (rest : list Header) :
  frames = pre ++ h :: rest ->
  (fh_seek (payloadsize h) 1 ;;; Header_fromfile)%M (after pre h)
  = match rest with
    | [] => Some (Raise eof_error, at_pos (total_size frames))
    | h' :: _ => Some (Ok h', after (pre ++ [h]) h')
    end.
Proof.
  intros Hfr.
  assert (Hwf' : wf_frames (pre ++ [h])).
  { rewrite Hfr in Hwf. apply wf_frames_app in Hwf as [H1 H2].
    apply wf_frames_app. split; [assumption|].
    inversion H2; subst. constructor; [assumption | constructor]. }
  pose proof (total_size_nonneg _ Hwf') as Hnn.
  assert (Epos : total_size pre + header_nbytes h + payloadsize h
                 = total_size (pre ++ [h])).
  { rewrite total_size_app. cbn [total_size fold_right]. unfold framesize.
    lia. }
  assert (Hfr' : frames = (pre ++ [h]) ++ rest)
    by (rewrite <- app_assoc; exact Hfr).
  assert (Hat : header_at frames (total_size (pre ++ [h]))
                = match rest with
                  | [] => Raise eof_error
                  | h' :: _ => Ok h'
                  end)
    by (rewrite Hfr' at 1; now apply header_at_boundary).
  assert (Hend : rest = [] -> total_size (pre ++ [h]) = total_size frames)
    by (intros ->; rewrite Hfr', app_nil_r; reflexivity).
  unfold bind, fh_seek, Header_fromfile, fh_after.
  cbn [obj events fh_pos fh_frames fh_closed].
  rewrite (Z.eqb_refl 1), Epos.
  destruct (Z.ltb_spec (total_size (pre ++ [h])) 0); [lia|].
  cbn [obj events fh_pos fh_frames fh_closed]. rewrite Hat.
  destruct rest as [|h' rest'].
  - unfold fh_at. now rewrite Hend.
  - reflexivity.
Qed.

(** The first loop: it stops at the first header whose frame number is
    not that of the first frame, or the file ends. *)
Lemma skip_frame_nr0_run (frame_nr0 : Z) (rest : list Header) :
  forall (pre : list Header) (h : Header) (fuel : nat),
    frames = pre ++ h :: rest ->
    (length rest < fuel)%nat ->
    skip_frame_nr0 fuel frame_nr0 h (after pre h)
    = match drop_while (fun x => frame_nr x =? frame_nr0) (h :: rest) with
      | [] => Some (Raise eof_error, at_pos (total_size frames))
      | h2 :: _ =>
          Some (Ok h2,
                after (pre ++ take_while (fun x => frame_nr x =? frame_nr0)
                                         (h :: rest)) h2)
      end.
Proof.
  induction rest as [|h' rest' IH]; intros pre h fuel Hfr Hfuel;
    (destruct fuel as [|fuel]; [lia|]);
    cbn [skip_frame_nr0 drop_while take_while];
    destruct (frame_nr h =? frame_nr0) eqn:E;
    try (rewrite app_nil_r; reflexivity);
    rewrite bind_assoc_at; unfold bind at 1;
    rewrite (next_header pre h _ Hfr).
  - reflexivity.
  - rewrite IH.
    + fold (drop_while (fun x => frame_nr x =? frame_nr0) (h' :: rest')).
      fold (take_while (fun x => frame_nr x =? frame_nr0) (h' :: rest')).
      rewrite <- app_assoc. reflexivity.
    + rewrite <- app_assoc. exact Hfr.
    + cbn [length] in Hfuel. lia.
Qed.

(** The second loop: it stops at the first header whose frame number is
    not positive, with the largest frame number seen, or the file ends. *)
Lemma scan_max_frame_run (rest : list Header) :
  forall (pre : list Header) (h : Header) (fuel : nat) (max_frame : Z),
    frames = pre ++ h :: rest ->
    (length rest < fuel)%nat ->
    scan_max_frame fuel max_frame h (after pre h)
    = match drop_while (fun x => frame_nr x >? 0) (h :: rest) with
      | [] => Some (Raise eof_error, at_pos (total_size frames))
      | h2 :: _ =>
          Some (Ok (fold_left (fun m x => Z.max (frame_nr x) m)
                              (take_while (fun x => frame_nr x >? 0)
                                          (h :: rest))
                              max_frame,
                    h2),
                after (pre ++ take_while (fun x => frame_nr x >? 0)
                                         (h :: rest)) h2)
      end.
Proof.
  induction rest as [|h' rest' IH]; intros pre h fuel max_frame Hfr Hfuel;
    (destruct fuel as [|fuel]; [lia|]);
    cbn [scan_max_frame drop_while take_while];
    destruct (frame_nr h >? 0) eqn:E;
    try (rewrite app_nil_r; reflexivity);
    rewrite bind_assoc_at; unfold bind at 1;
    rewrite (next_header pre h _ Hfr).
  - reflexivity.
  - rewrite IH.
    + fold (drop_while (fun x => frame_nr x >? 0) (h' :: rest')).
      fold (take_while (fun x => frame_nr x >? 0) (h' :: rest')).
      rewrite <- app_assoc. reflexivity.
    + rewrite <- app_assoc. exact Hfr.
    + cbn [length] in Hfuel. lia.
Qed.

(** What [_get_frame_rate] does on a handle positioned after the frames
    [pre], the frames [fs] following: at the end of a file that ends too
    early it raises [EOFError] and leaves the handle where the read
    failed; otherwise it returns the rate, warns when the second of the
    header it stopped at is not the next one, and has put the handle
    back. *)
Theorem get_frame_rate_run (pre fs : list Header) :
  frames = pre ++ fs ->
  _get_frame_rate (at_pos (total_size pre))
  = match scan_frames fs with
    | ScanEOF => Some (Raise eof_error, at_pos (total_size frames))
    | ScanRate rate h2 =>
        Some (Ok rate,
              mk_world (mk_fh frames (total_size pre) closed)
                       (evs ++ if seconds h2 =? seconds (hd h2 fs) + 1
                               then [] else [EvWarn msg_time_jump]))
    end.
Proof.
  intros Hfr.
  assert (Hpre : wf_frames pre)
    by (rewrite Hfr in Hwf; now apply wf_frames_app in Hwf).
  pose proof (total_size_nonneg pre Hpre) as Hnn.
  assert (Hat : header_at frames (total_size pre)
                = match fs with
                  | [] => Raise eof_error
                  | h :: _ => Ok h
                  end)
    by (rewrite Hfr at 1; now apply header_at_boundary).
  unfold _get_frame_rate, fh_at.
  unfold bind at 1. cbn [obj events fh_frames].
  unfold bind at 1. unfold fh_tell at 1. cbn [obj events fh_pos].
  unfold bind at 1. unfold Header_fromfile at 1.
  cbn [obj events fh_pos fh_frames fh_closed].
  rewrite Hat.
  destruct fs as [|h0 rest0].
  - cbn [scan_frames]. rewrite Hfr, app_nil_r. reflexivity.
  - fold (after pre h0).
    unfold bind at 1.
    rewrite (skip_frame_nr0_run (frame_nr h0) rest0 pre h0 _ Hfr).
    2:{ rewrite Hfr, length_app. cbn [length]. lia. }
    unfold scan_frames.
    pose proof (take_drop_while (fun x => frame_nr x =? frame_nr h0)
                                (h0 :: rest0)) as Hsplit.
    pose proof (drop_while_length (fun x => frame_nr x =? frame_nr h0)
                                  (h0 :: rest0)) as Hlen1.
    destruct (drop_while (fun x => frame_nr x =? frame_nr h0) (h0 :: rest0))
      as [|h1 rest1]; [reflexivity|].
    unfold bind at 1.
    rewrite (scan_max_frame_run rest1).
    2:{ rewrite <- app_assoc, Hsplit. exact Hfr. }
    2:{ rewrite Hfr, length_app. cbn [length] in *. lia. }
    destruct (drop_while (fun x => frame_nr x >? 0) (h1 :: rest1))
      as [|h2 rest2]; [reflexivity|].
    cbn [hd]. unfold bind, warn, emit, ret, fh_seek, fh_after.
    destruct (seconds h2 =? seconds h0 + 1);
      cbn [negb obj events fh_pos fh_frames fh_closed Z.eqb];
      (destruct (Z.ltb_spec (total_size pre) 0); [lia|]);
      cbn [obj events fh_pos fh_frames fh_closed];
      [rewrite app_nil_r|]; reflexivity.
Qed.
End Detector.

(** * The frame rate of a stream *)

Lemma while_positive_prefix (cyc : list Header) (h0 : Header)
      (rest : list Header) :
  Forall (fun h => 0 < frame_nr h) cyc -> frame_nr h0 <= 0 ->
  drop_while (fun x => frame_nr x >? 0) (cyc ++ h0 :: rest) = h0 :: rest /\
  take_while (fun x => frame_nr x >? 0) (cyc ++ h0 :: rest) = cyc.
Proof.
  intros Hcyc Hh0. induction Hcyc as [|c cyc Hc _ [IH1 IH2]].
  - cbn [app drop_while take_while].
    destruct (Z.gtb_spec (frame_nr h0) 0); [lia | now split].
  - cbn [app drop_while take_while].
    destruct (Z.gtb_spec (frame_nr c) 0); [|lia].
    now rewrite IH1, IH2.
Qed.

Lemma drop_while_all_positive (fs : list Header) :
  Forall (fun h => 0 < frame_nr h) fs ->
  drop_while (fun x => frame_nr x >? 0) fs = [].
Proof.
  induction 1 as [|h fs Hh _ IH]; [reflexivity|].
  cbn [drop_while]. destruct (Z.gtb_spec (frame_nr h) 0); [exact IH | lia].
Qed.

(** The largest of consecutive frame numbers is the last. *)
Lemma max_of_consecutive (n : nat) :
  forall (a : nat) (max_frame : Z) (l : list Header),
    frame_numbers l = map Z.of_nat (seq a (S n)) ->
    max_frame <= Z.of_nat a ->
    fold_left (fun m x => Z.max (frame_nr x) m) l max_frame
    = Z.of_nat (a + n).
Proof.
  induction n as [|n IH]; intros a max_frame l Hl Hmax;
    destruct l as [|x l]; try discriminate;
    cbn [frame_numbers map seq] in Hl; injection Hl as Hx Hl.
  - destruct l; [|discriminate]. cbn [fold_left]. rewrite Hx. lia.
  - cbn [fold_left]. rewrite (IH (S a)); [lia | exact Hl | lia].
Qed.

(** C2 (as amended).  When the frames from the position of the detector
    are numbered [0 .. R-1], [R] at least 2, and are followed by at least
    the header of the first frame of the next second, numbered 0, the
    detector returns the rate [R] (and the handle is back where it was). *)
Theorem frame_rate_of_full_cycle (frames : list Header) (closed : bool)
        (evs : list event) (pre cycle : list Header) (h0 : Header)
        (rest : list Header) (R : nat) :
  wf_frames frames ->
  frames = pre ++ cycle ++ h0 :: rest ->
  frame_numbers cycle = map Z.of_nat (seq 0 R) ->
  (2 <= R)%nat ->
  frame_nr h0 = 0 ->
  exists evs',
    _get_frame_rate (fh_at frames closed evs (total_size pre))
    = Some (Ok (Z.of_nat R), fh_at frames closed evs' (total_size pre)).
Proof.
  intros Hwf Hfr Hcycle HR Hh0.
  rewrite (get_frame_rate_run frames closed evs Hwf pre (cycle ++ h0 :: rest)
                              Hfr).
  destruct R as [|[|R]]; try lia.
  destruct cycle as [|c0 [|c1 cyc]]; try discriminate.
  cbn [frame_numbers map seq] in Hcycle.
  injection Hcycle as Hc0 Hc1 Hcyc.
  assert (Hnums : frame_numbers (c1 :: cyc) = map Z.of_nat (seq 1 (S R)))
    by (cbn [frame_numbers map seq]; now rewrite Hc1, Hcyc).
  assert (Hpos : Forall (fun h => 0 < frame_nr h) (c1 :: cyc)).
  { apply Forall_forall. intros h Hin.
    apply (in_map frame_nr) in Hin. fold (frame_numbers (c1 :: cyc)) in Hin.
    rewrite Hnums in Hin. apply in_map_iff in Hin as (k & <- & Hk).
    apply in_seq in Hk. lia. }
  destruct (while_positive_prefix (c1 :: cyc) h0 rest Hpos ltac:(lia))
    as [Hdrop Htake].
  unfold scan_frames. cbn [app drop_while]. rewrite Hc0, Hc1.
  cbn [Z.eqb]. cbn [app] in Hdrop, Htake. rewrite Hdrop, Htake.
  rewrite (max_of_consecutive R 1 0 (c1 :: cyc) Hnums) by lia.
  eexists. unfold fh_at. do 3 f_equal. lia.
Qed.

Lemma frame_rate_of_full_cycle_witness :
  exists evs',
    _get_frame_rate (fh_at (fh_frames Examples.file7) false [] 0)
    = Some (Ok 4, fh_at (fh_frames Examples.file7) false evs' 0).
Proof.
  apply (frame_rate_of_full_cycle
           (fh_frames Examples.file7) false [] []
           (firstn 4 (fh_frames Examples.file7))
           (Examples.header_of 0 101)
           (skipn 5 (fh_frames Examples.file7)) 4).
  - repeat constructor; cbn; lia.
  - reflexivity.
  - reflexivity.
  - lia.
  - reflexivity.
Defined.

(** C2, as stated, fails: on a file of exactly one full second of four
    frames, numbered 0 to 3, the detector raises [EOFError]. *)
Lemma frame_rate_of_one_second_raises :
  frame_numbers (fh_frames Examples.file4) = map Z.of_nat (seq 0 4) /\
  _get_frame_rate (mk_world Examples.file4 [])
  = Some (Raise eof_error,
          mk_world (mk_fh (fh_frames Examples.file4) 32128 false) []).
Proof. split; reflexivity. Qed.

(** C7.  When the frames from the position of the detector end before the
    frame number is back to zero, the detector raises [EOFError] (its way
    to say that the data do not suffice), and the constructor of the stream
    reader, given no sample rate, raises that error to its caller, with the
    hint to pass a sample rate added to its arguments. *)
Theorem frame_rate_eof_before_wrap (frames : list Header) (closed : bool)
        (evs : list event) (pre fs : list Header) :
  wf_frames frames ->
  frames = pre ++ fs ->
  ends_before_wrap fs ->
  _get_frame_rate (fh_at frames closed evs (total_size pre))
  = Some (Raise eof_error, fh_at frames closed evs (total_size frames)) /\
  forall header0 sample_shape bps complex_data thread_ids samples_per_frame
         squeeze,
    VLBIStreamReaderBase_init header0 sample_shape bps complex_data
                              thread_ids samples_per_frame None squeeze
                              (fh_at frames closed evs (total_size pre))
    = Some (Raise (mk_exn EOFError
                          (exn_args eof_error ++ [msg_not_detected])),
            fh_at frames closed evs (total_size frames)).
Proof.
  intros Hwf Hfr Hends.
  assert (Hrun : _get_frame_rate (fh_at frames closed evs (total_size pre))
                 = Some (Raise eof_error,
                         fh_at frames closed evs (total_size frames))).
  { rewrite (get_frame_rate_run frames closed evs Hwf pre fs Hfr).
    replace (scan_frames fs) with ScanEOF; [reflexivity|].
    destruct fs as [|h0 rest0]; [reflexivity|].
    unfold scan_frames. cbv zeta. unfold ends_before_wrap in Hends.
    now rewrite (drop_while_all_positive _ Hends). }
  split; [exact Hrun|]. intros.
  unfold VLBIStreamReaderBase_init, bind, reraise_with.
  rewrite Hrun. reflexivity.
Qed.

Lemma frame_rate_eof_before_wrap_witness :
  _get_frame_rate (fh_at (fh_frames Examples.file3) false [] 0)
  = Some (Raise eof_error,
          fh_at (fh_frames Examples.file3) false [] 24096) /\
  forall header0 sample_shape bps complex_data thread_ids samples_per_frame
         squeeze,
    VLBIStreamReaderBase_init header0 sample_shape bps complex_data
                              thread_ids samples_per_frame None squeeze
                              (fh_at (fh_frames Examples.file3) false [] 0)
    = Some (Raise (mk_exn EOFError
                          (exn_args eof_error ++ [msg_not_detected])),
            fh_at (fh_frames Examples.file3) false [] 24096).
Proof.
  apply (frame_rate_eof_before_wrap
           (fh_frames Examples.file3) false [] [] (fh_frames Examples.file3)).
  - repeat constructor; cbn; lia.
  - reflexivity.
  - repeat constructor.
Defined.

(** C6: the handle is put back only when the detection succeeds.  On the
    file of three frames numbered 0, 1, 2, read from position 0, the
    detector raises [EOFError] and leaves the handle at position 24096, the
    end of the file. *)
Theorem frame_rate_failure_moves_handle :
  exists w',
    _get_frame_rate (mk_world Examples.file3 []) = Some (Raise eof_error, w')
    /\ fh_pos (obj w') = 24096
    /\ fh_pos (obj w') <> fh_pos Examples.file3.
Proof.
  exists (mk_world (mk_fh (fh_frames Examples.file3) 24096 false) []).
  split; [reflexivity|]. split; [reflexivity | discriminate].
Qed.

(** * Indexing a payload with an integer *)

(** The word that holds sample [k] when a word holds [fspw] samples. *)
Lemma word_of_sample fspw k :
  0 < fspw -> 0 <= k ->
  (if (k + 1) mod fspw =? 0 then (k + 1) / fspw else (k + 1) / fspw + 1)
  = k / fspw + 1.
Proof.
  intros Hf Hk.
  pose proof (Z.div_mod k fspw ltac:(lia)) as E.
  pose proof (Z.mod_pos_bound k fspw Hf) as B.
  pose proof (Z.div_mod (k + 1) fspw ltac:(lia)) as E1.
  pose proof (Z.mod_pos_bound (k + 1) fspw Hf) as B1.
  set (q := k / fspw) in *. set (r := k mod fspw) in *.
  set (q1 := (k + 1) / fspw) in *. set (r1 := (k + 1) mod fspw) in *.
  destruct (Z.eqb_spec r1 0) as [Hz|Hz]; nia.
Qed.

Lemma sample_in_word fspw L k :
  0 < fspw -> 0 <= k < L * fspw ->
  0 <= k / fspw /\ k / fspw + 1 <= L /\
  k / fspw * fspw + k mod fspw = k /\ 0 <= k mod fspw < fspw.
Proof.
  intros Hf Hk.
  pose proof (Z.div_mod k fspw ltac:(lia)) as E.
  pose proof (Z.mod_pos_bound k fspw Hf) as B.
  set (q := k / fspw) in *. set (r := k mod fspw) in *.
  repeat split; try lia; nia.
Qed.

(** The words [x, y) of a list. *)
Lemma slice_list_range {A : Type} (l : list A) x y k :
  0 <= x <= Z.of_nat (length l) -> 0 <= y <= Z.of_nat (length l) ->
  k = Z.max 0 (y - x) ->
  slice_list (mk_slice (Some x) (Some y) None) l = Ok (window x k l).
Proof.
  intros Hx Hy ->. rewrite window_max0.
  apply slice_list_unit_step; [|lia].
  now apply slice_indices_in_range.
Qed.

Lemma whole_words_of_rows L c cf ns m b bpw :
  L * c = cf * (ns * m) -> c * b = bpw -> L * bpw = ns * (b * cf * m).
Proof. intros H <-. rewrite Z.mul_assoc, H. ring. Qed.

Lemma floats_per_elem_pos cplx : 0 < floats_per_elem cplx.
Proof. now destruct cplx. Qed.

(** A row of a window of rows is a row of the whole. *)
Lemma block_of_window {A : Type} (es : list A) m S K d :
  0 < m -> 0 <= S -> 0 <= d < K ->
  block m (window (S * m) (K * m) es) d = block m es (S + d).
Proof.
  intros Hm HS Hd. unfold block.
  rewrite window_window by nia.
  f_equal; nia.
Qed.

Section IntegerIndex.
Context {comp : Type}.
Variable cls : payload_class comp.
Variable w : word_array.
Variables (b : Z) (ss : list Z) (cplx : bool).
Variable decoder : list Z -> list comp.

Let p : Payload :=
  mk_payload w ss b cplx (b * floats_per_elem cplx * prod_shape ss) b.
Let bpw : Z := 8 * itemsize w.
Let m : Z := prod_shape ss.
Let cf : Z := floats_per_elem cplx.
Let c : Z := per_word b bpw.
Let L : Z := Z.of_nat (length (word_values w)).
Let ns : Z := L * itemsize w * 8 / (b * cf * m).
Let bpfs : Z := b * cf * m.
Let fspw : Z := bpw / bpfs.

Hypothesis Hb : 0 < b.
Hypothesis Hss : Forall (fun d => 0 < d) ss.
Hypothesis Hisz : 0 < itemsize w.
Hypothesis Hdecoders : _decoders cls b = Some decoder.
Hypothesis Hww : word_wise decoder b bpw.

Variable es : list (elem comp).
Hypothesis Hview : view cplx (decoder (word_values w)) = Ok es.
Hypothesis Hlen : Z.of_nat (length es) = ns * m.
Hypothesis Hwords : L * c = cf * (ns * m).

Variable i : Z.
Hypothesis Hi : - ns <= i < ns.

Let k : Z := if i <? 0 then i + ns else i.

Lemma index_to_slices_int :
  index_to_slices p (IdxInt i)
  = if 1 =? ns then Ok (slice_all, IdxInt 0)
    else if bpfs mod bpw =? 0 then
      Ok (mk_slice (Some (k * (bpfs / bpw)))
                   (Some ((k + 1) * (bpfs / bpw))) None,
          IdxInt 0)
    else if bpw mod bpfs =? 0 then
      Ok (mk_slice (Some (k / fspw)) (Some (k / fspw + 1)) None,
          IdxInt (k mod fspw))
    else raise TypeError msg_unsupported_layout.
Proof.
  pose proof (prod_shape_pos ss Hss) as Hm.
  pose proof (floats_per_elem_pos cplx) as Hcf.
  fold m in Hm. fold cf in Hcf.
  assert (Hbpfs : 0 < bpfs) by (unfold bpfs; nia).
  assert (Hbpw : 0 < bpw) by (unfold bpw; lia).
  assert (Hk : 0 <= k < ns) by (unfold k; destruct (Z.ltb_spec i 0); lia).
  pose proof (nsample_p w b ss cplx Hb Hss) as Hns.
  fold p in Hns. change (nsample p = Ok ns) in Hns.
  unfold index_to_slices, resolve_index. rewrite Hns.
  assert (E : (let* k0 := if i <? 0 then let* ns0 := Ok ns in Ok (i + ns0)
                          else Ok i in
               let* ns0 := Ok ns in
               if negb ((0 <=? k0) && (k0 <? ns0))
               then raise IndexError "{0} index out of range."
               else Ok (false, k0, k0 + 1, Some 1, 1))
              = Ok (false, k, k + 1, Some 1, 1)).
  { unfold k. destruct (Z.ltb_spec i 0); cbn [rbind];
      (destruct (Z.leb_spec 0 (i + ns)); destruct (Z.ltb_spec (i + ns) ns);
       destruct (Z.leb_spec 0 i); destruct (Z.ltb_spec i ns);
       try lia; reflexivity). }
  rewrite E. cbn [rbind].
  destruct (1 =? ns); [reflexivity|].
  change (_bpfs p) with bpfs. change (8 * itemsize (words p)) with bpw.
  unfold py_mod, py_floordiv, py_divmod.
  destruct (Z.eqb_spec bpw 0); [lia|]. cbn [rbind].
  destruct (bpfs mod bpw =? 0); [reflexivity|].
  destruct (Z.eqb_spec bpfs 0); [lia|]. cbn [rbind].
  destruct (Z.eqb_spec (bpw mod bpfs) 0) as [Hmod|]; [|reflexivity].
  fold fspw.
  assert (Hf : 0 < fspw).
  { assert (bpw = bpfs * fspw) by (unfold fspw; apply Z.div_exact; lia).
    nia. }
  destruct (Z.eqb_spec fspw 0) as [Hz|]; [lia|]. cbn [rbind].
  rewrite (word_of_sample fspw k Hf) by lia. reflexivity.
Qed.

(** Indexing with an integer, alone or ahead of further indices, indexes
    the row it names of the whole decoded payload. *)
Lemma getitem_int_rows it rest :
  it = ItemOne (IdxInt i) /\ rest = [] \/ it = ItemTuple (IdxInt i :: rest) ->
  supported_layout p = true \/ ns = 1 ->
  getitem cls p it = nd_index rest ss (block m es k).
Proof.
  intros Hit Hsup.
  pose proof (prod_shape_pos ss Hss) as Hm.
  pose proof (floats_per_elem_pos cplx) as Hcf.
  fold m in Hm. fold cf in Hcf.
  pose proof (ns_nonneg w b ss cplx Hb Hss Hisz) as Hns. fold ns in Hns.
  pose proof (per_word_bits decoder b bpw Hww Hb) as Hc. fold c in Hc.
  pose proof (whole_words_of_rows L c cf ns m b bpw Hwords Hc) as Hwr.
  fold bpfs in Hwr.
  assert (Hbpfs : 0 < bpfs) by (unfold bpfs; nia).
  assert (Hbpw : 0 < bpw) by (unfold bpw; lia).
  assert (HL : 0 <= L) by (unfold L; lia).
  assert (Hk : 0 <= k < ns) by (unfold k; destruct (Z.ltb_spec i 0); lia).
  assert (Hw : is_whole it = false)
    by (destruct Hit as [[-> _] | ->]; reflexivity).
  assert (Hits : forall wsl d,
             index_to_slices p (IdxInt i) = Ok (wsl, d) ->
             _item_to_slices p it = Ok (wsl, d :: rest)).
  { intros wsl d E. destruct Hit as [[-> ->] | ->];
      cbn [_item_to_slices]; now rewrite E. }
  assert (Hrow : forall S K d,
             0 <= S -> 0 <= d < K -> S + d = k ->
             nd_getitem (IdxInt d :: rest)
                        (mk_ndarray (K :: ss) (window (S * m) (K * m) es))
             = nd_index rest ss (block m es k)).
  { intros S K d HS Hd <-. unfold nd_getitem. cbn [nd_shape nd_flat nd_index].
    destruct (Z.ltb_spec d 0); [lia|].
    destruct (Z.leb_spec 0 d); [|lia]. destruct (Z.ltb_spec d K); [|lia].
    cbn [andb]. fold m. now rewrite block_of_window. }
  pose proof index_to_slices_int as Hi'.
  assert (Hvia : forall wsl d s n s' n',
             index_to_slices p (IdxInt i) = Ok (wsl, d) ->
             slice_list wsl (word_values w)
             = Ok (window s n (word_values w)) ->
             0 <= s -> 0 <= n -> s + n <= L ->
             0 <= s' -> 0 <= n' -> s' + n' <= ns ->
             s * c = cf * (s' * m) -> n * c = cf * (n' * m) ->
             getitem cls p it
             = nd_getitem (d :: rest)
                 (mk_ndarray (n' :: ss) (window (s' * m) (n' * m) es))).
  { intros wsl d s n s' n' E Hsl H1 H2 H3 H4 H5 H6 H7 H8.
    exact (getitem_via_slices cls w b ss cplx decoder Hb Hss Hdecoders Hww
             es Hview Hlen it wsl (d :: rest) s n s' n' Hw (Hits _ _ E)
             Hsl H1 H2 H3 H4 H5 H6 H7 H8). }
  destruct (Z.eqb_spec 1 ns) as [Hn|Hn].
  - (* the payload is one sample *)
    assert (k = 0) by lia.
    rewrite (Hvia _ _ 0 L 0 ns Hi'); try lia.
    + apply Hrow; lia.
    + unfold L. rewrite window_all. apply slice_list_all.
  - destruct Hsup as [Hsup | ?]; [|lia].
    unfold supported_layout in Hsup.
    change (_bpfs p) with bpfs in Hsup.
    change (8 * itemsize (words p)) with bpw in Hsup.
    destruct (Z.eqb_spec (bpfs mod bpw) 0) as [HA|HA].
    + (* a full sample takes whole words *)
      set (wpfs := bpfs / bpw) in *.
      assert (Ebpfs : bpfs = bpw * wpfs)
        by (unfold wpfs; apply Z.div_exact; lia).
      assert (Hwpfs : 0 < wpfs) by nia.
      assert (EL : L = ns * wpfs) by nia.
      assert (Ecm : wpfs * c = cf * m).
      { apply Z.mul_reg_r with (p := b); [lia|]. unfold bpfs in Ebpfs. nia. }
      rewrite (Hvia _ _ (k * wpfs) wpfs k 1 Hi'); try nia.
      * apply (Hrow k 1 0); lia.
      * apply slice_list_range; fold L; nia.
    + (* a word holds whole full samples *)
      cbn [orb] in Hsup.
      destruct (Z.eqb_spec (bpw mod bpfs) 0) as [HB|]; [|discriminate].
      assert (Ebpw : bpw = bpfs * fspw)
        by (unfold fspw; apply Z.div_exact; lia).
      assert (Hfspw : 0 < fspw) by nia.
      assert (Ens : ns = L * fspw) by nia.
      assert (Ecm : c = fspw * (cf * m)).
      { apply Z.mul_reg_r with (p := b); [lia|]. unfold bpfs in Ebpw. nia. }
      destruct (sample_in_word fspw L k Hfspw ltac:(lia))
        as (Hq0 & Hq1 & Hqr & Hr).
      set (q := k / fspw) in *. set (r := k mod fspw) in *.
      rewrite (Hvia _ _ q 1 (q * fspw) fspw Hi');
        [ apply (Hrow (q * fspw) fspw r); [nia | lia | lia]
        | apply slice_list_range; fold L; lia
        | lia | lia | lia
        | apply Z.mul_nonneg_nonneg; lia
        | lia
        | rewrite Ens; replace (q * fspw + fspw) with ((q + 1) * fspw) by ring;
          apply Z.mul_le_mono_nonneg_r; lia
        | rewrite Ecm; ring | rewrite Ecm; ring ].
Qed.
End IntegerIndex.

(** X1.  Take a payload of positive [bps], positive sample dimensions and
    words of positive size, whose decoder works word by word and whose
    decoding as a whole succeeds.  If the layout is one [_item_to_slices]
    addresses, or the payload is a single sample, then for every integer
    [i] with [-nsample <= i < nsample] the payload indexed with [i] is
    sample [i] of the whole decoded payload; a negative index counts from
    the end. *)
Theorem getitem_int_of_decoded {comp : Type} (cls : payload_class comp)
        (w : word_array) (b : Z) (ss : list Z) (cplx : bool) (p : Payload)
        (decoder : list Z -> list comp) (all : ndarray (elem comp))
        (ns i : Z) :
  init cls w b ss cplx = Ok p ->
  0 < b -> Forall (fun d => 0 < d) ss -> 0 < itemsize w ->
  _decoders cls b = Some decoder ->
  word_wise decoder b (8 * itemsize w) ->
  nsample p = Ok ns ->
  supported_layout p = true \/ ns = 1 ->
  getitem cls p (ItemTuple []) = Ok all ->
  - ns <= i < ns ->
  exists sample,
    getitem cls p (ItemOne (IdxInt i)) = Ok sample /\
    nd_getitem [IdxInt i] all = Ok sample.
Proof.
  intros Hinit Hb Hss Hisz Hdecoders Hww Hns Hsup Hall Hi.
  apply init_inv in Hinit. subst p.
  destruct (decode_all_inv cls w b ss cplx decoder Hb Hss Hisz Hdecoders Hww
                           all Hall) as (es & Hview & -> & Hlen & Hwords).
  rewrite (nsample_p w b ss cplx Hb Hss) in Hns. injection Hns as Hns.
  rewrite <- Hns in Hi, Hsup.
  exists (mk_ndarray ss
            (block (prod_shape ss) es
                   (if i <? 0
                    then i + Z.of_nat (length (word_values w)) * itemsize w * 8
                             / (b * floats_per_elem cplx * prod_shape ss)
                    else i))).
  split.
  - rewrite (getitem_int_rows cls w b ss cplx decoder Hb Hss Hisz Hdecoders
               Hww es Hview Hlen Hwords i Hi _ []);
      [reflexivity | left; split; reflexivity | exact Hsup].
  - unfold nd_getitem. cbn [nd_shape nd_flat nd_index].
    rewrite Hns.
    destruct (Z.ltb_spec i 0).
    + destruct (Z.leb_spec 0 (i + ns)); destruct (Z.ltb_spec (i + ns) ns);
        try lia. reflexivity.
    + destruct (Z.leb_spec 0 i); destruct (Z.ltb_spec i ns); try lia.
      reflexivity.
Qed.

(** X2.  An integer index outside [-nsample, nsample) raises IndexError,
    whatever the layout of the payload, alone or ahead of further indices:
    no word is decoded. *)
Theorem getitem_int_out_of_range {comp : Type} (cls : payload_class comp)
        (p : Payload) (decoder : list Z -> list comp) (ns i : Z)
        (rest : list index) :
  _decoders cls (_coder p) = Some decoder ->
  nsample p = Ok ns ->
  i < - ns \/ ns <= i ->
  getitem cls p (ItemOne (IdxInt i))
  = raise IndexError "{0} index out of range." /\
  getitem cls p (ItemTuple (IdxInt i :: rest))
  = raise IndexError "{0} index out of range.".
Proof.
  intros Hd Hns Hi.
  assert (E : index_to_slices p (IdxInt i)
              = raise IndexError "{0} index out of range.").
  { unfold index_to_slices, resolve_index. rewrite Hns.
    destruct (Z.ltb_spec i 0); cbn [rbind].
    - destruct (Z.leb_spec 0 (i + ns)); destruct (Z.ltb_spec (i + ns) ns);
        try lia; reflexivity.
    - destruct (Z.leb_spec 0 i); destruct (Z.ltb_spec i ns);
        try lia; reflexivity. }
  unfold getitem. rewrite Hd. cbn [rbind is_whole _item_to_slices].
  rewrite E. split; reflexivity.
Qed.

(** X3.  Indexing with a tuple that starts with an integer is indexing with
    the integer and then indexing the sample obtained with the rest of the
    tuple; this holds for every payload, errors included. *)
Theorem getitem_tuple_of_int {comp : Type} (cls : payload_class comp)
        (p : Payload) (i : Z) (rest : list index) :
  getitem cls p (ItemTuple (IdxInt i :: rest))
  = let* sample := getitem cls p (ItemOne (IdxInt i)) in
    nd_getitem rest sample.
Proof.
  unfold getitem.
  destruct (_decoders cls (_coder p)) as [decoder|]; [|reflexivity].
  cbn [rbind is_whole _item_to_slices].
  destruct (index_to_slices p (IdxInt i)) as [[wsl d]|e] eqn:E;
    [|reflexivity].
  cbn [rbind].
  destruct (slice_list wsl (word_values (words p))) as [ws|]; [|reflexivity].
  cbn [rbind].
  destruct (view (complex_data p) (decoder ws)) as [data|]; [|reflexivity].
  cbn [rbind].
  destruct (np_reshape (-1 :: sample_shape p) data) as [rows|]; [|reflexivity].
  cbn [rbind].
  assert (exists j, d = IdxInt j) as [j ->].
  { unfold index_to_slices in E.
    destruct (resolve_index p (IdxInt i)) as [[[[[sl st] sp] stp] n]|] eqn:R;
      [|discriminate].
    assert (sl = false) as ->.
    { unfold resolve_index in R.
      destruct (if i <? 0 then _ else _) as [k0|]; [|discriminate].
      cbn [rbind] in R. destruct (nsample p); [|discriminate].
      cbn [rbind] in R. destruct (negb _); [discriminate|].
      now injection R as <- _ _ _ _. }
    cbn [rbind] in E. destruct (nsample p); [|discriminate].
    cbn [rbind] in E. destruct (n =? _); [injection E as _ <-; eauto|].
    destruct (py_mod _ _); [|discriminate]. cbn [rbind] in E.
    destruct (_ =? 0).
    - destruct (py_floordiv _ _); [|discriminate]. cbn [rbind] in E.
      injection E as _ <-; eauto.
    - destruct (py_mod _ _); [|discriminate]. cbn [rbind] in E.
      destruct (_ =? 0); [|discriminate].
      destruct (py_floordiv _ _); [|discriminate]. cbn [rbind] in E.
      destruct (py_divmod st _) as [[? ?]|]; [|discriminate].
      cbn [rbind] in E.
      destruct (py_divmod sp _) as [[? ?]|]; [|discriminate].
      cbn [rbind] in E. injection E as _ <-; eauto. }
  unfold nd_getitem. destruct rows as [shp flat]. cbn [nd_shape nd_flat].
  destruct shp as [|d0 shp]; [reflexivity|].
  cbn [nd_index]. destruct (_ && _); reflexivity.
Qed.

(** * The words a slice needs *)

Lemma tight_whole_words bpw wpfs x :
  0 < bpw ->
  x * wpfs * bpw <= x * (bpw * wpfs) < (x * wpfs + 1) * bpw /\
  (x * wpfs - 1) * bpw < x * (bpw * wpfs) <= x * wpfs * bpw.
Proof.
  intros Hw. replace (x * (bpw * wpfs)) with (x * wpfs * bpw) by ring.
  generalize (x * wpfs). intros y. nia.
Qed.

Lemma tight_first_word bpfs fspw x :
  0 < bpfs -> 0 < fspw -> 0 <= x ->
  x / fspw * (bpfs * fspw) <= x * bpfs < (x / fspw + 1) * (bpfs * fspw).
Proof.
  intros Hb Hf Hx.
  pose proof (Z.div_mod x fspw ltac:(lia)) as E.
  pose proof (Z.mod_pos_bound x fspw Hf) as B.
  set (q := x / fspw) in *. set (r := x mod fspw) in *.
  rewrite E. split; nia.
Qed.

Lemma tight_last_word bpfs fspw x :
  0 < bpfs -> 0 < fspw -> 0 <= x ->
  let we := if x mod fspw =? 0 then x / fspw else x / fspw + 1 in
  (we - 1) * (bpfs * fspw) < x * bpfs <= we * (bpfs * fspw).
Proof.
  intros Hb Hf Hx.
  pose proof (Z.div_mod x fspw ltac:(lia)) as E.
  pose proof (Z.mod_pos_bound x fspw Hf) as B.
  set (q := x / fspw) in *. set (r := x mod fspw) in *. cbv zeta.
  destruct (Z.eqb_spec r 0) as [Hr|Hr]; rewrite E; split; nia.
Qed.

(** X4.  The words [_item_to_slices] asks for are the smallest range of
    whole words that holds the samples between the bounds of the slice: for
    a slice that resolves to [start < stop] and not to the whole payload,
    the word range [ws, we) returned is such that word [ws] holds the first
    bit of sample [start] and word [we - 1] the last bit of sample
    [stop - 1].  These are all the samples of a slice of step 1; the range
    is the same whatever the step, and so is not narrowed to the samples a
    larger step selects. *)
Theorem word_slice_is_tight (p : Payload) (sl : slice)
        (ns start stop step : Z) (wsl : slice) (dsl : list index) :
  0 < itemsize (words p) -> 0 < _bpfs p ->
  nsample p = Ok ns ->
  slice_indices sl ns = Ok (start, stop, step) ->
  0 <= start < stop ->
  stop - start <> ns ->
  _item_to_slices p (ItemOne (IdxSlice sl)) = Ok (wsl, dsl) ->
  let bpw := 8 * itemsize (words p) in
  exists ws we,
    wsl = mk_slice (Some ws) (Some we) None /\
    ws * bpw <= start * _bpfs p < (ws + 1) * bpw /\
    (we - 1) * bpw < stop * _bpfs p <= we * bpw.
Proof.
  intros Hisz Hbpfs Hns Hidx Hse Hn Hits bpw.
  assert (Hbpw : 0 < bpw) by (unfold bpw; lia).
  cbn [_item_to_slices] in Hits.
  destruct (index_to_slices p (IdxSlice sl)) as [[wsl' d]|] eqn:E;
    [|discriminate].
  cbn [rbind] in Hits. injection Hits as <- _.
  unfold index_to_slices, resolve_index in E. rewrite Hns in E.
  cbn [rbind] in E. rewrite Hidx in E. cbn [rbind] in E.
  destruct (Z.eqb_spec (stop - start) ns); [contradiction|].
  fold bpw in E. unfold py_mod, py_floordiv, py_divmod in E.
  destruct (Z.eqb_spec bpw 0); [lia|]. cbn [rbind] in E.
  destruct (Z.eqb_spec (_bpfs p mod bpw) 0) as [HA|HA].
  - cbn [rbind] in E. injection E as <- _.
    assert (Eb : _bpfs p = bpw * (_bpfs p / bpw))
      by (apply Z.div_exact; lia).
    set (wpfs := _bpfs p / bpw) in *.
    exists (start * wpfs), (stop * wpfs).
    split; [reflexivity|]. rewrite Eb.
    split; [apply (proj1 (tight_whole_words bpw wpfs start Hbpw))
           | apply (proj2 (tight_whole_words bpw wpfs stop Hbpw))].
  - destruct (Z.eqb_spec (_bpfs p) 0); [lia|]. cbn [rbind] in E.
    destruct (Z.eqb_spec (bpw mod _bpfs p) 0) as [HB|HB]; [|discriminate].
    assert (Eb : bpw = _bpfs p * (bpw / _bpfs p))
      by (apply Z.div_exact; lia).
    set (fspw := bpw / _bpfs p) in *.
    assert (Hf : 0 < fspw) by nia.
    destruct (Z.eqb_spec fspw 0); [lia|]. cbn [rbind] in E.
    injection E as <- _.
    eexists _, _. split; [reflexivity|]. rewrite Eb. split.
    + apply tight_first_word; lia.
    + apply (tight_last_word (_bpfs p) fspw stop); lia.
Qed.

Lemma getitem_int_of_decoded_witness :
  exists sample,
    getitem Examples.example_class Examples.payload_2bit
            (ItemOne (IdxInt (-3))) = Ok sample /\
    nd_getitem [IdxInt (-3)]
               (mk_ndarray [80] (map EReal (Examples.unpack 2
                  (word_values Examples.words5)))) = Ok sample.
Proof.
  apply (getitem_int_of_decoded
           Examples.example_class Examples.words5 2 [] false
           Examples.payload_2bit (Examples.unpack 2) _ 80 (-3)).
  - reflexivity.
  - lia.
  - constructor.
  - reflexivity.
  - reflexivity.
  - apply unpack_word_wise; [lia | now exists 16].
  - reflexivity.
  - now left.
  - reflexivity.
  - lia.
Defined.

Lemma getitem_int_out_of_range_witness :
  getitem Examples.example_class Examples.payload_20bit (ItemOne (IdxInt 8))
  = raise IndexError "{0} index out of range." /\
  getitem Examples.example_class Examples.payload_20bit
          (ItemTuple [IdxInt 8; IdxInt 0])
  = raise IndexError "{0} index out of range.".
Proof.
  apply (getitem_int_out_of_range
           Examples.example_class Examples.payload_20bit
           (Examples.unpack 4) 8 8 [IdxInt 0]).
  - reflexivity.
  - reflexivity.
  - lia.
Defined.

Lemma word_slice_is_tight_witness :
  exists ws we,
    mk_slice (Some 0) (Some 2) None = mk_slice (Some ws) (Some we) None /\
    ws * 32 <= 3 * 2 < (ws + 1) * 32 /\
    (we - 1) * 32 < 21 * 2 <= we * 32.
Proof.
  apply (word_slice_is_tight
           Examples.payload_2bit (mk_slice (Some 3) (Some 21) None)
           80 3 21 1 (mk_slice (Some 0) (Some 2) None)
           [IdxSlice (mk_slice (Some 3) (Some 21) None)]).
  - reflexivity.
  - reflexivity.
  - reflexivity.
  - reflexivity.
  - lia.
  - lia.
  - reflexivity.
Defined.

(** * Payloads to and from a file *)

Lemma le_bytes_length n w : length (le_bytes n w) = n.
Proof. revert w. induction n as [|n IH]; intros w; cbn; [|rewrite IH]; reflexivity. Qed.

Lemma le_value_le_bytes n w :
  0 <= w < 256 ^ Z.of_nat n -> le_value (le_bytes n w) = w.
Proof.
  revert w. induction n as [|n IH]; intros w Hw.
  - cbn in *. lia.
  - cbn [le_bytes le_value]. rewrite IH.
    + pose proof (Z.div_mod w 256 ltac:(lia)). lia.
    + rewrite Nat2Z.inj_succ, Z.pow_succ_r in Hw by lia.
      split; [apply Z.div_pos; lia|].
      apply Z.div_lt_upper_bound; lia.
Qed.

Lemma le_bytes_le_value bs :
  Forall (fun x => 0 <= x < 256) bs -> le_bytes (length bs) (le_value bs) = bs.
Proof.
  induction 1 as [|x bs Hx _ IH]; [reflexivity|].
  cbn [length le_bytes le_value].
  replace ((x + 256 * le_value bs) mod 256) with x.
  2:{ rewrite (Z.mul_comm 256), Z.mod_add by lia.
      now rewrite Z.mod_small. }
  replace ((x + 256 * le_value bs) / 256) with (le_value bs).
  2:{ rewrite (Z.mul_comm 256), Z.div_add by lia.
      rewrite (Z.div_small x) by lia. lia. }
  now rewrite IH.
Qed.

Lemma flat_map_le_bytes_length k ws :
  length (flat_map (le_bytes k) ws) = (length ws * k)%nat.
Proof.
  induction ws as [|x ws IH]; [reflexivity|].
  cbn [flat_map length]. rewrite length_app, le_bytes_length, IH. lia.
Qed.

Lemma tostring_length ws :
  0 <= itemsize ws ->
  Z.of_nat (length (tostring ws))
  = Z.of_nat (length (word_values ws)) * itemsize ws.
Proof.
  intros H. unfold tostring. rewrite flat_map_le_bytes_length. lia.
Qed.

(** The words of the bytes of words are the words. *)
Lemma buffer_words_le_bytes k ws :
  Forall (fun x => 0 <= x < 256 ^ Z.of_nat k) ws ->
  buffer_words (length ws) k (flat_map (le_bytes k) ws) = ws.
Proof.
  induction 1 as [|x ws Hx _ IH]; [reflexivity|].
  cbn [length buffer_words flat_map].
  rewrite firstn_app, le_bytes_length, Nat.sub_diag, firstn_O, app_nil_r.
  rewrite firstn_all2 by (rewrite le_bytes_length; lia).
  rewrite skipn_app, le_bytes_length, Nat.sub_diag, skipn_O.
  rewrite skipn_all2 by (rewrite le_bytes_length; lia).
  cbn [app]. now rewrite le_value_le_bytes, IH.
Qed.

(** The bytes of the words of a buffer of whole words are the buffer. *)
Lemma le_bytes_buffer_words count k s :
  Forall (fun x => 0 <= x < 256) s -> length s = (count * k)%nat ->
  flat_map (le_bytes k) (buffer_words count k s) = s.
Proof.
  revert s. induction count as [|count IH]; intros s Hs Hlen.
  - destruct s; [reflexivity | discriminate].
  - cbn [buffer_words flat_map].
    assert (Hk : length (firstn k s) = k) by (rewrite length_firstn; lia).
    rewrite <- Hk at 1. rewrite le_bytes_le_value.
    2:{ rewrite <- (firstn_skipn k s) in Hs. now apply Forall_app in Hs. }
    rewrite IH.
    + apply firstn_skipn.
    + rewrite <- (firstn_skipn k s) in Hs. now apply Forall_app in Hs.
    + rewrite length_skipn. lia.
Qed.

Lemma buffer_words_length count k s : length (buffer_words count k s) = count.
Proof.
  revert s. induction count as [|count IH]; intros s; cbn;
    [|rewrite IH]; reflexivity.
Qed.

(** What was written at a position is what is read from it. *)
Lemma read_back (old s : list Z) (p : nat) :
  firstn (length s)
         (skipn p ((firstn p old ++ repeat 0 (p - length old))
                     ++ s ++ skipn (p + length s) old))
  = s.
Proof.
  assert (Hb : length (firstn p old ++ repeat 0 (p - length old)) = p)
    by (rewrite length_app, length_firstn, repeat_length; lia).
  rewrite skipn_app, Hb, Nat.sub_diag, skipn_O.
  rewrite skipn_all2 by lia. cbn [app].
  rewrite firstn_app, Nat.sub_diag, firstn_O, app_nil_r.
  apply firstn_all2. lia.
Qed.

(** [np.frombuffer] on the bytes of words gives the words back. *)
Lemma np_frombuffer_tostring ws :
  0 < itemsize ws ->
  Forall (fun x => 0 <= x < 256 ^ itemsize ws) (word_values ws) ->
  np_frombuffer (tostring ws) (itemsize ws) = Ok ws.
Proof.
  intros Hi Hr. unfold np_frombuffer.
  rewrite tostring_length by lia.
  destruct (Z.leb_spec (itemsize ws) 0); [lia|].
  rewrite Z.mod_mul by lia. cbn [Z.eqb negb].
  rewrite Z.div_mul by lia. rewrite Nat2Z.id.
  unfold tostring. rewrite buffer_words_le_bytes.
  - now destruct ws.
  - eapply Forall_impl; [|exact Hr]. cbn. intros x. now rewrite Z2Nat.id by lia.
Qed.

(** [fromfile] when the file holds the bytes asked for. *)
Lemma fromfile_run {comp : Type} (cls : payload_class comp)
      (payloadsize : option Z) (b : Z) (ss : list Z) (cplx : bool)
      (fh : binfile) (evs : list event) (n : Z) :
  size_to_read cls payloadsize = Some n ->
  0 <= n ->
  Z.of_nat (length (window (bf_pos fh) n (bf_bytes fh))) = n ->
  fromfile cls payloadsize b ss cplx (mk_world fh evs)
  = Some (let* words := np_frombuffer (window (bf_pos fh) n (bf_bytes fh))
                                      (_dtype_word cls) in
          init cls words b ss cplx,
          mk_world (mk_binfile (bf_bytes fh) (bf_pos fh + n)) evs).
Proof.
  intros Hn Hn0 Hlen. unfold fromfile. unfold size_to_read in Hn.
  rewrite Hn. unfold bind, bf_read. cbn [obj events].
  destruct (Z.ltb_spec n 0); [lia|].
  fold (window (bf_pos fh) n (bf_bytes fh)).
  rewrite Hlen, Z.ltb_irrefl. unfold lift.
  destruct (np_frombuffer _ _) as [ws|e]; reflexivity.
Qed.

(** X5.  A payload written to a file and read back from where it was
    written, with its own size or with the size its class fixes, is the
    payload written, provided its words fit their item size; the handle
    ends just after the payload. *)
Theorem tofile_fromfile_round_trip {comp : Type} (cls : payload_class comp)
        (w : word_array) (b : Z) (ss : list Z) (cplx : bool) (p : Payload)
        (payloadsize : option Z) (fh : binfile) (evs : list event) :
  init cls w b ss cplx = Ok p ->
  0 < itemsize w ->
  Forall (fun x => 0 <= x < 256 ^ itemsize w) (word_values w) ->
  0 <= bf_pos fh ->
  match payloadsize with
  | Some n => n = size p
  | None => _size cls <> None
  end ->
  exists fh',
    (tofile p ;;; bf_seek (bf_pos fh) ;;;
     fromfile cls payloadsize b ss cplx)%M (mk_world fh evs)
    = Some (Ok p, mk_world fh' evs) /\
    bf_pos fh' = bf_pos fh + size p /\
    window (bf_pos fh) (size p) (bf_bytes fh') = tostring (words p).
Proof.
  intros Hinit Hi Hr Hpos Hps.
  pose proof (init_inv cls w b ss cplx p Hinit) as Ep.
  assert (Ew : words p = w) by (now subst p).
  assert (Hsz : size p = Z.of_nat (length (tostring w))).
  { unfold size. rewrite Ew. now rewrite tostring_length by lia. }
  assert (Heff : size_to_read cls payloadsize = Some (size p)).
  { unfold size_to_read. destruct payloadsize as [n|]; [now subst n|].
    unfold init in Hinit. destruct (_size cls) as [sz|]; [|contradiction].
    destruct (Z.eqb_spec sz
                (size (mk_payload w ss b cplx
                         (b * (if cplx then 2 else 1) * prod_shape ss) b)))
      as [E|]; [|discriminate].
    f_equal. rewrite E. now subst p. }
  assert (Ed : _dtype_word cls = itemsize w).
  { unfold init in Hinit.
    destruct (match _size cls with Some _ => _ | None => _ end);
      [discriminate|].
    destruct (Z.eqb_spec (itemsize w) (_dtype_word cls)); [easy|discriminate]. }
  set (p0 := Z.to_nat (bf_pos fh)).
  set (bytes' := (firstn p0 (bf_bytes fh)
                    ++ repeat 0 (p0 - length (bf_bytes fh)))
                   ++ tostring w
                   ++ skipn (p0 + length (tostring w)) (bf_bytes fh)).
  assert (Hwin : window (bf_pos fh) (size p) bytes' = tostring w).
  { unfold window. rewrite Hsz, Nat2Z.id. apply read_back. }
  assert (Hlen : bf_pos fh + size p <= Z.of_nat (length bytes')).
  { unfold bytes'. rewrite !length_app, length_firstn, repeat_length.
    rewrite Hsz. lia. }
  exists (mk_binfile bytes' (bf_pos fh + size p)).
  split; [|split; [reflexivity | cbn [bf_bytes]; now rewrite Ew]].
  unfold bind at 1. unfold tofile, bf_write. cbn [obj events]. rewrite Ew.
  fold p0. fold bytes'.
  unfold bind at 1. unfold bf_seek. cbn [obj events bf_bytes].
  destruct (Z.ltb_spec (bf_pos fh) 0); [lia|].
  rewrite (fromfile_run cls payloadsize b ss cplx _ evs (size p) Heff);
    cbn [bf_pos bf_bytes];
    [| lia | rewrite Hwin; lia].
  rewrite Hwin, Ed, np_frombuffer_tostring by assumption.
  cbn [rbind]. now rewrite Hinit.
Qed.

Lemma Forall_window {A : Type} (P : A -> Prop) (l : list A) pos n :
  Forall P l -> Forall P (window pos n l).
Proof.
  intros H. unfold window.
  rewrite <- (firstn_skipn (Z.to_nat pos) l) in H.
  apply Forall_app in H as [_ H].
  rewrite <- (firstn_skipn (Z.to_nat n) (skipn (Z.to_nat pos) l)) in H.
  now apply Forall_app in H.
Qed.

(** The bytes a read of [n] bytes returns. *)
Lemma window_short_length {A : Type} (l : list A) pos n :
  0 <= pos -> 0 <= n ->
  Z.of_nat (length (window pos n l))
  = Z.min n (Z.max 0 (Z.of_nat (length l) - pos)).
Proof.
  intros Hp Hn. unfold window. rewrite length_firstn, length_skipn. lia.
Qed.

(** X6.  When [fromfile] returns a payload, it has read exactly the bytes
    asked for and nothing else of the file has changed: the payload has
    that size, the handle is that many bytes further, and, the bytes of the
    file being bytes, the words of the payload written out are those very
    bytes. *)
Theorem fromfile_reads_payloadsize {comp : Type} (cls : payload_class comp)
        (payloadsize : option Z) (b : Z) (ss : list Z) (cplx : bool)
        (fh : binfile) (evs : list event) (n : Z) (p : Payload)
        (w' : world binfile) :
  size_to_read cls payloadsize = Some n ->
  0 <= n -> 0 <= bf_pos fh ->
  Forall (fun x => 0 <= x < 256) (bf_bytes fh) ->
  fromfile cls payloadsize b ss cplx (mk_world fh evs) = Some (Ok p, w') ->
  size p = n /\
  w' = mk_world (mk_binfile (bf_bytes fh) (bf_pos fh + n)) evs /\
  tostring (words p) = window (bf_pos fh) n (bf_bytes fh).
Proof.
  intros Hn Hn0 Hpos Hbytes Hrun.
  set (s := window (bf_pos fh) n (bf_bytes fh)).
  assert (Hlen : Z.of_nat (length s) = n).
  { pose proof (window_short_length (bf_bytes fh) (bf_pos fh) n Hpos Hn0)
      as Hl. fold s in Hl.
    destruct (Z.ltb_spec (Z.of_nat (length s)) n) as [Hlt|]; [|lia].
    exfalso. unfold fromfile in Hrun. unfold size_to_read in Hn.
    rewrite Hn in Hrun. unfold bind, bf_read in Hrun.
    cbn [obj events] in Hrun.
    destruct (Z.ltb_spec n 0); [lia|].
    fold (window (bf_pos fh) n (bf_bytes fh)) in Hrun. fold s in Hrun.
    destruct (Z.ltb_spec (Z.of_nat (length s)) n); [|lia].
    discriminate. }
  rewrite (fromfile_run cls payloadsize b ss cplx fh evs n Hn Hn0 Hlen)
    in Hrun.
  fold s in Hrun. injection Hrun as Hres <-.
  unfold np_frombuffer in Hres.
  destruct (Z.leb_spec (_dtype_word cls) 0) as [|Hd]; [discriminate|].
  destruct (Z.eqb_spec (Z.of_nat (length s) mod _dtype_word cls) 0)
    as [Hmod|]; [|discriminate].
  cbn [negb rbind] in Hres. apply init_inv in Hres. subst p.
  rewrite Hlen in *.
  assert (En : n = _dtype_word cls * (n / _dtype_word cls))
    by (apply Z.div_exact; lia).
  assert (Hq : 0 <= n / _dtype_word cls) by (apply Z.div_pos; lia).
  unfold size, tostring. cbn [words word_values itemsize].
  rewrite buffer_words_length.
  split; [lia|]. split; [reflexivity|].
  apply le_bytes_buffer_words.
  - now apply Forall_window.
  - nia.
Qed.

(** X7.  When fewer bytes than asked for are left in the file, [fromfile]
    raises EOFError, and by then it has consumed what was left: the handle
    is at the end of the file (or where it was, if that was past the
    end). *)
Theorem fromfile_short_file {comp : Type} (cls : payload_class comp)
        (payloadsize : option Z) (b : Z) (ss : list Z) (cplx : bool)
        (fh : binfile) (evs : list event) (n : Z) :
  size_to_read cls payloadsize = Some n ->
  0 <= bf_pos fh ->
  Z.max 0 (Z.of_nat (length (bf_bytes fh)) - bf_pos fh) < n ->
  fromfile cls payloadsize b ss cplx (mk_world fh evs)
  = Some (raise EOFError "Could not read full payload.",
          mk_world (mk_binfile (bf_bytes fh)
                               (Z.max (bf_pos fh)
                                      (Z.of_nat (length (bf_bytes fh)))))
                   evs).
Proof.
  intros Hn Hpos Hshort. unfold fromfile. unfold size_to_read in Hn.
  rewrite Hn. unfold bind, bf_read. cbn [obj events].
  destruct (Z.ltb_spec n 0); [lia|].
  fold (window (bf_pos fh) n (bf_bytes fh)).
  rewrite window_short_length by lia.
  destruct (Z.ltb_spec
              (Z.min n (Z.max 0 (Z.of_nat (length (bf_bytes fh)) - bf_pos fh)))
              n); [|lia].
  unfold throw. do 3 f_equal. f_equal. lia.
Qed.

Lemma tofile_fromfile_round_trip_witness :
  exists fh',
    (tofile IOExamples.payload_fixed ;;; bf_seek 2 ;;;
     fromfile IOExamples.fixed_class None 2 [] false)%M
      (mk_world IOExamples.file10 [])
    = Some (Ok IOExamples.payload_fixed, mk_world fh' []) /\
    bf_pos fh' = 2 + 8 /\
    window 2 8 (bf_bytes fh') = tostring IOExamples.words2.
Proof.
  apply (tofile_fromfile_round_trip
           IOExamples.fixed_class IOExamples.words2 2 [] false
           IOExamples.payload_fixed None IOExamples.file10 []).
  - reflexivity.
  - reflexivity.
  - repeat constructor; cbn; lia.
  - cbn; lia.
  - discriminate.
Defined.

Lemma fromfile_reads_payloadsize_witness :
  size IOExamples.payload_fixed = 8 /\
  mk_world (mk_binfile [120; 86; 52; 18; 33; 67; 101; 135; 9; 10] 8) []
  = mk_world (mk_binfile [120; 86; 52; 18; 33; 67; 101; 135; 9; 10] (0 + 8))
             [] /\
  tostring (words IOExamples.payload_fixed)
  = window 0 8 [120; 86; 52; 18; 33; 67; 101; 135; 9; 10].
Proof.
  apply (fromfile_reads_payloadsize
           IOExamples.fixed_class None 2 [] false
           (mk_binfile [120; 86; 52; 18; 33; 67; 101; 135; 9; 10] 0) [] 8
           IOExamples.payload_fixed).
  - reflexivity.
  - lia.
  - cbn; lia.
  - repeat constructor; lia.
  - reflexivity.
Defined.

Lemma fromfile_short_file_witness :
  fromfile IOExamples.fixed_class (Some 16) 2 [] false
           (mk_world IOExamples.file10 [])
  = Some (raise EOFError "Could not read full payload.",
          mk_world (mk_binfile [1; 2; 3; 4; 5; 6; 7; 8; 9; 10]
                               (Z.max 2 (Z.of_nat 10))) []).
Proof.
  apply (fromfile_short_file
           IOExamples.fixed_class (Some 16) 2 [] false IOExamples.file10 []
           16).
  - reflexivity.
  - cbn; lia.
  - cbn; lia.
Defined.

(** * The opener *)

Section OpenerFacts.
Variables Obj KW : Type.
Variable io_open : string -> string -> result filehandle.
Variable classes : string -> list (string * KW) -> M filehandle Obj.

(** X8.  When [open] is given a file name and raises, it leaves no file
    open behind: either it had opened nothing, or the handle it had
    opened is closed. *)
Theorem open_failure_leaves_no_open_file
        (path mode : string) (kwargs : list (string * KW))
        (evs : list event) (exc : exn) (w' : world file_arg) :
  open Obj KW io_open classes (FileName path) mode kwargs evs
  = Some (Raise exc, w') ->
  match obj w' with
  | FileName _ => w' = mk_world (FileName path) evs
  | FileHandle fh => fh_closed fh = true
  end.
Proof.
  unfold open, construct.
  destruct (contains "b" mode && _); [now intros [= <- <-]|].
  destruct (contains "w" mode).
  - destruct (io_open path "w+b") as [fh|e]; [|now intros [= <- <-]].
    destruct (classes _ kwargs _) as [[[o|e] w1]|]; try discriminate.
    now intros [= <- <-].
  - destruct (contains "r" mode); [|now intros [= <- <-]].
    destruct (io_open path "rb") as [fh|e]; [|now intros [= <- <-]].
    destruct (classes _ kwargs _) as [[[o|e] w1]|]; try discriminate.
    now intros [= <- <-].
Qed.

(** X9.  [open] does nothing of its own to a handle it is given: whether
    it returns or raises, the handle is as the class called left it, or
    untouched if no class was called. *)
Theorem open_keeps_callers_handle
        (fh : filehandle) (mode : string) (kwargs : list (string * KW))
        (evs : list event) (r : result Obj) (w' : world file_arg) :
  open Obj KW io_open classes (FileHandle fh) mode kwargs evs
  = Some (r, w') ->
  w' = mk_world (FileHandle fh) evs \/
  exists cls_type w1,
    classes cls_type kwargs (mk_world fh evs) = Some (r, w1) /\
    w' = mk_world (FileHandle (obj w1)) (events w1).
Proof.
  unfold open, construct.
  destruct (contains "b" mode && _); [intros [= <- <-]; now left|].
  destruct (contains "w" mode).
  - destruct (classes _ kwargs _) as [[[o|e] w1]|] eqn:E; try discriminate;
      intros [= <- <-]; right; eauto.
  - destruct (contains "r" mode); [|intros [= <- <-]; now left].
    destruct (classes _ kwargs _) as [[[o|e] w1]|] eqn:E; try discriminate;
      intros [= <- <-]; right; eauto.
Qed.
End OpenerFacts.

Lemma open_failure_leaves_no_open_file_witness :
  exists exc w',
    open Stream Z IOExamples.one_file IOExamples.reader_classes
         (FileName "short.vdif") "rs" [] []
    = Some (Raise exc, w') /\
    match obj w' with
    | FileName _ => w' = mk_world (FileName "short.vdif") []
    | FileHandle fh => fh_closed fh = true
    end.
Proof.
  eexists _, _. split.
  - vm_compute. reflexivity.
  - apply (open_failure_leaves_no_open_file
             Stream Z IOExamples.one_file IOExamples.reader_classes
             "short.vdif" "rs" [] []
             (mk_exn EOFError ["could not read full header"%string;
                               msg_not_detected])).
    vm_compute. reflexivity.
Defined.

Lemma open_keeps_callers_handle_witness :
  exists r w',
    open Stream Z IOExamples.one_file IOExamples.reader_classes
         (FileHandle Examples.file3) "rs" [] []
    = Some (r, w') /\
    (w' = mk_world (FileHandle Examples.file3) [] \/
     exists cls_type w1,
       IOExamples.reader_classes cls_type [] (mk_world Examples.file3 [])
       = Some (r, w1) /\
       w' = mk_world (FileHandle (obj w1)) (events w1)).
Proof.
  eexists _, _. split.
  - vm_compute. reflexivity.
  - apply (open_keeps_callers_handle
             Stream Z IOExamples.one_file IOExamples.reader_classes
             Examples.file3 "rs" [] []).
    vm_compute. reflexivity.
Defined.

(** * Closing a writer, whatever its write does *)

Lemma sample_shape_of_fh_raw (s : Stream) :
  fh_raw (snd (sample_shape_of s)) = fh_raw s.
Proof.
  unfold sample_shape_of. destruct (_squeeze s); [|reflexivity].
  destruct (_squeezed_shape s) as [[|d shp]|]; reflexivity.
Qed.

(** X10.  Whatever the format's [write] does, when [close] returns the file
    is closed, the close is the last event, and the offset is on a frame
    boundary. *)
Theorem close_returns_closed_and_aligned
        (write : ndarray Q -> bool -> M Stream unit)
        (w w' : world Stream) :
  close write w = Some (Ok tt, w') ->
  fh_closed (fh_raw (obj w')) = true /\
  offset (obj w') mod samples_per_frame (obj w') = 0 /\
  exists evs, events w' = evs ++ [EvClose].
Proof.
  unfold close, bind, get, lift. cbn [obj events].
  unfold py_mod at 1.
  destruct (Z.eqb_spec (samples_per_frame (obj w)) 0); [discriminate|].
  cbn [rbind]. destruct (Z.eqb_spec (offset (obj w) mod samples_per_frame (obj w)) 0)
    as [He|He].
  - cbn [negb]. unfold ret, VLBIFileBase_close, bind, get, put, emit.
    cbn [obj events]. intros [= <-]. cbn [obj events].
    destruct (obj w); cbn. repeat split; eauto.
  - cbn [negb]. unfold warn, emit. cbn [obj events].
    destruct (sample_shape_of (obj w)) as [shp s1]. cbn [obj events].
    destruct (np_zeros _) as [zeros|]; [|discriminate].
    unfold call_write, bind, emit. cbn [obj events].
    destruct (write zeros true _) as [[[[]|] w2]|]; try discriminate.
    unfold py_mod.
    destruct (Z.eqb_spec (samples_per_frame (obj w2)) 0); [discriminate|].
    destruct (Z.eqb_spec (offset (obj w2) mod samples_per_frame (obj w2)) 0)
      as [Ha|]; [|discriminate].
    unfold ret, VLBIFileBase_close, get, put. cbn [obj events].
    intros [= <-]. cbn [obj events].
    destruct (obj w2); cbn in *. repeat split; eauto.
Qed.

Lemma close_returns_closed_and_aligned_witness :
  exists w',
    close Examples.counting_write (mk_world Examples.writer5 [])
    = Some (Ok tt, w') /\
    fh_closed (fh_raw (obj w')) = true /\
    offset (obj w') mod samples_per_frame (obj w') = 0 /\
    exists evs, events w' = evs ++ [EvClose].
Proof.
  eexists. split.
  - vm_compute. reflexivity.
  - apply (close_returns_closed_and_aligned
             Examples.counting_write (mk_world Examples.writer5 [])).
    vm_compute. reflexivity.
Defined.

(** X11.  [close] closes the file last: when it raises, whether for a frame
    size of zero, a sample shape that gives no array, a [write] that fails
    or one that leaves the offset off a frame boundary, the file is left as
    it was, open if it was open. *)
Theorem close_raises_before_closing
        (write : ndarray Q -> bool -> M Stream unit)
        (w w' : world Stream) (e : exn) :
  keeps_file_open_or_closed write ->
  close write w = Some (Raise e, w') ->
  fh_closed (fh_raw (obj w')) = fh_closed (fh_raw (obj w)).
Proof.
  intros Hwrite. unfold close, bind, get, lift. cbn [obj events].
  unfold py_mod at 1.
  destruct (Z.eqb_spec (samples_per_frame (obj w)) 0);
    [now intros [= <- <-]|].
  cbn [rbind]. destruct (Z.eqb_spec (offset (obj w) mod samples_per_frame (obj w)) 0)
    as [He|He].
  - cbn [negb]. unfold ret, VLBIFileBase_close, bind, get, put, emit.
    discriminate.
  - cbn [negb]. unfold warn, emit. cbn [obj events].
    pose proof (sample_shape_of_fh_raw (obj w)) as Hfh.
    destruct (sample_shape_of (obj w)) as [shp s1]. cbn [obj events snd] in *.
    destruct (np_zeros _) as [zeros|];
      [|intros [= <- <-]; cbn [obj]; now rewrite Hfh].
    unfold call_write, bind, emit. cbn [obj events].
    destruct (write zeros true _) as [[r w2]|] eqn:Hw; [|discriminate].
    apply Hwrite in Hw. cbn [obj] in Hw.
    destruct r as [[]|e']; [|intros [= <- <-]; congruence].
    unfold py_mod.
    destruct (Z.eqb_spec (samples_per_frame (obj w2)) 0);
      [intros [= <- <-]; congruence|].
    destruct (Z.eqb_spec (offset (obj w2) mod samples_per_frame (obj w2)) 0)
      as [Ha|].
    + unfold ret, VLBIFileBase_close, get, put. discriminate.
    + unfold throw. intros [= <- <-]. congruence.
Qed.

Lemma failing_write_keeps_file :
  keeps_file_open_or_closed IOExamples.failing_write.
Proof. intros data inv w r w' [= _ <-]. reflexivity. Qed.

Lemma close_raises_before_closing_witness :
  exists e w',
    close IOExamples.failing_write (mk_world Examples.writer5 [])
    = Some (Raise e, w') /\
    fh_closed (fh_raw (obj w')) = fh_closed (fh_raw Examples.writer5).
Proof.
  eexists _, _. split.
  - vm_compute. reflexivity.
  - apply (close_raises_before_closing
             IOExamples.failing_write (mk_world Examples.writer5 []) _
             (mk_exn OSError ["No space left on device"%string])
             failing_write_keeps_file).
    vm_compute. reflexivity.
Defined.

(** * The file as a context manager *)




(** * Seeking *)

Lemma same_but_file_and_cache_refl (s : Stream) :
  same_but_file_and_cache s s.
Proof. destruct s. reflexivity. Qed.

Lemma same_but_file_and_cache_trans (s1 s2 s3 : Stream) :
  same_but_file_and_cache s1 s2 -> same_but_file_and_cache s2 s3 ->
  same_but_file_and_cache s1 s3.
Proof.
  unfold same_but_file_and_cache. intros H12 H23.
  rewrite H23. rewrite H12. reflexivity.
Qed.

Lemma same_but_file_and_cache_offset (s s' : Stream) :
  same_but_file_and_cache s s' -> offset s' = offset s.
Proof. intros ->. reflexivity. Qed.

(** What [_last_header] does when it has nothing stored: it goes one frame
    back from the end of the raw file, runs [find_header] there, and puts
    the raw file back where it was. *)
Lemma last_header_run (c : collaborators) (s : Stream) (evs : list event) :
  cached_last_header s = None ->
  _last_header c (mk_world s evs)
  = let fh := fh_raw s in
    let target := total_size (fh_frames fh) + - framesize (_header0 s) in
    if target <? 0
    then Some (raise OSError "Invalid argument", mk_world s evs)
    else
      match find_header c (_header0 s) (10 * framesize (_header0 s)) false
                        (mk_world (mk_fh (fh_frames fh) target
                                         (fh_closed fh)) evs) with
      | None => None
      | Some (Raise e, wf) =>
          Some (Raise e, mk_world (set_fh_raw s (obj wf)) (events wf))
      | Some (Ok found, wf) =>
          if fh_pos fh <? 0
          then Some (raise OSError "Invalid argument",
                     mk_world (set_fh_raw s (obj wf)) (events wf))
          else
            let fh' := mk_fh (fh_frames (obj wf)) (fh_pos fh)
                             (fh_closed (obj wf)) in
            match found with
            | None => Some (raise ValueError msg_no_frame,
                            mk_world (set_fh_raw s fh') (events wf))
            | Some h =>
                Some (Ok h,
                      mk_world (set_cached_last_header (set_fh_raw s fh') h)
                               (events wf))
            end
      end.
Proof.
  intros Hc. unfold _last_header, bind, get. cbn [obj events].
  rewrite Hc. unfold on_fh_raw, bind, fh_tell, fh_seek.
  cbn [obj events fh_raw fh_pos fh_frames fh_closed].
  change (2 =? 1) with false. change (2 =? 2) with true. cbv iota.
  destruct (total_size (fh_frames (fh_raw s)) + - framesize (_header0 s) <? 0);
    [destruct s; reflexivity|].
  cbn [obj events fh_frames fh_closed].
  destruct (find_header c _ _ _ _) as [[[found|e] wf]|]; try reflexivity.
  cbn [obj events]. change (0 =? 1) with false. change (0 =? 2) with false.
  cbv iota.
  destruct (fh_pos (fh_raw s) <? 0); [reflexivity|].
  destruct found as [h|]; reflexivity.
Qed.

Lemma last_header_frame (c : collaborators) (w w' : world Stream)
      (r : result Header) :
  _last_header c w = Some (r, w') ->
  same_but_file_and_cache (obj w) (obj w').
Proof.
  destruct w as [s evs]. cbn [obj].
  destruct (cached_last_header s) as [h|] eqn:Hc.
  - unfold _last_header, bind, get, ret. cbn [obj events]. rewrite Hc.
    intros [= _ <-]. apply same_but_file_and_cache_refl.
  - rewrite (last_header_run c s evs Hc). cbv zeta.
    destruct (_ <? 0);
      [intros [= _ <-]; apply same_but_file_and_cache_refl|].
    destruct (find_header c _ _ _ _) as [[[found|e] wf]|]; try discriminate.
    + destruct (fh_pos (fh_raw s) <? 0);
        [intros [= _ <-]; destruct s; reflexivity|].
      destruct found; intros [= _ <-]; destruct s; reflexivity.
    + intros [= _ <-]. destruct s; reflexivity.
Qed.

Lemma stop_time_frame (c : collaborators) (w w' : world Stream)
      (r : result Time) :
  stop_time c w = Some (r, w') ->
  same_but_file_and_cache (obj w) (obj w') /\
  forall t, r = Ok t -> cached_stop_time (obj w') = Some t.
Proof.
  unfold stop_time, bind, get. cbn [obj events].
  destruct (cached_stop_time (obj w)) as [t0|] eqn:Hc.
  - unfold ret. intros [= <- <-]. split.
    + apply same_but_file_and_cache_refl.
    + now intros t [= <-].
  - destruct (_last_header c w) as [[[h|e] wl]|] eqn:Hl; try discriminate.
    + apply last_header_frame in Hl. unfold lift.
      destruct (rbind _ _) as [t|e].
      * unfold put, ret. cbn [obj events]. intros [= <- <-]. cbn [obj].
        split; [|now intros t' [= <-]].
        eapply same_but_file_and_cache_trans; [exact Hl|].
        destruct (obj wl); reflexivity.
      * intros [= <- <-]. split; [exact Hl | discriminate].
    + apply last_header_frame in Hl.
      intros [= <- <-]. split; [exact Hl | discriminate].
Qed.

Lemma stream_size_frame (c : collaborators) (w w' : world Stream)
      (r : result Z) :
  stream_size c w = Some (r, w') ->
  same_but_file_and_cache (obj w) (obj w').
Proof.
  unfold stream_size, bind, get, lift. cbn [obj events].
  destruct (stop_time c w) as [[[t|e] ws]|] eqn:Hs; try discriminate.
  - apply stop_time_frame in Hs as [Hs _]. now intros [= _ <-].
  - apply stop_time_frame in Hs as [Hs _]. now intros [= _ <-].
Qed.

Lemma seek_target_whence (c : collaborators) (s : Stream)
      (offset' : seek_offset) (whence whence' : whence_arg) (n : Z) :
  seek_target c s offset' whence = Ok (n, whence') ->
  whence' = whence \/ whence' = WhenceInt 0.
Proof.
  destruct offset' as [k|d|t]; cbn [seek_target].
  - intros [= _ <-]. now left.
  - destruct (to_samples _); [|discriminate]. intros [= _ <-]. now left.
  - destruct (time_sub c t _).
    + destruct (timedelta_mul c _ _); [|discriminate]. cbn [rbind].
      destruct (to_samples _); [|discriminate]. intros [= _ <-]. now right.
    + destruct (time_mul c _ _); [|discriminate]. cbn [rbind].
      destruct (to_samples _); [|discriminate]. intros [= _ <-]. now left.
Qed.

(** X13.  A seek that raises has not moved the offset: the stream is as it
    was, but for the raw file and for what the lazy properties have stored
    when the size of the stream was asked for.  When [whence] is not 2 or
    ['end'] nothing at all has changed; and a seek by an integer raises
    only for a [whence] it does not know, with a ValueError, or for the
    size. *)
Theorem seek_failure_leaves_stream (c : collaborators)
        (offset' : seek_offset) (whence : whence_arg)
        (w w' : world Stream) (e : exn) :
  seek c offset' whence w = Some (Raise e, w') ->
  offset (obj w') = offset (obj w) /\
  same_but_file_and_cache (obj w) (obj w') /\
  (whence_is whence 2 "end" = false -> w' = w) /\
  (forall n, offset' = OffsetSamples n ->
             whence_is whence 2 "end" = false ->
             whence_is whence 0 "start" = false /\
             whence_is whence 1 "current" = false /\
             e = mk_exn ValueError [msg_whence]).
Proof.
  intros Hseek.
  assert (Hmain :
            same_but_file_and_cache (obj w) (obj w') /\
            (whence_is whence 2 "end" = false -> w' = w) /\
            (forall n, offset' = OffsetSamples n ->
                       whence_is whence 2 "end" = false ->
                       whence_is whence 0 "start" = false /\
                       whence_is whence 1 "current" = false /\
                       e = mk_exn ValueError [msg_whence])).
  { revert Hseek. unfold seek, bind, get, lift. cbn [obj events].
    destruct (seek_target c (obj w) offset' whence) as [[n wh]|e0] eqn:Ht.
    - pose proof (seek_target_whence c _ _ _ _ _ Ht) as Hwh.
      destruct (whence_is wh 0 "start") eqn:H0; [discriminate|].
      destruct (whence_is wh 1 "current") eqn:H1; [discriminate|].
      destruct (whence_is wh 2 "end") eqn:H2.
      + destruct Hwh as [-> | ->]; [|discriminate].
        destruct (stream_size c w) as [[[size|e1] ws]|] eqn:Hs;
          try discriminate.
        intros [= <- <-]. apply stream_size_frame in Hs.
        split; [exact Hs|]. split; [congruence|]. intros; congruence.
      + unfold throw, raise. intros [= <- <-].
        split; [apply same_but_file_and_cache_refl|].
        split; [reflexivity|].
        intros k -> Hend. cbn [seek_target] in Ht. injection Ht as _ <-.
        now rewrite H0, H1.
    - intros [= <- <-]. split; [apply same_but_file_and_cache_refl|].
      split; [reflexivity|]. intros k ->. discriminate Ht. }
  split; [|exact Hmain].
  apply same_but_file_and_cache_offset, Hmain.
Qed.

Lemma seek_failure_leaves_stream_witness :
  offset Examples.writer5 = offset Examples.writer5 /\
  same_but_file_and_cache Examples.writer5 Examples.writer5 /\
  (whence_is (WhenceInt 7) 2 "end" = false ->
   mk_world Examples.writer5 [] = mk_world Examples.writer5 []) /\
  (forall n, OffsetSamples 3 = OffsetSamples n ->
             whence_is (WhenceInt 7) 2 "end" = false ->
             whence_is (WhenceInt 7) 0 "start" = false /\
             whence_is (WhenceInt 7) 1 "current" = false /\
             mk_exn ValueError [msg_whence] = mk_exn ValueError [msg_whence]).
Proof.
  apply (seek_failure_leaves_stream
           Examples.example_collaborators
           (OffsetSamples 3) (WhenceInt 7)
           (mk_world Examples.writer5 [])
           (mk_world Examples.writer5 [])).
  reflexivity.
Defined.

(** X14.  Seeks relative to the current offset add up: seeking by [a] and
    then by [b] is seeking by [a + b]. *)
Theorem seek_current_adds (c : collaborators) (a b : Z)
        (w : world Stream) :
  (seek c (OffsetSamples a) (WhenceInt 1) ;;;
   seek c (OffsetSamples b) (WhenceInt 1))%M w
  = seek c (OffsetSamples (a + b)) (WhenceInt 1) w /\
  (seek c (OffsetSamples a) (WhenceStr "current") ;;;
   seek c (OffsetSamples b) (WhenceStr "current"))%M w
  = seek c (OffsetSamples (a + b)) (WhenceStr "current") w.
Proof.
  destruct w as [s evs].
  split; unfold seek, bind, get, put, ret, lift;
    cbn [obj events whence_is seek_target];
    cbn; unfold set_offset; cbn;
    rewrite Z.add_assoc; reflexivity.
Qed.

(** * The end of the file *)

(** X24.  [_last_header], with nothing stored yet and the raw file at a
    position that is not negative, looks for the last header from one frame
    before the end of the raw file.  On a file shorter than a frame it
    raises OSError, without having searched or moved.  Otherwise, when
    [find_header] returns, the raw file is back at the position it had,
    whether a header was found or not: a header found is returned and
    stored; with none found, a ValueError says that the file is corrupt,
    and nothing is stored. *)
Theorem last_header_restores_position (c : collaborators) (s : Stream)
        (evs : list event) :
  cached_last_header s = None ->
  0 <= fh_pos (fh_raw s) ->
  let fh := fh_raw s in
  let target := total_size (fh_frames fh) + - framesize (_header0 s) in
  (target < 0 ->
   _last_header c (mk_world s evs)
   = Some (raise OSError "Invalid argument", mk_world s evs)) /\
  (forall found wf,
      0 <= target ->
      find_header c (_header0 s) (10 * framesize (_header0 s)) false
                  (mk_world (mk_fh (fh_frames fh) target (fh_closed fh)) evs)
      = Some (Ok found, wf) ->
      exists r w',
        _last_header c (mk_world s evs) = Some (r, w') /\
        fh_pos (fh_raw (obj w')) = fh_pos fh /\
        offset (obj w') = offset s /\
        events w' = events wf /\
        cached_last_header (obj w') = found /\
        r = match found with
            | Some h => Ok h
            | None => raise ValueError msg_no_frame
            end).
Proof.
  intros Hc Hpos fh target. rewrite (last_header_run c s evs Hc).
  cbv zeta. subst fh target.
  destruct (Z.ltb_spec (total_size (fh_frames (fh_raw s))
                        + - framesize (_header0 s)) 0) as [Hlt|Hge].
  - split; [reflexivity|]. intros found wf Ht. lia.
  - split; [intros Ht; lia|]. intros found wf _ Hfind. rewrite Hfind.
    destruct (Z.ltb_spec (fh_pos (fh_raw s)) 0) as [Hneg|_]; [lia|].
    destruct found as [h|]; eexists _, _; (split; [reflexivity|]);
      cbn; repeat split; auto.
Qed.

Lemma last_header_restores_position_witness :
  (7 * 8032 + - 8032 < 0 ->
   _last_header Examples.example_collaborators
                (mk_world IOExamples.reader7 [])
   = Some (raise OSError "Invalid argument",
           mk_world IOExamples.reader7 [])) /\
  (forall found wf,
      0 <= 7 * 8032 + - 8032 ->
      find_header Examples.example_collaborators
                  (Examples.header_of 0 100) (10 * 8032) false
                  (mk_world (mk_fh (fh_frames Examples.file7)
                                   (7 * 8032 + - 8032) false) [])
      = Some (Ok found, wf) ->
      exists r w',
        _last_header Examples.example_collaborators
                     (mk_world IOExamples.reader7 []) = Some (r, w') /\
        fh_pos (fh_raw (obj w')) = 0 /\
        offset (obj w') = 0 /\
        events w' = events wf /\
        cached_last_header (obj w') = found /\
        r = match found with
            | Some h => Ok h
            | None => raise ValueError msg_no_frame
            end).
Proof.
  apply (last_header_restores_position
           Examples.example_collaborators IOExamples.reader7 []).
  - reflexivity.
  - vm_compute. discriminate.
Defined.



(** X26.  A seek by a quantity that gives no number of samples raises and
    leaves the stream as it was: a quantity whose unit times that of the
    sample rate is not dimensionless raises the conversion error of the
    units; a product that is infinite raises OverflowError, and one that is
    not a number raises ValueError, whatever [whence] is. *)
Theorem seek_duration_errors (c : collaborators) (s : Stream)
        (evs : list event) (d : Quantity) (whence : whence_arg) :
  let product := quantity_mul d (sample_rate s) in
  (unit_power (q_unit product) <> 0 ->
   seek c (OffsetDuration d) whence (mk_world s evs)
   = Some (raise UnitConversionError "units are not convertible",
           mk_world s evs)) /\
  (forall one sign,
      quantity_to product u_one = Ok one ->
      q_value one = S754_infinity sign ->
      seek c (OffsetDuration d) whence (mk_world s evs)
      = Some (raise OverflowError "cannot convert float infinity to integer",
              mk_world s evs)) /\
  (forall one,
      quantity_to product u_one = Ok one ->
      q_value one = S754_nan ->
      seek c (OffsetDuration d) whence (mk_world s evs)
      = Some (raise ValueError "cannot convert float NaN to integer",
              mk_world s evs)).
Proof.
  intros product.
  assert (Hint : forall one,
             quantity_to product u_one = Ok one ->
             to_samples product = f64_int (f64_rint (q_value one))).
  { intros one Hto. unfold to_samples. rewrite Hto. cbn [rbind].
    unfold quantity_to in Hto.
    destruct (conversion (q_unit product) u_one); [|discriminate].
    cbn [rbind] in Hto. injection Hto as <-.
    unfold quantity_int, quantity_round. cbn [q_unit q_value].
    change (conversion u_one u_one) with (Ok (f64_div f64_one f64_one)).
    unfold f64_scale at 1.
    replace (f64_eqb (f64_div f64_one f64_one) f64_one) with true
      by (vm_compute; reflexivity).
    reflexivity. }
  split; [|split].
  - intros Hp. unfold seek, bind, get, lift. cbn [obj events seek_target].
    fold product. unfold to_samples, quantity_to, conversion.
    change (unit_power u_one) with 0.
    destruct (Z.eqb_spec (unit_power (q_unit product)) 0); [contradiction|].
    reflexivity.
  - intros one sign Hto Hv. unfold seek, bind, get, lift.
    cbn [obj events seek_target]. fold product.
    rewrite (Hint one Hto), Hv. reflexivity.
  - intros one Hto Hv. unfold seek, bind, get, lift.
    cbn [obj events seek_target]. fold product.
    rewrite (Hint one Hto), Hv. reflexivity.
Qed.

Lemma seek_duration_errors_witness :
  (-1 + -1 <> 0 ->
   seek Examples.example_collaborators (OffsetDuration Examples.rate32)
        (WhenceInt 0) (mk_world Examples.reader_5Hz [])
   = Some (raise UnitConversionError "units are not convertible",
           mk_world Examples.reader_5Hz [])) /\
  (forall one sign,
      quantity_to (quantity_mul Examples.rate32
                                (sample_rate Examples.reader_5Hz)) u_one
      = Ok one ->
      q_value one = S754_infinity sign ->
      seek Examples.example_collaborators (OffsetDuration Examples.rate32)
           (WhenceInt 0) (mk_world Examples.reader_5Hz [])
      = Some (raise OverflowError "cannot convert float infinity to integer",
              mk_world Examples.reader_5Hz [])) /\
  (forall one,
      quantity_to (quantity_mul Examples.rate32
                                (sample_rate Examples.reader_5Hz)) u_one
      = Ok one ->
      q_value one = S754_nan ->
      seek Examples.example_collaborators (OffsetDuration Examples.rate32)
           (WhenceInt 0) (mk_world Examples.reader_5Hz [])
      = Some (raise ValueError "cannot convert float NaN to integer",
              mk_world Examples.reader_5Hz [])).
Proof.
  apply (seek_duration_errors
           Examples.example_collaborators Examples.reader_5Hz []
           Examples.rate32 (WhenceInt 0)).
Defined.

(** * Shapes *)

Lemma prod_shape_app (a b : list Z) :
  prod_shape (a ++ b) = prod_shape a * prod_shape b.
Proof.
  induction a as [|d a IH]; cbn [app].
  - change (prod_shape []) with 1. lia.
  - rewrite !prod_shape_cons, IH. ring.
Qed.

Lemma list_insert_one (l : list Z) (i : Z) :
  Forall (fun d => 0 <= d) l ->
  Forall (fun d => 0 <= d) (list_insert l i 1) /\
  prod_shape (list_insert l i 1) = prod_shape l /\
  length (list_insert l i 1) = S (length l).
Proof.
  intros H. unfold list_insert.
  rewrite <- (firstn_skipn (Z.to_nat i) l) in H at 1.
  apply Forall_app in H as [H1 H2].
  split; [|split].
  - apply Forall_app. split; [assumption|]. constructor; [lia | assumption].
  - rewrite prod_shape_app, prod_shape_cons, Z.mul_1_l, <- prod_shape_app.
    now rewrite firstn_skipn.
  - rewrite length_app. cbn [length].
    rewrite <- (firstn_skipn (Z.to_nat i) l) at 3. rewrite length_app. lia.
Qed.

(** The loop of [_unsqueeze] only inserts unit dimensions, one for each
    unit dimension of the sample shape. *)
Lemma unsqueeze_loop_inserts (ps : list (Z * Z)) :
  forall acc : list Z,
    Forall (fun d => 0 <= d) acc ->
    let r := fold_left (fun new_shape '(i, dim) =>
                          if dim =? 1 then list_insert new_shape (i + 1) 1
                          else new_shape) ps acc in
    Forall (fun d => 0 <= d) r /\
    prod_shape r = prod_shape acc /\
    length r = (length acc + count_occ Z.eq_dec (map snd ps) 1%Z)%nat.
Proof.
  induction ps as [|[i dim] ps IH]; intros acc Hacc; cbn [fold_left map snd].
  - cbn. repeat split; [assumption | lia].
  - cbn [count_occ]. destruct (Z.eqb_spec dim 1) as [->|Hne].
    + destruct (list_insert_one acc (i + 1) Hacc) as (H1 & H2 & H3).
      destruct (IH _ H1) as (I1 & I2 & I3). cbv zeta in *.
      destruct (Z.eq_dec 1 1); [|contradiction].
      repeat split; [assumption | congruence | lia].
    + destruct (IH _ Hacc) as (I1 & I2 & I3). cbv zeta in *.
      destruct (Z.eq_dec dim 1); [contradiction|].
      repeat split; assumption.
Qed.

Lemma map_snd_enumerate {A : Type} (l : list A) : map snd (enumerate l) = l.
Proof.
  unfold enumerate. generalize 0%nat.
  induction l as [|x l IH]; intros n; [reflexivity|].
  cbn [length seq map combine snd]. now rewrite IH.
Qed.

(** X18.  [_unsqueeze] changes only the shape of the array it is given,
    never its elements or their order, and it always succeeds on an array
    whose buffer fits its shape: it inserts one unit dimension for every
    unit dimension of the sample shape of the stream, whether or not the
    array had been squeezed. *)
Theorem unsqueeze_keeps_elements {A : Type} (s : Stream) (data : ndarray A) :
  Forall (fun d => 0 <= d) (nd_shape data) ->
  Z.of_nat (length (nd_flat data)) = prod_shape (nd_shape data) ->
  exists shp,
    _unsqueeze s data = Ok (mk_ndarray shp (nd_flat data)) /\
    prod_shape shp = prod_shape (nd_shape data) /\
    length shp = (length (nd_shape data)
                  + count_occ Z.eq_dec (_sample_shape s) 1%Z)%nat.
Proof.
  intros Hnn Hlen.
  destruct (unsqueeze_loop_inserts (enumerate (_sample_shape s))
                                   (nd_shape data) Hnn) as (H1 & H2 & H3).
  cbv zeta in *. rewrite map_snd_enumerate in H3.
  fold (unsqueezed_shape (_sample_shape s) (nd_shape data)) in H1, H2, H3.
  exists (unsqueezed_shape (_sample_shape s) (nd_shape data)).
  split; [|split; assumption].
  unfold _unsqueeze. rewrite np_reshape_known by assumption.
  now rewrite H2, Hlen, Z.eqb_refl.
Qed.

Lemma unsqueeze_keeps_elements_witness :
  exists shp,
    _unsqueeze Examples.writer5 (mk_ndarray [3; 2; 1] [1; 2; 3; 4; 5; 6])
    = Ok (mk_ndarray shp [1; 2; 3; 4; 5; 6]) /\
    prod_shape shp = prod_shape [3; 2; 1] /\
    length shp = (3 + 1)%nat.
Proof.
  apply (unsqueeze_keeps_elements
           Examples.writer5 (mk_ndarray [3; 2; 1] [1; 2; 3; 4; 5; 6])).
  - repeat constructor; lia.
  - reflexivity.
Defined.

(** X19.  The sample shape a stream reports is stable: reading it again
    gives the same shape and changes nothing more, the squeezed shape
    stored stays the squeezed form of the sample shape, and, the
    dimensions being at least 1, a sample has as many elements squeezed as
    not. *)
Theorem sample_shape_is_stable (s : Stream) :
  squeezed_shape_ok s ->
  Forall (fun d => 1 <= d) (_sample_shape s) ->
  let shp := fst (sample_shape_of s) in
  let s1 := snd (sample_shape_of s) in
  sample_shape_of s1 = (shp, s1) /\
  squeezed_shape_ok s1 /\
  prod_shape shp = prod_shape (_sample_shape s).
Proof.
  intros Hok Hpos. cbv zeta. unfold squeezed_shape_ok in Hok.
  pose proof (prod_shape_squeezed _ Hpos) as Hprod.
  destruct (sample_shape_of s) as [shp s1] eqn:E. cbn [fst snd].
  unfold sample_shape_of in E.
  destruct (_squeeze s) eqn:Hsq.
  - assert (Hrecompute :
              forall sqz, sqz = filter (fun dim => dim >? 1) (_sample_shape s) ->
              sample_shape_of (set_squeezed_shape s sqz)
              = (sqz, set_squeezed_shape s sqz)).
    { intros sqz Hs. unfold sample_shape_of.
      cbn [_squeeze _squeezed_shape _sample_shape set_squeezed_shape].
      rewrite Hsq, <- Hs. destruct sqz; reflexivity. }
    destruct (_squeezed_shape s) as [[|d shp0]|] eqn:Hc; injection E as <- <-.
    + split; [now apply Hrecompute|]. split; [|exact Hprod].
      unfold squeezed_shape_ok. reflexivity.
    + split; [|split].
      * unfold sample_shape_of. now rewrite Hsq, Hc.
      * unfold squeezed_shape_ok. now rewrite Hc.
      * now rewrite Hok.
    + split; [now apply Hrecompute|]. split; [|exact Hprod].
      unfold squeezed_shape_ok. reflexivity.
  - injection E as <- <-.
    unfold sample_shape_of, squeezed_shape_ok. rewrite Hsq.
    repeat split. exact Hok.
Qed.

Lemma sample_shape_is_stable_witness :
  let shp := fst (sample_shape_of Examples.writer5) in
  let s1 := snd (sample_shape_of Examples.writer5) in
  sample_shape_of s1 = (shp, s1) /\
  squeezed_shape_ok s1 /\
  prod_shape shp = prod_shape [2; 1].
Proof.
  apply (sample_shape_is_stable Examples.writer5).
  - exact I.
  - repeat constructor; lia.
Defined.

(** * The detector on any file *)

(** What a successful detection leaves. *)
Lemma get_frame_rate_success (frames : list Header) (closed : bool)
      (evs : list event) (pre fs : list Header) (rate : Z)
      (w' : world filehandle) :
  wf_frames frames ->
  frames = pre ++ fs ->
  _get_frame_rate (fh_at frames closed evs (total_size pre))
  = Some (Ok rate, w') ->
  obj w' = mk_fh frames (total_size pre) closed /\
  (events w' = evs \/ events w' = evs ++ [EvWarn msg_time_jump]).
Proof.
  intros Hwf Hfr.
  rewrite (get_frame_rate_run frames closed evs Hwf pre fs Hfr).
  destruct (scan_frames fs) as [|r h2]; [discriminate|].
  intros [= _ <-]. cbn [obj events]. split; [reflexivity|].
  destruct (seconds h2 =? _); [left; apply app_nil_r | now right].
Qed.

(** X20.  On a file of well-formed frames read from the start of a frame,
    the detector always comes to an end, in one of two ways: it returns a
    rate, the handle back where it was and at most the warning of a jump in
    time emitted; or it raises EOFError, the handle left at the end of the
    file. *)
Theorem frame_rate_outcomes (frames : list Header) (closed : bool)
        (evs : list event) (pre fs : list Header) :
  wf_frames frames ->
  frames = pre ++ fs ->
  (exists rate evs',
      _get_frame_rate (fh_at frames closed evs (total_size pre))
      = Some (Ok rate, fh_at frames closed evs' (total_size pre)) /\
      (evs' = evs \/ evs' = evs ++ [EvWarn msg_time_jump])) \/
  _get_frame_rate (fh_at frames closed evs (total_size pre))
  = Some (Raise eof_error, fh_at frames closed evs (total_size frames)).
Proof.
  intros Hwf Hfr.
  rewrite (get_frame_rate_run frames closed evs Hwf pre fs Hfr).
  destruct (scan_frames fs) as [|r h2]; [now right|].
  left. eexists _, _. split; [reflexivity|].
  destruct (seconds h2 =? _); [left; apply app_nil_r | now right].
Qed.

Lemma frame_rate_outcomes_witness :
  (exists rate evs',
      _get_frame_rate (fh_at (fh_frames Examples.file7) false []
                             (total_size (firstn 2 (fh_frames Examples.file7))))
      = Some (Ok rate,
              fh_at (fh_frames Examples.file7) false evs'
                    (total_size (firstn 2 (fh_frames Examples.file7)))) /\
      (evs' = [] \/ evs' = [] ++ [EvWarn msg_time_jump])) \/
  _get_frame_rate (fh_at (fh_frames Examples.file7) false []
                         (total_size (firstn 2 (fh_frames Examples.file7))))
  = Some (Raise eof_error,
          fh_at (fh_frames Examples.file7) false []
                (total_size (fh_frames Examples.file7))).
Proof.
  apply (frame_rate_outcomes
           (fh_frames Examples.file7) false []
           (firstn 2 (fh_frames Examples.file7))
           (skipn 2 (fh_frames Examples.file7))).
  - repeat constructor; cbn; lia.
  - reflexivity.
Defined.

Lemma fold_max_out (l : list Z) (a x : Z) :
  fold_right Z.max (Z.max x a) l = Z.max x (fold_right Z.max a l).
Proof.
  induction l as [|y l IH]; cbn [fold_right]; [reflexivity|].
  rewrite IH. lia.
Qed.

Lemma max_frame_fold (l : list Header) (a : Z) :
  fold_left (fun m h => Z.max (frame_nr h) m) l a
  = fold_right Z.max a (frame_numbers l).
Proof.
  revert a. induction l as [|h l IH]; intros a; [reflexivity|].
  cbn [fold_left frame_numbers map fold_right]. rewrite IH.
  apply fold_max_out.
Qed.

Lemma drop_while_run (nr0 : Z) (run tail : list Header) (h : Header) :
  Forall (fun x => frame_nr x = nr0) run ->
  frame_nr h <> nr0 ->
  drop_while (fun x => frame_nr x =? nr0) (run ++ h :: tail) = h :: tail.
Proof.
  intros Hrun Hh. induction Hrun as [|x run Hx _ IH]; cbn [app drop_while].
  - destruct (Z.eqb_spec (frame_nr h) nr0); [contradiction | reflexivity].
  - destruct (Z.eqb_spec (frame_nr x) nr0); [exact IH | contradiction].
Qed.

(** X21.  The rate the detector returns is one more than the largest frame
    number among the first frame and the frames it scans.  Take the frames
    from the handle on: the first and those that follow with its frame
    number (the other threads of the frame), then frames of positive frame
    number, the first of them numbered otherwise than the first frame, then
    a frame whose number is not positive.  The detector returns that rate,
    warns exactly when the second of the frame it stops at is not the one
    after the second of the first frame, and puts the handle back. *)
Theorem frame_rate_is_largest_frame_number_plus_one
        (frames : list Header) (closed : bool) (evs : list event)
        (pre run scanned rest : list Header) (h0 h2 : Header) :
  wf_frames frames ->
  frames = pre ++ (h0 :: run) ++ scanned ++ h2 :: rest ->
  Forall (fun h => frame_nr h = frame_nr h0) run ->
  Forall (fun h => 0 < frame_nr h) scanned ->
  frame_nr (hd h2 scanned) <> frame_nr h0 ->
  frame_nr h2 <= 0 ->
  _get_frame_rate (fh_at frames closed evs (total_size pre))
  = Some (Ok (fold_right Z.max (frame_nr h0) (frame_numbers scanned) + 1),
          fh_at frames closed
                (evs ++ if seconds h2 =? seconds h0 + 1 then []
                        else [EvWarn msg_time_jump])
                (total_size pre)).
Proof.
  intros Hwf Hfr Hrun Hscanned Hhd Hh2.
  rewrite (get_frame_rate_run frames closed evs Hwf pre _ Hfr).
  unfold scan_frames. cbn [app].
  assert (Hdrop : drop_while (fun h => frame_nr h =? frame_nr h0)
                             (h0 :: run ++ scanned ++ h2 :: rest)
                  = scanned ++ h2 :: rest).
  { cbn [drop_while]. rewrite Z.eqb_refl.
    destruct scanned as [|c scanned'].
    - cbn [app hd] in *. now apply drop_while_run.
    - cbn [app hd] in *. now apply drop_while_run. }
  rewrite Hdrop.
  destruct (while_positive_prefix scanned h2 rest Hscanned Hh2)
    as [Hd Ht].
  rewrite Hd, Ht, max_frame_fold. cbn [hd]. reflexivity.
Qed.

Lemma frame_rate_is_largest_frame_number_plus_one_witness :
  _get_frame_rate (fh_at (fh_frames Examples.file7) false []
                         (total_size (firstn 2 (fh_frames Examples.file7))))
  = Some (Ok (fold_right Z.max 2 [3] + 1),
          fh_at (fh_frames Examples.file7) false
                ([] ++ if 101 =? 100 + 1 then [] else [EvWarn msg_time_jump])
                (total_size (firstn 2 (fh_frames Examples.file7)))).
Proof.
  apply (frame_rate_is_largest_frame_number_plus_one
           (fh_frames Examples.file7) false []
           (firstn 2 (fh_frames Examples.file7)) []
           [Examples.header_of 3 100]
           (skipn 5 (fh_frames Examples.file7))
           (Examples.header_of 2 100) (Examples.header_of 0 101)).
  - repeat constructor; cbn; lia.
  - reflexivity.
  - constructor.
  - repeat constructor.
  - cbn; lia.
  - cbn; lia.
Defined.

(** X22.  A stream reader that detects its sample rate is the reader built
    with that rate given.  When the detector returns the rate [R]:
    if [samples_per_frame * (R Hz)] is had in MHz, a quantity [q], the
    constructor without a sample rate returns the stream the constructor
    returns when given [q], at offset 0, with nothing stored yet and with
    its raw file where it was; if not (an integer too large for a float64),
    the constructor raises that error with the hint to pass a sample rate
    added. *)
Theorem reader_init_with_detected_rate
        (frames : list Header) (closed : bool) (evs : list event)
        (pre fs : list Header) (rate : Z) (w' : world filehandle)
        (header0 : Header) (sample_shape : list Z) (bps : Z)
        (complex_data : bool) (thread_ids : option (list Z))
        (samples_per_frame : Z) (squeeze : bool) :
  wf_frames frames ->
  frames = pre ++ fs ->
  _get_frame_rate (fh_at frames closed evs (total_size pre))
  = Some (Ok rate, w') ->
  match (let* frame_rate := int_mul_unit rate u_Hz in
         let* r := int_mul_quantity samples_per_frame frame_rate in
         quantity_to r u_MHz) with
  | Ok q =>
      exists s,
        VLBIStreamReaderBase_init header0 sample_shape bps complex_data
                                  thread_ids samples_per_frame None squeeze
                                  (fh_at frames closed evs (total_size pre))
        = Some (Ok s, w') /\
        VLBIStreamReaderBase_init header0 sample_shape bps complex_data
                                  thread_ids samples_per_frame (Some q)
                                  squeeze
                                  (fh_at frames closed evs (total_size pre))
        = Some (Ok s, fh_at frames closed evs (total_size pre)) /\
        offset s = 0 /\
        sample_rate s = q /\
        cached_stop_time s = None /\
        fh_raw s = mk_fh frames (total_size pre) closed
  | Raise exc =>
      VLBIStreamReaderBase_init header0 sample_shape bps complex_data
                                thread_ids samples_per_frame None squeeze
                                (fh_at frames closed evs (total_size pre))
      = Some (Raise (mk_exn (exn_kind_of exc)
                            (exn_args exc ++ [msg_not_detected])),
              w')
  end.
Proof.
  intros Hwf Hfr Hrun.
  destruct (get_frame_rate_success frames closed evs pre fs rate w'
                                   Hwf Hfr Hrun) as [Hobj _].
  destruct (rbind (int_mul_unit rate u_Hz) _) as [q|exc] eqn:Hq.
  - assert (Hset : set_sample_rate q = Ok q).
    { destruct (int_mul_unit rate u_Hz) as [fr|]; [|discriminate].
      cbn [rbind] in Hq.
      destruct (int_mul_quantity samples_per_frame fr) as [r|] eqn:Hr;
        [|discriminate].
      cbn [rbind] in Hq. unfold int_mul_quantity in Hr.
      destruct (f64_of_int samples_per_frame); [|discriminate].
      cbn [rbind] in Hr. injection Hr as <-.
      unfold int_mul_unit in *. unfold quantity_to in Hq.
      cbn [q_unit q_value] in Hq.
      destruct (conversion _ u_MHz); [|discriminate].
      cbn [rbind] in Hq. injection Hq as <-.
      reflexivity. }
    eexists. unfold VLBIStreamReaderBase_init, bind, reraise_with, ret, get,
               lift.
    rewrite Hrun, Hq. cbn [obj events fh_at]. rewrite Hobj.
    unfold VLBIStreamBase_init. rewrite Hset. cbn [rbind].
    repeat split.
  - unfold VLBIStreamReaderBase_init, bind, reraise_with, ret, get, lift.
    rewrite Hrun, Hq. reflexivity.
Qed.

Lemma reader_init_with_detected_rate_witness :
  exists s,
    VLBIStreamReaderBase_init (Examples.header_of 0 100) [1] 2 false None 8
                              None true
                              (fh_at (fh_frames Examples.file7) false [] 0)
    = Some (Ok s, mk_world Examples.file7 []) /\
    VLBIStreamReaderBase_init (Examples.header_of 0 100) [1] 2 false None 8
                              (Some (mk_quantity (f64_lit 4722366482869645
                                                          (-67))
                                                 u_MHz))
                              true
                              (fh_at (fh_frames Examples.file7) false [] 0)
    = Some (Ok s, fh_at (fh_frames Examples.file7) false [] 0) /\
    offset s = 0 /\
    sample_rate s = mk_quantity (f64_lit 4722366482869645 (-67)) u_MHz /\
    cached_stop_time s = None /\
    fh_raw s = mk_fh (fh_frames Examples.file7) 0 false.
Proof.
  exact (reader_init_with_detected_rate
           (fh_frames Examples.file7) false [] [] (fh_frames Examples.file7)
           4 (mk_world Examples.file7 [])
           (Examples.header_of 0 100) [1] 2 false None 8 true
           ltac:(repeat constructor; cbn; lia)
           ltac:(reflexivity)
           ltac:(reflexivity)).
Defined.

(** * Slices with a step *)

(** Indexing the leading axis with a slice: the rows at its positions. *)
Lemma nd_index_slice_rows {A : Type} (s : slice) d shape (flat : list A)
      a e k :
  slice_indices s d = Ok (a, e, k) ->
  nd_index [IdxSlice s] (d :: shape) flat
  = Ok (mk_ndarray (Z.of_nat (length (slice_positions a e k)) :: shape)
                   (concat (map (block (prod_shape shape) flat)
                                (slice_positions a e k)))).
Proof.
  intros H. cbn [nd_index]. rewrite H. cbn [rbind].
  rewrite (mapM_Ok (fun x => mk_ndarray shape (block (prod_shape shape) flat x))).
  cbn [rbind nd_shape]. now rewrite map_map.
Qed.

(** How a slice of positive step resolves. *)
Lemma slice_indices_pos_step a e st len k :
  0 <= len -> 0 < k ->
  st = Some k \/ st = None /\ k = 1 ->
  slice_indices (mk_slice a e st) len
  = Ok (match a with None => 0 | Some i => clip_index len i end,
        match e with None => len | Some i => clip_index len i end, k).
Proof.
  intros Hlen Hk Hst. unfold slice_indices, clip_index. cbn [sl_step sl_start sl_stop].
  assert (E : match st with None => 1 | Some k0 => k0 end = k)
    by (destruct Hst as [-> | [-> ->]]; reflexivity).
  rewrite E.
  destruct (Z.ltb_spec len 0); [lia|].
  destruct (Z.eqb_spec k 0); [lia|].
  destruct (Z.ltb_spec k 0); [lia|]. reflexivity.
Qed.

Lemma slice_indices_pos_bounds sl len start stop k :
  slice_indices sl len = Ok (start, stop, k) -> 0 < k ->
  0 <= len /\ 0 <= start <= len /\ 0 <= stop <= len /\
  (sl_step sl = Some k \/ sl_step sl = None /\ k = 1).
Proof.
  unfold slice_indices. intros H Hk.
  destruct (Z.ltb_spec len 0); [discriminate|].
  destruct (Z.eqb_spec (match sl_step sl with None => 1 | Some k0 => k0 end) 0);
    [discriminate|].
  injection H as Hs He Hst.
  assert (Hst' : sl_step sl = Some k \/ sl_step sl = None /\ k = 1)
    by (destruct (sl_step sl); [left; congruence | right; split; congruence]).
  rewrite Hst in *.
  destruct (Z.ltb_spec k 0); [lia|].
  repeat split; try assumption;
    (destruct (sl_start sl) as [i|]; destruct (sl_stop sl) as [j|];
     repeat match goal with
            | H : context [?x <? 0] |- _ => destruct (Z.ltb_spec x 0)
            end; lia).
Qed.

Lemma slice_positions_empty a e k :
  0 < k -> e <= a -> slice_positions a e k = [].
Proof.
  intros Hk H. unfold slice_positions, slice_length.
  destruct (Z.ltb_spec k 0); [lia|]. destruct (Z.ltb_spec a e); [lia|].
  reflexivity.
Qed.

Lemma slice_positions_shift S a e k :
  slice_positions (S + a) (S + e) k = map (Z.add S) (slice_positions a e k).
Proof.
  unfold slice_positions, slice_length. rewrite map_map.
  replace (S + e <? S + a) with (e <? a)
    by (destruct (Z.ltb_spec e a); destruct (Z.ltb_spec (S + e) (S + a)); lia).
  replace (S + a <? S + e) with (a <? e)
    by (destruct (Z.ltb_spec a e); destruct (Z.ltb_spec (S + a) (S + e)); lia).
  replace (S + a - (S + e) - 1) with (a - e - 1) by lia.
  replace (S + e - (S + a) - 1) with (e - a - 1) by lia.
  apply map_ext. intros j. lia.
Qed.

Lemma slice_positions_bounds a e k x :
  0 < k -> In x (slice_positions a e k) -> a <= x < e.
Proof.
  intros Hk Hin. unfold slice_positions, slice_length in Hin.
  destruct (Z.ltb_spec k 0); [lia|].
  destruct (Z.ltb_spec a e) as [Hae|]; [|contradiction].
  apply in_map_iff in Hin as (j & <- & Hj). apply in_seq in Hj.
  assert (Hq : 0 <= (e - a - 1) / k) by (apply Z.div_pos; lia).
  assert (Hj' : Z.of_nat j <= (e - a - 1) / k) by lia.
  pose proof (Z.mul_div_le (e - a - 1) k Hk) as Hle.
  assert (Z.of_nat j * k <= (e - a - 1) / k * k)
    by (apply Z.mul_le_mono_nonneg_r; lia).
  split; [|lia].
  assert (0 <= Z.of_nat j * k) by (apply Z.mul_nonneg_nonneg; lia). lia.
Qed.

(** The rows a slice selects in a window of the rows are the rows it
    selects in the whole. *)
Lemma rows_at_positions {A : Type} (es : list A) m S K a1 e1 start stop k :
  0 < m -> 0 <= S -> 0 < k -> 0 <= a1 ->
  e1 <= a1 /\ stop <= start \/ S + a1 = start /\ S + e1 = stop /\ e1 <= K ->
  slice_positions start stop k = map (Z.add S) (slice_positions a1 e1 k) /\
  map (block m (window (S * m) (K * m) es)) (slice_positions a1 e1 k)
  = map (block m es) (slice_positions start stop k).
Proof.
  intros Hm HS Hk Ha1 [[He Hs] | (Hs & He & HK)].
  - rewrite !slice_positions_empty by assumption. split; reflexivity.
  - rewrite <- Hs, <- He, slice_positions_shift. split; [reflexivity|].
    rewrite map_map. apply map_ext_in. intros x Hx.
    apply slice_positions_bounds in Hx; [|assumption].
    apply block_of_window; lia.
Qed.

Section SteppedSlice.
Context {comp : Type}.
Variable cls : payload_class comp.
Variable w : word_array.
Variables (b : Z) (ss : list Z) (cplx : bool).
Variable decoder : list Z -> list comp.

Let p : Payload :=
  mk_payload w ss b cplx (b * floats_per_elem cplx * prod_shape ss) b.
Let bpw : Z := 8 * itemsize w.
Let m : Z := prod_shape ss.
Let cf : Z := floats_per_elem cplx.
Let c : Z := per_word b bpw.
Let L : Z := Z.of_nat (length (word_values w)).
Let ns : Z := L * itemsize w * 8 / (b * cf * m).
Let bpfs : Z := b * cf * m.
Let fspw : Z := bpw / bpfs.

Hypothesis Hb : 0 < b.
Hypothesis Hss : Forall (fun d => 0 < d) ss.
Hypothesis Hisz : 0 < itemsize w.
Hypothesis Hdecoders : _decoders cls b = Some decoder.
Hypothesis Hww : word_wise decoder b bpw.

Variable es : list (elem comp).
Hypothesis Hview : view cplx (decoder (word_values w)) = Ok es.
Hypothesis Hlen : Z.of_nat (length es) = ns * m.
Hypothesis Hwords : L * c = cf * (ns * m).

Variable sl : slice.
Variables start stop k : Z.
Hypothesis Hidx : slice_indices sl ns = Ok (start, stop, k).
Hypothesis Hk : 0 < k.
Hypothesis Hnotwhole : is_whole (ItemOne (IdxSlice sl)) = false.

(** The step of the data slice *)
Let stf : option Z := if k =? 1 then None else Some k.

Lemma index_to_slices_step :
  index_to_slices p (IdxSlice sl)
  = if stop - start =? ns
    then Ok (slice_all, IdxSlice (mk_slice None None stf))
    else if bpfs mod bpw =? 0 then
      Ok (mk_slice (Some (start * (bpfs / bpw)))
                   (Some (stop * (bpfs / bpw))) None,
          IdxSlice (mk_slice None None stf))
    else if bpw mod bpfs =? 0 then
      Ok (mk_slice (Some (start / fspw))
                   (Some (if stop mod fspw =? 0 then stop / fspw
                          else stop / fspw + 1))
                   None,
          IdxSlice
            (mk_slice (if start mod fspw =? 0 then None
                       else Some (start mod fspw))
                      (if stop mod fspw =? 0 then None
                       else Some (start mod fspw + (stop - start)))
                      stf))
    else raise TypeError msg_unsupported_layout.
Proof.
  pose proof (prod_shape_pos ss Hss) as Hm.
  pose proof (floats_per_elem_pos cplx) as Hcf.
  fold m in Hm. fold cf in Hcf.
  assert (Hbpfs : 0 < bpfs) by (unfold bpfs; nia).
  assert (Hbpw : 0 < bpw) by (unfold bpw; lia).
  pose proof (nsample_p w b ss cplx Hb Hss) as Hns.
  change (nsample p = Ok ns) in Hns.
  unfold index_to_slices, resolve_index. rewrite Hns. cbn [rbind].
  rewrite Hidx. cbn [rbind]. fold stf.
  destruct (stop - start =? ns); [reflexivity|].
  change (_bpfs p) with bpfs. change (8 * itemsize (words p)) with bpw.
  unfold py_mod, py_floordiv, py_divmod.
  destruct (Z.eqb_spec bpw 0); [lia|]. cbn [rbind].
  destruct (bpfs mod bpw =? 0); [reflexivity|].
  destruct (Z.eqb_spec bpfs 0); [lia|]. cbn [rbind].
  destruct (Z.eqb_spec (bpw mod bpfs) 0) as [Hmod|]; [|reflexivity].
  fold fspw.
  destruct (Z.eqb_spec fspw 0) as [Hz|]; [|reflexivity].
  exfalso. unfold fspw in Hz.
  apply Z.div_small_iff in Hz; [|lia].
  rewrite Z.mod_small in Hmod by lia. lia.
Qed.

Let ks : list Z := slice_positions start stop k.

(** The payload indexed with the slice: the rows of the whole decoded
    payload at the positions of the slice. *)
Lemma getitem_stepped_rows :
  supported_layout p = true ->
  getitem cls p (ItemOne (IdxSlice sl))
  = Ok (mk_ndarray (Z.of_nat (length ks) :: ss)
                   (concat (map (block m es) ks))).
Proof.
  intros Hsup.
  pose proof (prod_shape_pos ss Hss) as Hm.
  pose proof (floats_per_elem_pos cplx) as Hcf.
  fold m in Hm. fold cf in Hcf.
  pose proof (ns_nonneg w b ss cplx Hb Hss Hisz) as Hns.
  change (0 <= ns) in Hns.
  pose proof (per_word_bits decoder b bpw Hww Hb) as Hc. fold c in Hc.
  pose proof (whole_words_of_rows L c cf ns m b bpw Hwords Hc) as Hwr.
  fold bpfs in Hwr.
  assert (Hbpfs : 0 < bpfs) by (unfold bpfs; nia).
  assert (Hbpw : 0 < bpw) by (unfold bpw; lia).
  assert (HL : 0 <= L) by (unfold L; lia).
  destruct (slice_indices_pos_bounds sl ns start stop k Hidx Hk)
    as (_ & Hstart & Hstop & _).
  assert (Hstf : stf = Some k \/ stf = None /\ k = 1)
    by (unfold stf; destruct (Z.eqb_spec k 1); [right | left]; easy).
  (* what the data slice selects in the rows decoded *)
  assert (Hsel : forall S K a e,
             0 <= S -> 0 <= K ->
             let a1 := match a with None => 0 | Some i => clip_index K i end in
             let e1 := match e with None => K | Some i => clip_index K i end in
             0 <= a1 ->
             e1 <= a1 /\ stop <= start
             \/ S + a1 = start /\ S + e1 = stop /\ e1 <= K ->
             nd_getitem [IdxSlice (mk_slice a e stf)]
                        (mk_ndarray (K :: ss) (window (S * m) (K * m) es))
             = Ok (mk_ndarray (Z.of_nat (length ks) :: ss)
                              (concat (map (block m es) ks)))).
  { intros S K a e HS HK a1 e1 Ha1 Hcase. unfold nd_getitem.
    cbn [nd_shape nd_flat].
    rewrite (nd_index_slice_rows _ K ss _ a1 e1 k)
      by (now apply slice_indices_pos_step).
    fold m.
    destruct (rows_at_positions es m S K a1 e1 start stop k
                                Hm HS Hk Ha1 Hcase) as [Hpos Hrows].
    rewrite Hrows. fold ks. do 3 f_equal.
    unfold ks. rewrite Hpos. now rewrite length_map. }
  assert (Hvia : forall wsl d s n s' n',
             index_to_slices p (IdxSlice sl) = Ok (wsl, d) ->
             slice_list wsl (word_values w)
             = Ok (window s n (word_values w)) ->
             0 <= s -> 0 <= n -> s + n <= L ->
             0 <= s' -> 0 <= n' -> s' + n' <= ns ->
             s * c = cf * (s' * m) -> n * c = cf * (n' * m) ->
             getitem cls p (ItemOne (IdxSlice sl))
             = nd_getitem [d]
                 (mk_ndarray (n' :: ss) (window (s' * m) (n' * m) es))).
  { intros wsl d s n s' n' E Hsl H1 H2 H3 H4 H5 H6 H7 H8.
    assert (Hits : _item_to_slices p (ItemOne (IdxSlice sl)) = Ok (wsl, [d]))
      by (cbn [_item_to_slices]; now rewrite E).
    exact (getitem_via_slices cls w b ss cplx decoder Hb Hss Hdecoders Hww
             es Hview Hlen _ wsl [d] s n s' n' Hnotwhole Hits
             Hsl H1 H2 H3 H4 H5 H6 H7 H8). }
  pose proof index_to_slices_step as Hi.
  set (n' := Z.max 0 (stop - start)).
  destruct (Z.eqb_spec (stop - start) ns) as [Hn|Hn].
  - (* the slice covers the payload *)
    rewrite (Hvia _ _ 0 L 0 ns Hi); try lia.
    + apply (Hsel 0 ns None None); cbv zeta; lia.
    + unfold L. rewrite window_all. apply slice_list_all.
  - unfold supported_layout in Hsup.
    change (_bpfs p) with bpfs in Hsup.
    change (8 * itemsize (words p)) with bpw in Hsup.
    destruct (Z.eqb_spec (bpfs mod bpw) 0) as [HA|HA].
    + (* a full sample takes whole words *)
      set (wpfs := bpfs / bpw) in *.
      assert (Ebpfs : bpfs = bpw * wpfs)
        by (unfold wpfs; apply Z.div_exact; lia).
      assert (Hwpfs : 0 < wpfs) by nia.
      assert (EL : L = ns * wpfs) by nia.
      assert (Ecm : wpfs * c = cf * m).
      { apply Z.mul_reg_r with (p := b); [lia|]. unfold bpfs in Ebpfs. nia. }
      rewrite (Hvia _ _ (start * wpfs) (n' * wpfs) start n' Hi);
        try (unfold n'; nia).
      * apply (Hsel start n' None None); cbv zeta; unfold n'; lia.
      * apply slice_list_range; fold L; unfold n'; nia.
    + (* a word holds whole full samples *)
      cbn [orb] in Hsup.
      destruct (Z.eqb_spec (bpw mod bpfs) 0) as [HB|]; [|discriminate].
      assert (Ebpw : bpw = bpfs * fspw)
        by (unfold fspw; apply Z.div_exact; lia).
      assert (Hfspw : 0 < fspw) by nia.
      assert (Ens : ns = L * fspw) by nia.
      assert (Ecm : c = fspw * (cf * m)).
      { apply Z.mul_reg_r with (p := b); [lia|]. unfold bpfs in Ebpw. nia. }
      pose proof (words_holding_samples fspw start stop Hfspw
                    ltac:(lia) ltac:(lia)) as Harith.
      cbv zeta in Harith.
      pose proof (covering_words_bounds fspw L start Hfspw ltac:(lia))
        as [Bs _].
      pose proof (covering_words_bounds fspw L stop Hfspw ltac:(lia))
        as [Be Be'].
      set (ws := start / fspw) in *. set (os := start mod fspw) in *.
      set (we0 := stop / fspw) in *. set (oe := stop mod fspw) in *.
      set (we := if oe =? 0 then we0 else we0 + 1) in *.
      set (kk := Z.max 0 (we - ws)) in *.
      assert (Hwe : we0 <= we <= we0 + 1 /\ (oe = 0 -> we = we0)
                    /\ (oe <> 0 -> we = we0 + 1)).
      { unfold we. destruct (Z.eqb_spec oe 0); lia. }
      assert (Hws : 0 <= ws <= L) by lia.
      assert (Hwe' : 0 <= we <= L) by lia.
      assert (Hkk : 0 <= kk /\ ws + kk <= L) by (unfold kk; lia).
      destruct Harith as (HN & Hcase & Hs0).
      rewrite (Hvia _ _ ws kk (ws * fspw) (kk * fspw) Hi);
        [| apply slice_list_range; [lia | lia | reflexivity]
         | lia | lia | lia
         | apply Z.mul_nonneg_nonneg; lia
         | apply Z.mul_nonneg_nonneg; lia
         | rewrite Ens, <- Z.mul_add_distr_r;
           apply Z.mul_le_mono_nonneg_r; lia
         | rewrite Ecm; ring | rewrite Ecm; ring].
      apply (Hsel (ws * fspw) (kk * fspw));
        [ apply Z.mul_nonneg_nonneg; lia
        | apply Z.mul_nonneg_nonneg; lia
        | exact Hs0 |].
      fold n' in HN, Hcase.
      destruct Hcase as [Hz | [Hshift Hfit]].
      * left. unfold n' in Hz. lia.
      * destruct (Z.le_gt_cases stop start) as [Hle|Hgt].
        -- left. unfold n' in HN. lia.
        -- right. unfold n' in HN, Hfit. lia.
Qed.
End SteppedSlice.

(** X23.  Slices with a positive step work as on the decoded array.  Take
    a payload of positive [bps], positive sample dimensions and words of
    positive size, in a layout [_item_to_slices] addresses, whose decoder
    works word by word and whose decoding as a whole succeeds.  Indexing
    it with a slice of step [k > 0] returns exactly that slice of the whole
    decoded payload. *)
Theorem getitem_stepped_slice_of_decoded {comp : Type}
        (cls : payload_class comp) (w : word_array) (b : Z) (ss : list Z)
        (cplx : bool) (p : Payload) (decoder : list Z -> list comp)
        (all : ndarray (elem comp)) (sl : slice) (k : Z) :
  init cls w b ss cplx = Ok p ->
  0 < b -> Forall (fun d => 0 < d) ss -> 0 < itemsize w ->
  _decoders cls b = Some decoder ->
  word_wise decoder b (8 * itemsize w) ->
  supported_layout p = true ->
  sl_step sl = Some k -> 0 < k ->
  getitem cls p (ItemTuple []) = Ok all ->
  exists part,
    getitem cls p (ItemOne (IdxSlice sl)) = Ok part /\
    nd_getitem [IdxSlice sl] all = Ok part.
Proof.
  intros Hinit Hb Hss Hisz Hdecoders Hww Hsup Hstep Hk Hall.
  apply init_inv in Hinit. subst p.
  destruct (decode_all_inv cls w b ss cplx decoder Hb Hss Hisz Hdecoders Hww
                           all Hall) as (es & Hview & -> & Hlen & Hwords).
  pose proof (ns_nonneg w b ss cplx Hb Hss Hisz) as Hns.
  set (ns := Z.of_nat (length (word_values w)) * itemsize w * 8
             / (b * floats_per_elem cplx * prod_shape ss)) in *.
  assert (Hidx : exists start stop, slice_indices sl ns = Ok (start, stop, k)).
  { destruct sl as [a e st]. cbn [sl_step] in Hstep. subst st.
    eexists _, _. apply slice_indices_pos_step; [assumption | assumption|].
    now left. }
  destruct Hidx as (start & stop & Hidx).
  assert (Hnw : is_whole (ItemOne (IdxSlice sl)) = false).
  { cbn [is_whole]. unfold slice_eqb. rewrite Hstep. cbn [sl_step slice_all].
    cbn [option_Z_eqb]. apply andb_false_r. }
  eexists. split.
  - apply (getitem_stepped_rows cls w b ss cplx decoder Hb Hss Hisz
             Hdecoders Hww es Hview Hlen Hwords sl start stop k Hidx Hk Hnw
             Hsup).
  - unfold nd_getitem. cbn [nd_shape nd_flat].
    apply nd_index_slice_rows. exact Hidx.
Qed.

Lemma getitem_stepped_slice_of_decoded_witness :
  exists part,
    getitem Examples.example_class Examples.payload_2bit
            (ItemOne (IdxSlice (mk_slice (Some 3) (Some 40) (Some 7))))
    = Ok part /\
    nd_getitem [IdxSlice (mk_slice (Some 3) (Some 40) (Some 7))]
               (mk_ndarray [80] (map EReal (Examples.unpack 2
                  (word_values Examples.words5)))) = Ok part.
Proof.
  apply (getitem_stepped_slice_of_decoded
           Examples.example_class Examples.words5 2 [] false
           Examples.payload_2bit (Examples.unpack 2) _ _ 7).
  - reflexivity.
  - lia.
  - constructor.
  - reflexivity.
  - reflexivity.
  - apply unpack_word_wise; [lia | now exists 16].
  - reflexivity.
  - reflexivity.
  - lia.
  - reflexivity.
Defined.
